(** * A shallow embedding of the ledger node

    The development follows the Python sources file by file:
    [Transaction] (Transaction.py), [Block] (Block.py), [Blockchain]
    (Blockchain.py) and [Node] (Node.py).  What the sources take from their
    libraries is embedded as well: [json.dumps(..., sort_keys=True)] as
    [Json.dumps], [hashlib.sha256(...).hexdigest()] as [Sha256.hexdigest].
    ECDSA over secp256k1 is the one primitive left abstract; [Node] takes
    its verification as a section variable.

    Conventions.
    - A Python [str] is a [string]: one character per code point below 256.
    - A Python [int] is a [Z].  A Python [float] is kept as the text
      [json.dumps] renders for it (the shortest round-trip [repr]), which is
      all the sources ever do with one besides testing it for truth.
    - An exception is a [Raise] in the [result] type; the calls that read the
      clock, draw a uuid or sign thread a [world].
    - Fields are typed as section 3 of the specification types them.  A JSON
      value of another type in such a field is [Unmodelled]: the decoders stop
      there, and the node drops the message as it does on any exception.
      The [block_hash] argument of [add_block] and [is_valid_block] is not
      typed: it is the JSON value the caller hands over.
    - A handler, a sync round and a turn of the miner loop each run to their
      end before the next starts ([Node.run]); sockets, threads and locks are
      not modelled.  [add_transaction] is given as a whole and in the two
      parts its lock makes of it.  The runs of a node start with [__init__],
      on the chain file it finds; the chain file ([save_blockchain],
      [load_blockchain]) is held as the JSON value it contains.  What the
      peers send is an input of the step that receives it. *)

From Stdlib Require Import ZArith NArith List String Ascii Bool Lia.
From Stdlib Require Import DecimalString DecimalZ Permutation Sorted.
Import ListNotations.

Local Open Scope string_scope.
Local Open Scope list_scope.
Set Warnings "-register-all".

(* ================================================================== *)
(** * Python values, exceptions and the outside world                   *)
(* ================================================================== *)

(** A JSON number as Python holds it. *)
Inductive pynum : Type :=
| PInt (z : Z)
| PFloat (repr : string).

(** Truth value of a number: zero is false.  The two float zeros render as
    [0.0] and [-0.0]. *)
Definition pynum_truthy (n : pynum) : bool :=
  match n with
  | PInt z => negb (z =? 0)%Z
  | PFloat r => negb ((r =? "0.0") || (r =? "-0.0"))
  end.

(** Truth value of a string: the empty string is false. *)
Definition str_truthy (s : string) : bool :=
  match s with
  | EmptyString => false
  | String _ _ => true
  end.

Inductive exn : Type :=
| KeyError (key : string)
| IndexError
| TypeError
| AttributeError
| Unmodelled.

Inductive result (A : Type) : Type :=
| Ok (a : A)
| Raise (e : exn).
Arguments Ok {A} a.
Arguments Raise {A} e.

Definition bind {A B : Type} (r : result A) (k : A -> result B) : result B :=
  match r with
  | Ok a => k a
  | Raise e => Raise e
  end.

Declare Scope py_scope.
Delimit Scope py_scope with py.
Notation "x <- r ;; k" := (bind r (fun x => k))
  (at level 61, r at next level, right associativity) : py_scope.

(** What the process reads from outside: the successive values of
    [str(uuid.uuid4())], of [time.time()] (floats, so their text) and of
    [private_key.sign(...).hex()] (ECDSA signing draws a random nonce).
    Reading one moves to the next. *)
Record world : Type := World {
  uuid_src : nat -> string;
  time_src : nat -> string;
  sign_src : nat -> string -> string
}.

Definition uuid4 (w : world) : string * world :=
  (uuid_src w 0,
   World (fun n => uuid_src w (S n)) (time_src w) (sign_src w)).

Definition time_time (w : world) : pynum * world :=
  (PFloat (time_src w 0),
   World (uuid_src w) (fun n => time_src w (S n)) (sign_src w)).

Definition private_key_sign (msg : string) (w : world) : string * world :=
  (sign_src w 0 msg,
   World (uuid_src w) (time_src w) (fun n => sign_src w (S n))).

(* ================================================================== *)
(** * json.dumps with sort_keys=True                                    *)
(* ================================================================== *)

Module Json.

Inductive json : Type :=
| JNull
| JBool (b : bool)
| JNum (n : pynum)
| JStr (s : string)
| JArr (items : list json)
| JObj (fields : list (string * json)).

(** [d.get(k)]: the first binding of [k]. *)
Fixpoint get (k : string) (fields : list (string * json)) : option json :=
  match fields with
  | [] => None
  | (k', v) :: tl => if k' =? k then Some v else get k tl
  end.

(** [k in d]. *)
Definition has_key (k : string) (fields : list (string * json)) : bool :=
  match get k fields with
  | Some _ => true
  | None => false
  end.

(** [d[k]]. *)
Definition getitem (k : string) (fields : list (string * json)) : result json :=
  match get k fields with
  | Some v => Ok v
  | None => Raise (KeyError k)
  end.

Definition chr (n : N) : string := String (ascii_of_N n) EmptyString.

Definition hex_digit (d : N) : ascii :=
  ascii_of_N (if (d <? 10)%N then 48 + d else 87 + d).

(** One character as [json.dumps] writes it with [ensure_ascii=True]:
    printable ASCII as is, the quote and the backslash escaped, the usual
    control characters by letter, anything else as [\u00XX]. *)
Definition escape_char (c : ascii) : string :=
  let n := N_of_ascii c in
  if (n =? 34)%N then chr 92 ++ chr 34
  else if (n =? 92)%N then chr 92 ++ chr 92
  else if (n =? 10)%N then chr 92 ++ "n"
  else if (n =? 13)%N then chr 92 ++ "r"
  else if (n =? 9)%N then chr 92 ++ "t"
  else if (n =? 8)%N then chr 92 ++ "b"
  else if (n =? 12)%N then chr 92 ++ "f"
  else if ((32 <=? n) && (n <=? 126))%N then String c EmptyString
  else chr 92 ++ "u00"
       ++ String (hex_digit (N.shiftr n 4)) (String (hex_digit (N.land n 15)) EmptyString).

Fixpoint escape (s : string) : string :=
  match s with
  | EmptyString => EmptyString
  | String c tl => escape_char c ++ escape tl
  end.

Definition quote (s : string) : string := chr 34 ++ escape s ++ chr 34.

Definition render_int (z : Z) : string := NilZero.string_of_int (Z.to_int z).

Definition render_num (n : pynum) : string :=
  match n with
  | PInt z => render_int z
  | PFloat r => r
  end.

(** [sep.join(parts)]. *)
Fixpoint join (sep : string) (parts : list string) : string :=
  match parts with
  | [] => EmptyString
  | [p] => p
  | p :: tl => p ++ sep ++ join sep tl
  end.

(** Keys in code point order, as [sorted] orders Python strings. *)
Definition key_le (a b : string) : bool := String.leb a b.

Fixpoint insert_key (kv : string * string) (sorted : list (string * string))
  : list (string * string) :=
  match sorted with
  | [] => [kv]
  | kv' :: tl =>
      if key_le (fst kv) (fst kv') then kv :: sorted
      else kv' :: insert_key kv tl
  end.

Definition sort_keys (l : list (string * string)) : list (string * string) :=
  fold_right insert_key [] l.

Definition render_field (kv : string * string) : string :=
  quote (fst kv) ++ ": " ++ snd kv.

(** [json.dumps(j, sort_keys=True)]: separators [", "] and [": "], every
    object's keys sorted. *)
Fixpoint dumps (j : json) : string :=
  match j with
  | JNull => "null"
  | JBool true => "true"
  | JBool false => "false"
  | JNum n => render_num n
  | JStr s => quote s
  | JArr items => "[" ++ join ", " (map dumps items) ++ "]"
  | JObj fields =>
      "{" ++ join ", "
               (map render_field
                    (sort_keys (map (fun kv => (fst kv, dumps (snd kv))) fields)))
          ++ "}"
  end.

End Json.
Import Json.

(* ================================================================== *)
(** * hashlib.sha256                                                    *)
(* ================================================================== *)

(** SHA-256 as FIPS 180-4 defines it, on 32-bit words held in [N] with the
    wrap-around written out. *)
Module Sha256.
Local Open Scope N_scope.

Definition mask32 : N := N.ones 32.
Definition add32 (x y : N) : N := N.land (x + y) mask32.
Definition rotr (n x : N) : N :=
  N.lor (N.shiftr x n) (N.land (N.shiftl x (32 - n)) mask32).
Definition not32 (x : N) : N := N.lxor x mask32.
Definition Ch (x y z : N) : N := N.lxor (N.land x y) (N.land (not32 x) z).
Definition Maj (x y z : N) : N :=
  N.lxor (N.lxor (N.land x y) (N.land x z)) (N.land y z).
Definition bsig0 (x : N) : N := N.lxor (N.lxor (rotr 2 x) (rotr 13 x)) (rotr 22 x).
Definition bsig1 (x : N) : N := N.lxor (N.lxor (rotr 6 x) (rotr 11 x)) (rotr 25 x).
Definition ssig0 (x : N) : N := N.lxor (N.lxor (rotr 7 x) (rotr 18 x)) (N.shiftr x 3).
Definition ssig1 (x : N) : N := N.lxor (N.lxor (rotr 17 x) (rotr 19 x)) (N.shiftr x 10).

Definition primes64 : list N :=
  [2; 3; 5; 7; 11; 13; 17; 19; 23; 29; 31; 37; 41; 43; 47; 53;
   59; 61; 67; 71; 73; 79; 83; 89; 97; 101; 103; 107; 109; 113; 127; 131;
   137; 139; 149; 151; 157; 163; 167; 173; 179; 181; 191; 193; 197; 199; 211; 223;
   227; 229; 233; 239; 241; 251; 257; 263; 269; 271; 277; 281; 283; 293; 307; 311].

(** Integer cube root, one bit at a time from the top. *)
Fixpoint iroot3_bits (bits : nat) (n r : N) : N :=
  match bits with
  | O => r
  | S b =>
      let c := r + N.shiftl 1 (N.of_nat b) in
      iroot3_bits b n (if c * c * c <=? n then c else r)
  end.
Definition iroot3 (n : N) : N := iroot3_bits 40 n 0.

(** The first 32 bits of the fractional part of a cube root and of a
    square root. *)
Definition frac_cbrt32 (p : N) : N := N.land (iroot3 (N.shiftl p 96)) mask32.
Definition frac_sqrt32 (p : N) : N := N.land (N.sqrt (N.shiftl p 64)) mask32.

Definition K : list N := Eval vm_compute in map frac_cbrt32 primes64.
Definition H0 : list N := Eval vm_compute in map frac_sqrt32 (firstn 8 primes64).

Definition be_bytes (width : nat) (x : N) : list N :=
  map (fun i => N.land (N.shiftr x (8 * N.of_nat i)) 255) (rev (seq 0 width)).

Definition pad (msg : list N) : list N :=
  let len := N.of_nat (List.length msg) in
  let zeros := N.to_nat ((119 - len mod 64) mod 64) in
  msg ++ [128] ++ repeat 0 zeros ++ be_bytes 8 (8 * len).

Fixpoint words (fuel : nat) (bs : list N) : list N :=
  match fuel, bs with
  | S f, b0 :: b1 :: b2 :: b3 :: tl =>
      (N.shiftl b0 24 + N.shiftl b1 16 + N.shiftl b2 8 + b3) :: words f tl
  | _, _ => []
  end.

(** The message schedule, most recent word first while it is built. *)
Fixpoint extend (n : nat) (revW : list N) : list N :=
  match n with
  | O => revW
  | S n' =>
      let w := add32 (add32 (ssig1 (nth 1 revW 0)) (nth 6 revW 0))
                     (add32 (ssig0 (nth 14 revW 0)) (nth 15 revW 0)) in
      extend n' (w :: revW)
  end.
Definition schedule (block : list N) : list N := rev (extend 48 (rev block)).

Record regs : Type := Regs {
  ra : N; rb : N; rc : N; rd : N; re : N; rf : N; rg : N; rh : N
}.

Definition round (s : regs) (kw : N * N) : regs :=
  let t1 := add32 (add32 (add32 (rh s) (bsig1 (re s))) (Ch (re s) (rf s) (rg s)))
                  (add32 (fst kw) (snd kw)) in
  let t2 := add32 (bsig0 (ra s)) (Maj (ra s) (rb s) (rc s)) in
  Regs (add32 t1 t2) (ra s) (rb s) (rc s) (add32 (rd s) t1) (re s) (rf s) (rg s).

Definition compress (h : regs) (block : list N) : regs :=
  let s := fold_left round (combine K (schedule block)) h in
  Regs (add32 (ra h) (ra s)) (add32 (rb h) (rb s)) (add32 (rc h) (rc s))
       (add32 (rd h) (rd s)) (add32 (re h) (re s)) (add32 (rf h) (rf s))
       (add32 (rg h) (rg s)) (add32 (rh h) (rh s)).

Fixpoint blocks (fuel : nat) (ws : list N) : list (list N) :=
  match fuel, ws with
  | S f, _ :: _ => firstn 16 ws :: blocks f (skipn 16 ws)
  | _, _ => []
  end.

Definition init_regs : regs :=
  match H0 with
  | [a; b; c; d; e; f; g; h] => Regs a b c d e f g h
  | _ => Regs 0 0 0 0 0 0 0 0
  end.

Definition digest (msg : list N) : list N :=
  let p := pad msg in
  let ws := words (List.length p) p in
  let s := fold_left compress (blocks (List.length ws) ws) init_regs in
  [ra s; rb s; rc s; rd s; re s; rf s; rg s; rh s].

Definition hex_word (w : N) : string :=
  fold_right
    (fun i acc => String (Json.hex_digit (N.land (N.shiftr w (4 * N.of_nat i)) 15)) acc)
    EmptyString (rev (seq 0 8)).

Fixpoint bytes_of_string (s : string) : list N :=
  match s with
  | EmptyString => []
  | String c tl => N_of_ascii c :: bytes_of_string tl
  end.

(** [sha256(s.encode()).hexdigest()], for [s] in ASCII (which is what
    [json.dumps] produces). *)
Definition hexdigest (s : string) : string :=
  fold_right (fun w acc => hex_word w ++ acc)%string EmptyString
             (digest (bytes_of_string s)).

End Sha256.

(* ================================================================== *)
(** * Transaction.py                                                    *)
(* ================================================================== *)

Module Transaction.

Record t : Type := Make {
  tx_id : string;
  sender_pubkey : string;
  receiver_pubkey : string;
  amount : Z;
  fee : Z;
  timestamp : pynum;
  signature : option string
}.

(** [Transaction.__init__]: a false [tx_id] ([None] or the empty string) is
    replaced by a fresh uuid, a false [timestamp] ([None] or zero) by the
    clock. *)
Definition init (sender receiver : string) (amount fee : Z)
    (tx_id : option string) (signature : option string)
    (timestamp : option pynum) (w : world) : t * world :=
  let '(id, w1) :=
    match tx_id with
    | Some s => if str_truthy s then (s, w) else uuid4 w
    | None => uuid4 w
    end in
  let '(ts, w2) :=
    match timestamp with
    | Some n => if pynum_truthy n then (n, w1) else time_time w1
    | None => time_time w1
    end in
  (Make id sender receiver amount fee ts signature, w2).

Definition opt_str_json (o : option string) : json :=
  match o with
  | Some s => JStr s
  | None => JNull
  end.

(** The items of the dict [to_dict] returns, in the order it writes them. *)
Definition dict_items (tx : t) : list (string * json) :=
  [("tx_id", JStr (tx_id tx));
   ("sender_pubkey", JStr (sender_pubkey tx));
   ("receiver_pubkey", JStr (receiver_pubkey tx));
   ("amount", JNum (PInt (amount tx)));
   ("fee", JNum (PInt (fee tx)));
   ("timestamp", JNum (timestamp tx));
   ("signature", opt_str_json (signature tx))].

Definition to_dict (tx : t) : json := JObj (dict_items tx).

(** The bytes that are signed: the dictionary without the signature. *)
Definition get_signing_data (tx : t) : string :=
  dumps (JObj [("tx_id", JStr (tx_id tx));
               ("sender_pubkey", JStr (sender_pubkey tx));
               ("receiver_pubkey", JStr (receiver_pubkey tx));
               ("amount", JNum (PInt (amount tx)));
               ("fee", JNum (PInt (fee tx)));
               ("timestamp", JNum (timestamp tx))]).

(** Reading a field at the type the data model gives it. *)
Definition as_str (j : json) : result string :=
  match j with
  | JStr s => Ok s
  | _ => Raise Unmodelled
  end.

Definition as_int (j : json) : result Z :=
  match j with
  | JNum (PInt z) => Ok z
  | _ => Raise Unmodelled
  end.

Definition as_opt_str (o : option json) : result (option string) :=
  match o with
  | None | Some JNull => Ok None
  | Some (JStr s) => Ok (Some s)
  | Some _ => Raise Unmodelled
  end.

Definition as_opt_num (o : option json) : result (option pynum) :=
  match o with
  | None | Some JNull => Ok None
  | Some (JNum n) => Ok (Some n)
  | Some _ => Raise Unmodelled
  end.

Definition as_int_default (o : option json) (d : Z) : result Z :=
  match o with
  | None => Ok d
  | Some j => as_int j
  end.

(** The constructor's arguments as [from_dict] reads them off the
    dictionary, in the order Python evaluates them. *)
Record args : Type := Args {
  a_sender : string;
  a_receiver : string;
  a_amount : Z;
  a_fee : Z;
  a_tx_id : option string;
  a_signature : option string;
  a_timestamp : option pynum
}.

Definition read_args (fields : list (string * json)) : result args :=
  (sender <- bind (getitem "sender_pubkey" fields) as_str ;;
   receiver <- bind (getitem "receiver_pubkey" fields) as_str ;;
   amount <- bind (getitem "amount" fields) as_int ;;
   fee <- as_int_default (get "fee" fields) 0 ;;
   id <- bind (getitem "tx_id" fields) (fun j => as_opt_str (Some j)) ;;
   sig <- as_opt_str (get "signature" fields) ;;
   ts <- as_opt_num (get "timestamp" fields) ;;
   Ok (Args sender receiver amount fee id sig ts))%py.

Definition from_dict (data : json) (w : world) : result t * world :=
  match data with
  | JObj fields =>
      match read_args fields with
      | Ok a =>
          let '(tx, w') :=
            init (a_sender a) (a_receiver a) (a_amount a) (a_fee a)
                 (a_tx_id a) (a_signature a) (a_timestamp a) w in
          (Ok tx, w')
      | Raise e => (Raise e, w)
      end
  | _ => (Raise TypeError, w)
  end.

(** [__eq__]: by identifier alone. *)
Definition eqb (a b : t) : bool := tx_id a =? tx_id b.

Definition with_signature (tx : t) (s : option string) : t :=
  Make (tx_id tx) (sender_pubkey tx) (receiver_pubkey tx) (amount tx) (fee tx)
       (timestamp tx) s.

Definition COINBASE : string := "COINBASE".

Definition create_reward_transaction (miner_pubkey : string) (amount fee_sum : Z)
    (w : world) : t * world :=
  let '(id, w1) := uuid4 w in
  let '(tx, w2) := init COINBASE miner_pubkey (amount + fee_sum) 0 (Some id) None None w1 in
  (with_signature tx (Some COINBASE), w2).

End Transaction.

(* ================================================================== *)
(** * Block.py                                                          *)
(* ================================================================== *)

Module Block.

(** An entry of a block's transaction list: a [Transaction] object, or
    whatever else the list holds (the genesis descriptor is a plain dict). *)
Inductive item : Type :=
| Tx (tx : Transaction.t)
| Raw (j : json).

Record t : Type := Make {
  index : Z;
  timestamp : pynum;
  transactions : list item;
  prev_hash : string;
  nonce : Z;
  hash : string
}.

Definition item_to_dict (i : item) : json :=
  match i with
  | Tx tx => Transaction.to_dict tx
  | Raw j => j
  end.

Definition hash_input (index : Z) (timestamp : pynum) (transactions : list item)
    (prev_hash : string) (nonce : Z) : json :=
  JObj [("index", JNum (PInt index));
        ("timestamp", JNum timestamp);
        ("transactions", JArr (map item_to_dict transactions));
        ("prev_hash", JStr prev_hash);
        ("nonce", JNum (PInt nonce))].

Definition generate_hash (b : t) : string :=
  Sha256.hexdigest
    (dumps (hash_input (index b) (timestamp b) (transactions b) (prev_hash b) (nonce b))).

Definition with_hash (b : t) (h : string) : t :=
  Make (index b) (timestamp b) (transactions b) (prev_hash b) (nonce b) h.

Definition with_nonce (b : t) (n : Z) : t :=
  Make (index b) (timestamp b) (transactions b) (prev_hash b) n (hash b).

(** [Block.__init__]: only a missing ([None]) timestamp is replaced by the
    clock, only a missing hash by the computed one. *)
Definition init (index : Z) (transactions : list item) (prev_hash : string)
    (timestamp : option pynum) (nonce : Z) (hash_val : option string)
    (w : world) : t * world :=
  let '(ts, w1) :=
    match timestamp with
    | None => time_time w
    | Some n => (n, w)
    end in
  let b := Make index ts transactions prev_hash nonce EmptyString in
  (with_hash b match hash_val with
               | Some h => h
               | None => generate_hash b
               end, w1).

Definition to_dict (b : t) : json :=
  JObj [("index", JNum (PInt (index b)));
        ("timestamp", JNum (timestamp b));
        ("transactions", JArr (map item_to_dict (transactions b)));
        ("prev_hash", JStr (prev_hash b));
        ("nonce", JNum (PInt (nonce b)));
        ("hash", JStr (hash b))].

(** One entry of the list comprehension of [from_dict]: a dict with a
    [tx_id] key becomes a [Transaction], anything else is kept. *)
Definition item_from_dict (j : json) (w : world) : result item * world :=
  match j with
  | JObj fields =>
      if has_key "tx_id" fields then
        match Transaction.from_dict j w with
        | (Ok tx, w') => (Ok (Tx tx), w')
        | (Raise e, w') => (Raise e, w')
        end
      else (Ok (Raw j), w)
  | _ => (Ok (Raw j), w)
  end.

Fixpoint items_from_dict (l : list json) (w : world) : result (list item) * world :=
  match l with
  | [] => (Ok [], w)
  | j :: tl =>
      match item_from_dict j w with
      | (Ok i, w1) =>
          match items_from_dict tl w1 with
          | (Ok rest, w2) => (Ok (i :: rest), w2)
          | (Raise e, w2) => (Raise e, w2)
          end
      | (Raise e, w1) => (Raise e, w1)
      end
  end.

Definition as_list (j : json) : result (list json) :=
  match j with
  | JArr l => Ok l
  | _ => Raise Unmodelled
  end.

Definition from_dict (data : json) (w : world) : result t * world :=
  match data with
  | JObj fields =>
      match bind (getitem "transactions" fields) as_list with
      | Ok l =>
          match items_from_dict l w with
          | (Ok txs, w1) =>
              match
                (idx <- bind (getitem "index" fields) Transaction.as_int ;;
                 ph <- bind (getitem "prev_hash" fields) Transaction.as_str ;;
                 ts <- Transaction.as_opt_num (get "timestamp" fields) ;;
                 n <- Transaction.as_int_default (get "nonce" fields) 0 ;;
                 h <- Transaction.as_opt_str (get "hash" fields) ;;
                 Ok (idx, ph, ts, n, h))%py
              with
              | Ok (idx, ph, ts, n, h) =>
                  let '(b, w2) := init idx txs ph ts n h w1 in (Ok b, w2)
              | Raise e => (Raise e, w1)
              end
          | (Raise e, w1) => (Raise e, w1)
          end
      | Raise e => (Raise e, w)
      end
  | _ => (Raise TypeError, w)
  end.

End Block.

(* ================================================================== *)
(** * Blockchain.py                                                     *)
(* ================================================================== *)

Module Blockchain.

Definition difficulty : nat := 4.
Definition BLOCK_SIZE_LIMIT : nat := 3.
Definition MINING_REWARD : Z := 10.

(** ["0" * n]. *)
Fixpoint zeros (n : nat) : string :=
  match n with
  | O => EmptyString
  | S k => String "0" (zeros k)
  end.

(** [s.startswith(p)]. *)
Definition startswith (s p : string) : bool := String.prefix p s.

Definition genesis_descriptor : json :=
  JObj [("type", JStr "genesis"); ("message", JStr "Genesis Block")].

(** [create_genesis_block]: fixed fields, so the clock is not read; the
    hash is then set to the computed one. *)
Definition create_genesis_block (chain : list Block.t) (w : world)
  : list Block.t * world :=
  let '(genesis, w1) :=
    Block.init 0 [Block.Raw genesis_descriptor] "0" (Some (PInt 0)) 0 None w in
  (chain ++ [Block.with_hash genesis (Block.generate_hash genesis)], w1).

(** [Blockchain.__init__]. *)
Definition init (w : world) : list Block.t * world := create_genesis_block [] w.

(** [self.chain[-1]]. *)
Definition last_block (chain : list Block.t) : result Block.t :=
  match rev chain with
  | [] => Raise IndexError
  | b :: _ => Ok b
  end.

(** [is_valid_block]: [block_hash] is whatever value the caller hands
    over.  Only a [str] has a [startswith]: on any other value the call
    raises [AttributeError]. *)
Definition is_valid_block (block : Block.t) (block_hash : json) : result bool :=
  match block_hash with
  | JStr h =>
      if negb (startswith h (zeros difficulty)) then Ok false
      else Ok (Block.generate_hash block =? h)
  | _ => Raise AttributeError
  end.

(** [add_block].  The tip is looked up first (an empty chain has none),
    then the link is tested, then [is_valid_block] is called: a hash that
    is not a [str] makes it raise only for a block that links to the tip.
    The block is appended with [block_hash] as its hash, a [str] by then. *)
Definition add_block (chain : list Block.t) (block : Block.t) (block_hash : json)
  : result (bool * list Block.t) :=
  (tip <- last_block chain ;;
   if negb (Block.hash tip =? Block.prev_hash block) then Ok (false, chain)
   else
     valid <- is_valid_block block block_hash ;;
     if negb valid then Ok (false, chain)
     else
       match block_hash with
       | JStr h => Ok (true, chain ++ [Block.with_hash block h])
       | _ => Raise AttributeError
       end)%py.

(** The loop of [is_valid_chain] over [i = 1 .. len(chain) - 1], with
    [prev = chain[i - 1]] carried along. *)
Fixpoint check_links (prev : Block.t) (rest : list Block.t) : bool :=
  match rest with
  | [] => true
  | curr :: tl =>
      if negb (Block.prev_hash curr =? Block.hash prev) then false
      else if negb (startswith (Block.hash curr) (zeros difficulty)) then false
      else if negb (Block.generate_hash curr =? Block.hash curr) then false
      else check_links curr tl
  end.

Definition is_valid_chain (chain : list Block.t) : bool :=
  match chain with
  | [] => false
  | first :: rest =>
      if negb (Block.prev_hash first =? "0") then false
      else check_links first rest
  end.

(** [replace_chain]: the new chain list and the value returned.  [deepcopy]
    is the identity on values. *)
Definition replace_chain (chain new_chain : list Block.t) : bool * list Block.t :=
  if (List.length chain <? List.length new_chain)%nat && is_valid_chain new_chain
  then (true, new_chain)
  else (false, chain).

Definition get_chain_copy (chain : list Block.t) : list Block.t := chain.

(** [proof_of_work]: the loop runs at most [fuel] times; [None] when it has
    not found a hash by then.  The block comes back with the nonce the loop
    left in it. *)
Fixpoint pow_loop (fuel : nat) (block : Block.t) (h : string)
  : option (string * Block.t) :=
  if startswith h (zeros difficulty) then Some (h, block)
  else
    match fuel with
    | O => None
    | S f =>
        let block' := Block.with_nonce block (Block.nonce block + 1) in
        pow_loop f block' (Block.generate_hash block')
    end.

Definition proof_of_work (fuel : nat) (block : Block.t) : option (string * Block.t) :=
  let block0 := Block.with_nonce block 0 in
  pow_loop fuel block0 (Block.generate_hash block0).

(** The body of the inner loop of [get_balance]. *)
Definition apply_item (pubkey : string) (balance : Z) (i : Block.item) : Z :=
  match i with
  | Block.Tx tx =>
      let balance1 :=
        if Transaction.sender_pubkey tx =? pubkey
        then (balance - (Transaction.amount tx + Transaction.fee tx))%Z
        else balance in
      if Transaction.receiver_pubkey tx =? pubkey
      then (balance1 + Transaction.amount tx)%Z
      else balance1
  | Block.Raw _ => balance
  end.

Definition get_balance (chain : list Block.t) (pubkey : string) : Z :=
  fold_left
    (fun balance block => fold_left (apply_item pubkey) (Block.transactions block) balance)
    (tl chain) 100%Z.

Definition get_balance_with_mempool (chain : list Block.t) (pubkey : string)
    (mempool : list Transaction.t) : Z :=
  fold_left
    (fun balance tx =>
       if Transaction.sender_pubkey tx =? pubkey
       then (balance - (Transaction.amount tx + Transaction.fee tx))%Z
       else balance)
    mempool (get_balance chain pubkey).

End Blockchain.

(** The genesis block every node starts from, with its hash computed once. *)
Definition genesis_unsealed : Block.t :=
  Block.Make 0 (PInt 0) [Block.Raw Blockchain.genesis_descriptor] "0" 0 EmptyString.

Definition genesis_hash : string :=
  Eval vm_compute in Block.generate_hash genesis_unsealed.

Definition genesis : Block.t := Block.with_hash genesis_unsealed genesis_hash.

(* ================================================================== *)
(** * Node.py                                                           *)
(* ================================================================== *)

Module Node.

Record t : Type := Make {
  name : string;
  is_miner : bool;
  public_key_str : string;
  blockchain : list Block.t;
  mempool : list Transaction.t
}.

Definition with_mempool (st : t) (mp : list Transaction.t) : t :=
  Make (name st) (is_miner st) (public_key_str st) (blockchain st) mp.

(** [tx in self.mempool]: by [__eq__]. *)
Definition mem (tx : Transaction.t) (mp : list Transaction.t) : bool :=
  existsb (fun y => Transaction.eqb y tx) mp.

(** [self.mempool.remove(tx)]: the first equal element goes. *)
Fixpoint remove (tx : Transaction.t) (mp : list Transaction.t) : list Transaction.t :=
  match mp with
  | [] => []
  | y :: tl => if Transaction.eqb y tx then tl else y :: remove tx tl
  end.

Definition item_has_id (id : string) (i : Block.item) : bool :=
  match i with
  | Block.Tx btx => Transaction.tx_id btx =? id
  | Block.Raw _ => false
  end.

(** The duplicate scan of [add_transaction], over every block. *)
Definition in_chain (id : string) (chain : list Block.t) : bool :=
  existsb (fun block => existsb (item_has_id id) (Block.transactions block)) chain.

(** [sorted(mempool, key=fee, reverse=True)]: stable. *)
Fixpoint insert_by_fee (tx : Transaction.t) (sorted : list Transaction.t)
  : list Transaction.t :=
  match sorted with
  | [] => [tx]
  | y :: tl =>
      if (Transaction.fee y <=? Transaction.fee tx)%Z then tx :: sorted
      else y :: insert_by_fee tx tl
  end.

Definition pick_transactions (st : t) (limit : nat) : list Transaction.t :=
  firstn limit (fold_right insert_by_fee [] (mempool st)).

(** A dict from [tx_id] to transaction: assigning to a key that is there
    keeps its place. *)
Fixpoint dict_set (k : string) (v : Transaction.t) (d : list (string * Transaction.t))
  : list (string * Transaction.t) :=
  match d with
  | [] => [(k, v)]
  | (k', v') :: tl => if k' =? k then (k, v) :: tl else (k', v') :: dict_set k v tl
  end.

Fixpoint dict_get (k : string) (d : list (string * Transaction.t)) : option Transaction.t :=
  match d with
  | [] => None
  | (k', v) :: tl => if k' =? k then Some v else dict_get k tl
  end.

Definition item_txs (items : list Block.item) : list Transaction.t :=
  flat_map (fun i => match i with Block.Tx tx => [tx] | Block.Raw _ => [] end) items.

(** The transactions of [chain[1:]], in order. *)
Definition chain_txs (chain : list Block.t) : list Transaction.t :=
  flat_map (fun block => item_txs (Block.transactions block)) (tl chain).

Definition build_tx_map (chain : list Block.t) : list (string * Transaction.t) :=
  fold_left (fun d tx => dict_set (Transaction.tx_id tx) tx d) (chain_txs chain) [].

Definition build_tx_ids (chain : list Block.t) : list string :=
  map Transaction.tx_id (chain_txs chain).

Definition id_in (id : string) (ids : list string) : bool :=
  existsb (fun y => y =? id) ids.

(** [[Block.from_dict(b) for b in chain_data]]. *)
Fixpoint blocks_from_dict (l : list json) (w : world) : result (list Block.t) * world :=
  match l with
  | [] => (Ok [], w)
  | b :: tl =>
      match Block.from_dict b w with
      | (Ok blk, w1) =>
          match blocks_from_dict tl w1 with
          | (Ok rest, w2) => (Ok (blk :: rest), w2)
          | (Raise e, w2) => (Raise e, w2)
          end
      | (Raise e, w1) => (Raise e, w1)
      end
  end.

(** Anything but a list leaves the node as it is: a number or [None] is
    not iterable, the elements of a string or the keys of a dict are
    strings, which [Block.from_dict] cannot subscript by name (and from an
    empty string or dict comes an empty chain, which replaces nothing). *)
Definition decode_chain (chain_data : json) (w : world) : result (list Block.t) * world :=
  match chain_data with
  | JArr l => blocks_from_dict l w
  | _ => (Raise TypeError, w)
  end.

(** The node a constructor leaves when there is no chain file: the genesis
    alone and nothing pending. *)
Definition fresh (name : string) (is_miner : bool) (public_key_str : string) : t :=
  Make name is_miner public_key_str [genesis] [].

(** The chain file [blockchain.json]: absent, present with a text that is
    not JSON, or holding a JSON value. *)
Inductive chain_file : Type :=
| NoFile
| Garbled
| Holds (j : json).

(** [save_blockchain]: the value written to the file. *)
Definition save_blockchain (st : t) : chain_file :=
  Holds (JArr (map Block.to_dict (Blockchain.get_chain_copy (blockchain st)))).

(** [ensure_blockchain_file]: the file afterwards. *)
Definition ensure_blockchain_file (st : t) (file : chain_file) : chain_file :=
  match file with
  | NoFile => save_blockchain st
  | _ => file
  end.

(** [load_blockchain]: the chain read from the file replaces the node's
    when [is_valid_chain] accepts it; whatever is raised on the way is
    caught and the chain stays. *)
Definition load_blockchain (st : t) (file : chain_file) (w : world) : t * world :=
  match file with
  | NoFile => (st, w)
  | Garbled => (st, w)
  | Holds chain_data =>
      match decode_chain chain_data w with
      | (Ok new_chain, w') =>
          if Blockchain.is_valid_chain new_chain
          then (Make (name st) (is_miner st) (public_key_str st) new_chain (mempool st), w')
          else (st, w')
      | (Raise _, w') => (st, w')
      end
  end.

(** [Node.__init__], from the key pair on: a new [Blockchain], an empty
    mempool, the chain file made sure of and then loaded.  The node and the
    file afterwards. *)
Definition init (name : string) (is_miner : bool) (public_key_str : string)
    (file : chain_file) (w : world) : t * chain_file * world :=
  let '(chain, w1) := Blockchain.init w in
  let st := Make name is_miner public_key_str chain [] in
  let file' := ensure_blockchain_file st file in
  let '(st', w2) := load_blockchain st file' w1 in
  (st', file', w2).

(** A node constructed where there is no chain file. *)
Definition no_chain_file (file : chain_file) : bool :=
  match file with
  | NoFile => true
  | _ => false
  end.

Section WithCrypto.

(** [ecdsa_verify pem sig_hex msg]: [load_pem_public_key(pem)],
    [bytes.fromhex(sig_hex)] and [public_key.verify(...)] with
    ECDSA/SHA-256 all return without raising. *)
Variable ecdsa_verify : string -> string -> string -> bool.

(** The order in which Python iterates a set of strings: by a rank the
    process fixes (it follows from the string hashes). *)
Variable set_rank : string -> N.

Fixpoint insert_by_rank (id : string) (sorted : list string) : list string :=
  match sorted with
  | [] => [id]
  | y :: tl =>
      if (set_rank id <=? set_rank y)%N then id :: sorted
      else y :: insert_by_rank id tl
  end.

Definition set_iter (ids : list string) : list string :=
  fold_right insert_by_rank [] ids.

Definition sign_transaction (tx : Transaction.t) (w : world) : Transaction.t * world :=
  let '(s, w') := private_key_sign (Transaction.get_signing_data tx) w in
  (Transaction.with_signature tx (Some s), w').

Definition signature_truthy (tx : Transaction.t) : bool :=
  match Transaction.signature tx with
  | Some s => str_truthy s
  | None => false
  end.

(** The ECDSA check of [verify_transaction] alone. *)
Definition signature_verifies (tx : Transaction.t) : bool :=
  match Transaction.signature tx with
  | Some s =>
      ecdsa_verify (Transaction.sender_pubkey tx) s (Transaction.get_signing_data tx)
  | None => false
  end.

Definition verify_transaction (chain : list Block.t) (mp : list Transaction.t)
    (tx : Transaction.t) : bool :=
  if Transaction.sender_pubkey tx =? Transaction.COINBASE then true
  else if negb (signature_truthy tx) then false
  else if signature_verifies tx then
    let balance :=
      Blockchain.get_balance_with_mempool chain (Transaction.sender_pubkey tx) mp in
    if (balance <? Transaction.amount tx + Transaction.fee tx)%Z then false else true
  else false.

Definition create_and_sign_transaction (st : t) (receiver : string) (amount fee : Z)
    (w : world) : option Transaction.t * world :=
  let balance :=
    Blockchain.get_balance_with_mempool (blockchain st) (public_key_str st) (mempool st) in
  if (balance <? amount + fee)%Z then (None, w)
  else
    let '(tx, w1) := Transaction.init (public_key_str st) receiver amount fee None None None w in
    let '(tx', w2) := sign_transaction tx w1 in
    (Some tx', w2).

Definition add_transaction (st : t) (tx : Transaction.t) : bool * t :=
  if in_chain (Transaction.tx_id tx) (Blockchain.get_chain_copy (blockchain st))
  then (false, st)
  else if negb (verify_transaction (blockchain st) (mempool st) tx) then (false, st)
  else if negb (mem tx (mempool st))
  then (true, with_mempool st (mempool st ++ [tx]))
  else (false, st).

(** [add_transaction] in the two parts its lock makes of it: the scan of
    the chain and the verification, which run before the lock is taken, and
    the test and the append under the lock. *)
Definition add_transaction_unlocked (st : t) (tx : Transaction.t) : bool :=
  negb (in_chain (Transaction.tx_id tx) (Blockchain.get_chain_copy (blockchain st)))
  && verify_transaction (blockchain st) (mempool st) tx.

Definition add_transaction_locked (st : t) (tx : Transaction.t) : bool * t :=
  if negb (mem tx (mempool st))
  then (true, with_mempool st (mempool st ++ [tx]))
  else (false, st).

(** The mempool after the removal loop of [receive_block]. *)
Definition remove_included (items : list Block.item) (mp : list Transaction.t)
  : list Transaction.t :=
  fold_left
    (fun mp i =>
       match i with
       | Block.Tx tx => if mem tx mp then remove tx mp else mp
       | Block.Raw _ => mp
       end)
    items mp.

(** The re-injection loop of [handle_chain_response], over the orphan ids
    in the order the set yields them. *)
Definition reinject (chain : list Block.t) (old_tx_map : list (string * Transaction.t))
    (ids : list string) (mp : list Transaction.t) : list Transaction.t :=
  fold_left
    (fun mp id =>
       match dict_get id old_tx_map with
       | Some tx =>
           if negb (verify_transaction chain mp tx) then mp
           else if negb (mem tx mp) then mp ++ [tx]
           else mp
       | None => mp
       end)
    ids mp.

(** [handle_chain_response] once the received chain is decoded. *)
Definition adopt_chain (st : t) (new_chain : list Block.t) : t :=
  let old_chain := Blockchain.get_chain_copy (blockchain st) in
  let old_tx_map := build_tx_map old_chain in
  let new_tx_ids := build_tx_ids new_chain in
  let '(replaced, chain') := Blockchain.replace_chain (blockchain st) new_chain in
  if replaced then
    let mp1 :=
      filter (fun tx => negb (id_in (Transaction.tx_id tx) new_tx_ids)) (mempool st) in
    let orphan_only_ids :=
      set_iter (filter (fun id => negb (id_in id new_tx_ids)) (map fst old_tx_map)) in
    Make (name st) (is_miner st) (public_key_str st) chain'
         (reinject chain' old_tx_map orphan_only_ids mp1)
  else st.

(** [handle_chain_response]: an exception while decoding is caught and
    leaves the node as it was. *)
Definition handle_chain_response (st : t) (chain_data : json) (w : world) : t * world :=
  match decode_chain chain_data w with
  | (Ok new_chain, w') => (adopt_chain st new_chain, w')
  | (Raise _, w') => (st, w')
  end.

(** [request_chain_from_peers]: [resps] are the chains the peers that
    answered sent back, in peer order. *)
Definition request_chain_from_peers (st : t) (resps : list json) (w : world) : t * world :=
  fold_left (fun sw resp => handle_chain_response (fst sw) resp (snd sw)) resps (st, w).

(** [receive_block].  The chain is never empty in a running node; on an
    empty one [add_block] raises and the handler drops the message. *)
Definition receive_block (st : t) (block : Block.t) (resps : list json) (w : world)
  : result (bool * t * world) :=
  (r <- Blockchain.add_block (blockchain st) block (JStr (Block.hash block)) ;;
   let '(appended, chain') := r in
   if appended then
     Ok (true,
         Make (name st) (is_miner st) (public_key_str st) chain'
              (remove_included (Block.transactions block) (mempool st)),
         w)
   else
     let '(st', w') := request_chain_from_peers st resps w in
     Ok (false, st', w'))%py.

(** [mine]: [None] when the proof of work has not ended within [fuel]
    iterations. *)
Definition mine (fuel : nat) (st : t) (w : world) : option (result (t * world)) :=
  if negb (is_miner st) then Some (Ok (st, w))
  else
    match mempool st with
    | [] => Some (Ok (st, w))
    | _ :: _ =>
        let txs_to_mine := pick_transactions st (Blockchain.BLOCK_SIZE_LIMIT - 1) in
        match txs_to_mine with
        | [] => Some (Ok (st, w))
        | _ :: _ =>
            let total_fees :=
              fold_left (fun acc tx => (acc + Transaction.fee tx)%Z) txs_to_mine 0%Z in
            let '(reward_tx, w1) :=
              Transaction.create_reward_transaction
                (public_key_str st) Blockchain.MINING_REWARD total_fees w in
            let all_txs := map Block.Tx (reward_tx :: txs_to_mine) in
            match Blockchain.last_block (blockchain st) with
            | Raise e => Some (Raise e)
            | Ok last =>
                let '(new_block, w2) :=
                  Block.init (Block.index last + 1) all_txs (Block.hash last) None 0 None w1 in
                match Blockchain.proof_of_work fuel new_block with
                | None => None
                | Some (block_hash, mined) =>
                    let sealed := Block.with_hash mined block_hash in
                    match Blockchain.add_block (blockchain st) sealed (JStr block_hash) with
                    | Raise e => Some (Raise e)
                    | Ok (true, chain') =>
                        Some (Ok (Make (name st) (is_miner st) (public_key_str st) chain'
                                       (fold_left
                                          (fun mp tx => if mem tx mp then remove tx mp else mp)
                                          txs_to_mine (mempool st)),
                                  w2))
                    | Ok (false, _) => Some (Ok (st, w2))
                    end
                end
            end
        end
    end.

(** [handle_connection] on a decoded message; whatever is raised inside is
    caught and the node stays as it is. *)
Definition handle_connection (st : t) (msg : json) (resps : list json) (w : world)
  : t * world :=
  match msg with
  | JObj fields =>
      match get "type" fields with
      | Some (JStr ty) =>
          if ty =? "transaction" then
            match getitem "data" fields with
            | Ok data =>
                match Transaction.from_dict data w with
                | (Ok tx, w') => (snd (add_transaction st tx), w')
                | (Raise _, w') => (st, w')
                end
            | Raise _ => (st, w)
            end
          else if ty =? "block" then
            match getitem "data" fields with
            | Ok data =>
                match Block.from_dict data w with
                | (Ok block, w') =>
                    match receive_block st block resps w' with
                    | Ok (_, st', w'') => (st', w'')
                    | Raise _ => (st, w')
                    end
                | (Raise _, w') => (st, w')
                end
            | Raise _ => (st, w)
            end
          else if ty =? "create_transaction" then
            match
              (receiver <- bind (getitem "receiver_pubkey" fields) Transaction.as_str ;;
               amount <- bind (getitem "amount" fields) Transaction.as_int ;;
               fee <- Transaction.as_int_default (get "fee" fields) 0 ;;
               Ok (receiver, amount, fee))%py
            with
            | Ok (receiver, amount, fee) =>
                match create_and_sign_transaction st receiver amount fee w with
                | (Some tx, w') => (snd (add_transaction st tx), w')
                | (None, w') => (st, w')
                end
            | Raise _ => (st, w)
            end
          else (st, w)
      | _ => (st, w)
      end
  | _ => (st, w)
  end.

(** What can happen to a running node: an inbound connection (with the
    chains its handler pulls from the peers, should it pull), a round of the
    periodic sync, one turn of the miner loop. *)
Inductive event : Type :=
| Connection (msg : json) (resps : list json)
| Sync (resps : list json)
| MineOnce (fuel : nat).

Definition run (st : t) (ev : event) (w : world) : option (t * world) :=
  match ev with
  | Connection msg resps => Some (handle_connection st msg resps w)
  | Sync resps => Some (request_chain_from_peers st resps w)
  | MineOnce fuel =>
      match mine fuel st w with
      | Some (Ok sw) => Some sw
      | Some (Raise _) => None
      | None => None
      end
  end.

(** The states a node reaches: it is constructed on a chain file that
    satisfies [files], which [__init__] loads, and then meets events that
    satisfy [allowed], whatever the world hands out at each of them. *)
Inductive reachable_by (files : chain_file -> bool)
    (allowed : t -> event -> world -> bool) : t -> Prop :=
| reach_init : forall name is_miner pk file w st file' w',
    files file = true ->
    init name is_miner pk file w = (st, file', w') ->
    reachable_by files allowed st
| reach_run : forall st ev w st' w',
    reachable_by files allowed st ->
    allowed st ev w = true ->
    run st ev w = Some (st', w') ->
    reachable_by files allowed st'.

(** The states a node constructed without a chain file reaches, whatever
    it is sent. *)
Definition reachable : t -> Prop := reachable_by no_chain_file (fun _ _ _ => true).


End WithCrypto.

(** The messages a node sends.  On the wire a message is the text
    [json.dumps] writes for it, which the other end reads back with
    [json.loads]; it is held here as the value both ends see. *)

(** The message [gossip_transaction] hands to [broadcast_to_peers]. *)
Definition gossip_transaction (tx : Transaction.t) : json :=
  JObj [("type", JStr "transaction"); ("data", Transaction.to_dict tx)].

(** The message [gossip_block] hands to [broadcast_to_peers]. *)
Definition gossip_block (block : Block.t) : json :=
  JObj [("type", JStr "block"); ("data", Block.to_dict block)].


(** [Node.get_balance]. *)
Definition get_balance (st : t) : Z :=
  Blockchain.get_balance (blockchain st) (public_key_str st).

(** A peer is a pair of a host and a port, compared as Python compares
    tuples. *)
Definition peer_eqb (a b : string * Z) : bool :=
  (fst a =? fst b) && (snd a =? snd b)%Z.

(** [add_peer], for a node that listens on [port]: the peer list
    afterwards. *)
Definition add_peer (port : Z) (peers : list (string * Z)) (host : string) (peer_port : Z)
  : list (string * Z) :=
  if negb (existsb (peer_eqb (host, peer_port)) peers) && negb (peer_port =? port)%Z
  then peers ++ [(host, peer_port)]
  else peers.

End Node.

(* ================================================================== *)
(** * run_node.py and simulate_transactions.py                          *)
(* ================================================================== *)

Module RunNode.

(** The loop of [main] over [args.peers]: every peer is on [localhost]. *)
Definition add_peers (port : Z) (peer_ports : list Z) : list (string * Z) :=
  fold_left (fun peers peer_port => Node.add_peer port peers "localhost" peer_port)
            peer_ports [].

End RunNode.

Module Simulate.

(** The message of [send_transaction_request] and of
    [simulate_transaction]. *)
Definition send_transaction_request (receiver_pubkey : string) (amount fee : Z) : json :=
  JObj [("type", JStr "create_transaction");
        ("receiver_pubkey", JStr receiver_pubkey);
        ("amount", JNum (PInt amount));
        ("fee", JNum (PInt fee))].

(** The message of [get_node_pubkey]. *)
Definition get_node_pubkey : json := JObj [("type", JStr "get_pubkey")].

End Simulate.

(* ================================================================== *)
(** * Vocabulary of the statements                                      *)
(* ================================================================== *)

(** A chain as [is_valid_chain] wants the blocks after the first: each
    linked to its predecessor, of the required difficulty and hashing to
    its own [hash]. *)
Inductive linked : Block.t -> list Block.t -> Prop :=
| linked_nil : forall prev, linked prev []
| linked_cons : forall prev curr tl,
    Block.prev_hash curr = Block.hash prev ->
    Blockchain.is_valid_block curr (JStr (Block.hash curr)) = Ok true ->
    linked curr tl ->
    linked prev (curr :: tl).

Definition Zsum (l : list Z) : Z := fold_right Z.add 0%Z l.

(** What the transactions [txs] credit to [pubkey] and what they debit
    from it. *)
Definition credited (pubkey : string) (txs : list Transaction.t) : Z :=
  Zsum (map Transaction.amount
            (filter (fun tx => Transaction.receiver_pubkey tx =? pubkey) txs)).

Definition debited (pubkey : string) (txs : list Transaction.t) : Z :=
  Zsum (map (fun tx => (Transaction.amount tx + Transaction.fee tx)%Z)
            (filter (fun tx => Transaction.sender_pubkey tx =? pubkey) txs)).

(** Every transaction of every block, the first block included. *)
Definition all_chain_txs (chain : list Block.t) : list Transaction.t :=
  flat_map (fun block => Node.item_txs (Block.transactions block)) chain.

Definition is_coinbase (tx : Transaction.t) : bool :=
  Transaction.sender_pubkey tx =? Transaction.COINBASE.

(** A transaction is a coinbase or carries a signature ECDSA accepts for
    its sender and its signing payload. *)
Definition verified (ecdsa_verify : string -> string -> string -> bool)
    (tx : Transaction.t) : bool :=
  is_coinbase tx || Node.signature_verifies ecdsa_verify tx.

(** A block is sealed: its [hash] is the hash of its other fields. *)
Definition sealed (b : Block.t) : Prop := Block.hash b = Block.generate_hash b.

(** An entry that [Block.to_dict] followed by [Block.from_dict] gives back:
    a transaction with a true [tx_id] and a true [timestamp] (which every
    object the constructor builds has, the uuid being non-empty and the
    clock past zero), or anything that is not a dict with a [tx_id] key. *)
Definition item_stable (i : Block.item) : bool :=
  match i with
  | Block.Tx tx =>
      str_truthy (Transaction.tx_id tx) && pynum_truthy (Transaction.timestamp tx)
  | Block.Raw (JObj fields) => negb (has_key "tx_id" fields)
  | Block.Raw _ => true
  end.

Fixpoint str_forallb (p : ascii -> bool) (s : string) : bool :=
  match s with
  | EmptyString => true
  | String c tl => p c && str_forallb p tl
  end.

Fixpoint str_existsb (p : ascii -> bool) (s : string) : bool :=
  match s with
  | EmptyString => false
  | String c tl => p c || str_existsb p tl
  end.

(** The characters of the text of a finite float: digits, the point, the
    exponent mark and the signs. *)
Definition float_char (c : ascii) : bool :=
  let n := N_of_ascii c in
  ((48 <=? n) && (n <=? 57) || (n =? 46) || (n =? 101) || (n =? 43) || (n =? 45))%N.

Definition float_mark (c : ascii) : bool :=
  let n := N_of_ascii c in ((n =? 46) || (n =? 101))%N.

(** The text of a finite float: it has a point or an exponent, which the
    text of an integer has not. *)
Definition float_text (r : string) : bool :=
  str_forallb float_char r && str_existsb float_mark r.

(** A clock reading: the text of a float that is not zero. *)
Definition clock_reading (r : string) : bool :=
  float_text r && pynum_truthy (PFloat r).

(** The removal loops of [receive_block] and [mine], over transactions. *)
Definition remove_all (txs mp : list Transaction.t) : list Transaction.t :=
  fold_left (fun mp tx => if Node.mem tx mp then Node.remove tx mp else mp) txs mp.

(** The message is of type [block]. *)
Definition is_block_msg (msg : json) : bool :=
  match msg with
  | JObj fields =>
      match get "type" fields with
      | Some (JStr ty) => ty =? "block"
      | _ => false
      end
  | _ => false
  end.

(** Events that bring in nothing a peer has mined: transactions, local
    requests and the miner's own turns. *)
Definition local_event (st : Node.t) (ev : Node.event) (w : world) : bool :=
  match ev with
  | Node.Connection msg _ => negb (is_block_msg msg)
  | Node.Sync _ => false
  | Node.MineOnce _ => true
  end.

(** Events during which no peer sends a chain back. *)
Definition no_chain_received (st : Node.t) (ev : Node.event) (w : world) : bool :=
  match ev with
  | Node.Connection _ resps | Node.Sync resps =>
      match resps with
      | [] => true
      | _ :: _ => false
      end
  | Node.MineOnce _ => true
  end.

(** [isinstance(v, str)] of a JSON value. *)
Definition is_str (v : json) : bool :=
  match v with
  | JStr _ => true
  | _ => false
  end.

(** Two JSON values are the same value, keys in the same order. *)
Definition pynum_eqb (a b : pynum) : bool :=
  match a, b with
  | PInt x, PInt y => (x =? y)%Z
  | PFloat x, PFloat y => x =? y
  | _, _ => false
  end.

Fixpoint json_eqb (a b : json) {struct a} : bool :=
  match a, b with
  | JNull, JNull => true
  | JBool x, JBool y => Bool.eqb x y
  | JNum x, JNum y => pynum_eqb x y
  | JStr x, JStr y => x =? y
  | JArr xs, JArr ys =>
      (fix arr (xs ys : list json) {struct xs} : bool :=
         match xs, ys with
         | [], [] => true
         | x :: xs', y :: ys' => json_eqb x y && arr xs' ys'
         | _, _ => false
         end) xs ys
  | JObj xs, JObj ys =>
      (fix obj (xs ys : list (string * json)) {struct xs} : bool :=
         match xs, ys with
         | [], [] => true
         | (k, x) :: xs', (k', y) :: ys' => (k =? k') && json_eqb x y && obj xs' ys'
         | _, _ => false
         end) xs ys
  | _, _ => false
  end.

(** Chain data that holds no block, or whose first block is the dictionary
    of the genesis. *)
Definition genesis_first (chain_data : json) : bool :=
  match chain_data with
  | JArr (first :: _) => json_eqb first (Block.to_dict genesis)
  | _ => true
  end.

(** A chain file that holds no chain, or one that starts with the
    genesis. *)
Definition genesis_file (file : Node.chain_file) : bool :=
  match file with
  | Node.Holds chain_data => genesis_first chain_data
  | _ => true
  end.

(** Events during which every chain a peer sends back starts with the
    genesis. *)
Definition genesis_kept (st : Node.t) (ev : Node.event) (w : world) : bool :=
  match ev with
  | Node.Connection _ resps | Node.Sync resps => forallb genesis_first resps
  | Node.MineOnce _ => true
  end.

(** The identifier [mine] gives the reward it creates in world [w]. *)
Definition reward_id (w : world) : string :=
  Transaction.tx_id (fst (Transaction.create_reward_transaction EmptyString 0 0 w)).


(** The chain and the mempool hold verified transactions only. *)
Definition holds_verified (ecdsa_verify : string -> string -> string -> bool)
    (st : Node.t) : Prop :=
  Forall (fun tx => verified ecdsa_verify tx = true) (all_chain_txs (Node.blockchain st))
  /\ Forall (fun tx => verified ecdsa_verify tx = true) (Node.mempool st).

(** The chain has a first block, and it satisfies [P]. *)
Definition head_is (P : Block.t -> Prop) (st : Node.t) : Prop :=
  exists first rest, Node.blockchain st = first :: rest /\ P first.




(** The hash of [b] with its nonce set to [n] has the zeros the difficulty
    asks for. *)
Definition nonce_ok (b : Block.t) (n : nat) : bool :=
  Blockchain.startswith (Block.generate_hash (Block.with_nonce b (Z.of_nat n)))
                        (Blockchain.zeros Blockchain.difficulty).

(** [a] comes no later than [b] when sorted by fee, highest first. *)
Definition fee_ge (a b : Transaction.t) : Prop :=
  (Transaction.fee b <= Transaction.fee a)%Z.

Definition has_fee (f : Z) (tx : Transaction.t) : bool :=
  (Transaction.fee tx =? f)%Z.


(** The identifiers of the transactions of a block. *)
Definition block_tx_ids (b : Block.t) : list string :=
  map Transaction.tx_id (Node.item_txs (Block.transactions b)).

(** Case analysis on the first [match] in sight, and the equations between
    pairs and results that come out of it. *)
Ltac break_match :=
  match goal with
  | |- context [match ?x with _ => _ end] => destruct x eqn:?
  | H : context [match ?x with _ => _ end] |- _ => destruct x eqn:?
  end.

Ltac inv_pair :=
  repeat match goal with
  | H : (_, _) = (_, _) |- _ => inversion H; subst; clear H
  | H : Some _ = Some _ |- _ => inversion H; subst; clear H
  | H : Ok _ = Ok _ |- _ => inversion H; subst; clear H
  | H : Some _ = None |- _ => discriminate H
  | H : None = Some _ |- _ => discriminate H
  | H : Ok _ = Raise _ |- _ => discriminate H
  | H : Raise _ = Ok _ |- _ => discriminate H
  end.

(* ================================================================== *)
(** * Concrete nodes, blocks and messages                               *)
(* ================================================================== *)

(** The blocks below carry nonces found by search; that each hashes to its
    [hash] under the required difficulty is checked where it is used. *)
Module Scenario.

(** ECDSA as it answers for a sender that is not the PEM text of a public
    key: loading the key raises, so nothing verifies.  The senders below
    are plain names. *)
Definition no_pem_key : string -> string -> string -> bool := fun _ _ _ => false.

(** A process in which sets happen to iterate in insertion order. *)
Definition insertion_order : string -> N := fun _ => 0%N.

Definition uuid0 : string := "6f1c2d3e-0000-4000-8000-0000000096f8".

Definition w0 : world :=
  World (fun _ => uuid0) (fun _ => "1700000000.5") (fun _ _ => "00").

Definition node0 : Node.t := Node.fresh "node-0" false "node-0-key".
Definition miner0 : Node.t := Node.fresh "miner-0" true "miner-key".

Definition msg_transaction (tx : Transaction.t) : json :=
  JObj [("type", JStr "transaction"); ("data", Transaction.to_dict tx)].

Definition msg_block (b : Block.t) : json :=
  JObj [("type", JStr "block"); ("data", Block.to_dict b)].

Definition chain_data (chain : list Block.t) : json :=
  JArr (map Block.to_dict chain).

(** A transfer from [alice] that nobody signed, in a mined block. *)
Definition unsigned : Transaction.t :=
  Transaction.Make "tx-unsigned" "alice" "mallory" 50 0 (PFloat "1700000001.5") None.

Definition b1 : Block.t :=
  Block.Make 1 (PFloat "1700000002.5") [Block.Tx unsigned] genesis_hash 59160
    "0000e0b7b71f435a774bc38345130f923a66791942acd0094a5458b65c17c2e3".

(** A block on the genesis with the reward of its miner, and a longer
    fork of two blocks that does not have it. *)
Definition reward_a : Transaction.t :=
  Transaction.Make "reward-a-1" "COINBASE" "miner-a" 10 0 (PFloat "1700000003.5")
    (Some "COINBASE").

Definition o1 : Block.t :=
  Block.Make 1 (PFloat "1700000004.5") [Block.Tx reward_a] genesis_hash 20423
    "0000360cfabcce4e3d7de8370eda65275d1fc67f4d9a3c858f382c708cff11a9".

Definition reward_b1 : Transaction.t :=
  Transaction.Make "reward-b-1" "COINBASE" "miner-b" 10 0 (PFloat "1700000005.5")
    (Some "COINBASE").

Definition n1 : Block.t :=
  Block.Make 1 (PFloat "1700000006.5") [Block.Tx reward_b1] genesis_hash 11932
    "000038aa5ec31d63a1bba6fab7d103441082ddf51228ba88e131d6d3d7006f2c".

Definition reward_b2 : Transaction.t :=
  Transaction.Make "reward-b-2" "COINBASE" "miner-b" 10 0 (PFloat "1700000007.5")
    (Some "COINBASE").

Definition n2 : Block.t :=
  Block.Make 2 (PFloat "1700000008.5") [Block.Tx reward_b2] (Block.hash n1) 281002
    "000068e6a9984e2ea13b42053c6f15d3e1f5d59a69b5a0c2718b432adbfe6da9".

(** A mint nobody mined, and a chain that starts with a block holding it
    in place of the genesis. *)
Definition forged : Transaction.t :=
  Transaction.Make "forged-mint" "COINBASE" "mallory" 1000000 0 (PFloat "1700000009.5")
    (Some "COINBASE").

Definition f0 : Block.t :=
  Block.Make 0 (PInt 0) [Block.Tx forged] "0" 0 "f0".

Definition f1 : Block.t :=
  Block.Make 1 (PFloat "1700000010.5") [] "f0" 55446
    "0000106b6dbaae1f288dd788a60b4b7d281d86b137a0b30cee87ff714d0f192b".

(** The block [miner0] mines in world [w0] with [forged] pending: the
    first nonce does. *)
Definition reward_m : Transaction.t :=
  Transaction.Make uuid0 "COINBASE" "miner-key" 10 0 (PFloat "1700000000.5")
    (Some "COINBASE").

Definition m1 : Block.t :=
  Block.Make 1 (PFloat "1700000000.5") [Block.Tx reward_m; Block.Tx forged] genesis_hash 0
    "0000a3cbf24daff94cf1ddf63becd26e8981e42c75b34821eab28fea807b123f".

(** A transfer stamped at the epoch, in a sealed block. *)
Definition epoch_tx : Transaction.t :=
  Transaction.Make "tx-epoch" "alice" "bob" 5 1 (PInt 0) (Some "00").

Definition epoch_block : Block.t :=
  Block.Make 1 (PFloat "1700000011.5") [Block.Tx epoch_tx] genesis_hash 0
    "36977387101e7b9124c19fb301878ce87647bbd8fed42b87d75d6a7a750bb16a".

(** A sealed block one of whose entries is a plain dict that holds a
    [tx_id] key, and a key no transaction has. *)
Definition memo_entry : json :=
  JObj [("tx_id", JStr "tx-memo");
        ("sender_pubkey", JStr "alice");
        ("receiver_pubkey", JStr "bob");
        ("amount", JNum (PInt 5));
        ("fee", JNum (PInt 1));
        ("timestamp", JNum (PFloat "1700000012.5"));
        ("signature", JStr "00");
        ("memo", JStr "rent")].

Definition memo_block : Block.t :=
  Block.Make 1 (PFloat "1700000013.5") [Block.Raw memo_entry] genesis_hash 0
    "f81ea1a7a55df6abe371e719ea9b087aebcfb45d5085b1579229a44e40f9e30f".

(** States along the runs used below. *)
Definition with_b1 : Node.t :=
  Node.Make "node-0" false "node-0-key" [genesis; b1] [].

Definition with_o1 : Node.t :=
  Node.Make "node-0" false "node-0-key" [genesis; o1] [].

Definition after_fork : Node.t :=
  Node.Make "node-0" false "node-0-key" [genesis; n1; n2] [reward_a].

Definition with_forged : Node.t :=
  Node.Make "node-0" false "node-0-key" [genesis] [forged].

Definition on_forged_chain : Node.t :=
  Node.Make "node-0" false "node-0-key" [f0; f1] [].


Definition miner_pending : Node.t :=
  Node.Make "miner-0" true "miner-key" [genesis] [forged].

Definition miner_mined : Node.t :=
  Node.Make "miner-0" true "miner-key" [genesis; m1] [].

(** A block yet to be mined, for which the third nonce is the first that
    does. *)
Definition candidate : Block.t :=
  Block.Make 1 (PFloat "1700000427.5") [] genesis_hash 0 EmptyString.

(** A verification that accepts the signature [w0] hands out, whatever the
    key and the payload, and the transfer [node0] makes in [w0] when it is
    asked for 30 to [bob] at a fee of 1. *)
Definition accepts_w0 : string -> string -> string -> bool :=
  fun _ sig _ => sig =? "00".



(** The transfer [miner0] makes in [w0] when it is asked for 30 to [bob] at
    a fee of 1, a later world, and the block the miner mines in it: the
    first nonce does. *)
Definition own_transfer : Transaction.t :=
  Transaction.Make uuid0 "miner-key" "bob" 30 1 (PFloat "1700000000.5") (Some "00").

Definition uuid1 : string := "7a2b3c4d-0000-4000-8000-00000001dfea".

Definition w1 : world :=
  World (fun _ => uuid1) (fun _ => "1700000020.5") (fun _ _ => "00").

Definition reward_own : Transaction.t :=
  Transaction.Make uuid1 "COINBASE" "miner-key" 11 0 (PFloat "1700000020.5")
    (Some "COINBASE").

Definition own_block : Block.t :=
  Block.Make 1 (PFloat "1700000020.5") [Block.Tx reward_own; Block.Tx own_transfer]
    genesis_hash 0
    "0000d45d1a330fb373688c9d6830e2958f14c79f506c26589e2cada02424e7c3".

Definition miner_with_transfer : Node.t :=
  Node.Make "miner-0" true "miner-key" [genesis] [own_transfer].

Definition miner_paid : Node.t :=
  Node.Make "miner-0" true "miner-key" [genesis; own_block] [].

(** A node whose chain is the block [f0] alone. *)
Definition on_f0 : Node.t :=
  Node.Make "node-0" false "node-0-key" [f0] [].

(** The node that has pooled [forged], once it is sent the block [m1]. *)
Definition forged_mined : Node.t :=
  Node.Make "node-0" false "node-0-key" [genesis; m1] [].


(** The dictionary of [b1] without its hash, and a transaction dictionary
    of the four keys that must be there. *)
Definition b1_without_hash : list (string * json) :=
  [("index", JNum (PInt 1));
   ("timestamp", JNum (PFloat "1700000002.5"));
   ("transactions", JArr [Transaction.to_dict unsigned]);
   ("prev_hash", JStr genesis_hash);
   ("nonce", JNum (PInt 59160))].

Definition bare_transfer : list (string * json) :=
  [("tx_id", JStr "tx-bare");
   ("sender_pubkey", JStr "alice");
   ("receiver_pubkey", JStr "bob");
   ("amount", JNum (PInt 5))].

End Scenario.

(* ================================================================== *)
(** * Properties of the chain engine                                    *)
(* ================================================================== *)

(** The hash and the serializer are computed on closed terms only. *)
Opaque Sha256.hexdigest.
Arguments Sha256.hexdigest : simpl never.
Arguments Block.generate_hash : simpl never.
Arguments Json.dumps : simpl never.
Arguments Blockchain.startswith : simpl never.
Arguments Blockchain.zeros : simpl never.

Section ChainEngine.

Local Open Scope nat_scope.

Lemma with_hash_same (b : Block.t) : Block.with_hash b (Block.hash b) = b.
Proof. destruct b; reflexivity. Qed.

Lemma last_block_snoc (pre : list Block.t) (tip : Block.t) :
  Blockchain.last_block (pre ++ [tip]) = Ok tip.
Proof.
  unfold Blockchain.last_block. rewrite rev_unit. reflexivity.
Qed.

Lemma last_block_nonempty (chain : list Block.t) :
  chain <> [] -> exists tip, Blockchain.last_block chain = Ok tip.
Proof.
  intros Hne. destruct (exists_last Hne) as [pre [tip ->]].
  exists tip. apply last_block_snoc.
Qed.

(** [is_valid_block] and [add_block] on a hash that is a string: neither
    raises there. *)
Lemma is_valid_block_str (b : Block.t) (h : string) :
  Blockchain.is_valid_block b (JStr h)
  = Ok (Blockchain.startswith h (Blockchain.zeros Blockchain.difficulty)
        && (Block.generate_hash b =? h)%string).
Proof.
  unfold Blockchain.is_valid_block.
  destruct (Blockchain.startswith h _); reflexivity.
Qed.

Lemma add_block_str (chain : list Block.t) (b : Block.t) (h : string) :
  Blockchain.add_block chain b (JStr h)
  = (tip <- Blockchain.last_block chain ;;
     if negb (Block.hash tip =? Block.prev_hash b)%string then Ok (false, chain)
     else if Blockchain.startswith h (Blockchain.zeros Blockchain.difficulty)
             && (Block.generate_hash b =? h)%string
          then Ok (true, chain ++ [Block.with_hash b h])
          else Ok (false, chain))%py.
Proof.
  unfold Blockchain.add_block. rewrite is_valid_block_str.
  destruct (Blockchain.last_block chain) as [tip |]; [| reflexivity]. cbn [bind].
  destruct (negb (Block.hash tip =? Block.prev_hash b)%string); [reflexivity |].
  destruct (Blockchain.startswith h _ && _); reflexivity.
Qed.

(** [is_valid_block] says what its two tests say. *)
Lemma is_valid_block_true (b : Block.t) (h : string) :
  Blockchain.is_valid_block b (JStr h) = Ok true <->
  Blockchain.startswith h (Blockchain.zeros Blockchain.difficulty) = true
  /\ Block.generate_hash b = h.
Proof.
  rewrite is_valid_block_str.
  destruct (Blockchain.startswith h _); simpl.
  - destruct (Block.generate_hash b =? h)%string eqn:E.
    + apply String.eqb_eq in E. tauto.
    + apply String.eqb_neq in E. split; [discriminate | tauto].
  - split; [discriminate | intros [H _]; discriminate].
Qed.

Lemma check_links_linked (rest : list Block.t) :
  forall prev, Blockchain.check_links prev rest = true <-> linked prev rest.
Proof.
  induction rest as [| curr tl IH]; intros prev; simpl.
  - split; [constructor | reflexivity].
  - destruct (Block.prev_hash curr =? Block.hash prev)%string eqn:E1; simpl.
    + apply String.eqb_eq in E1.
      destruct (Blockchain.startswith (Block.hash curr) _) eqn:E2; simpl.
      * destruct (Block.generate_hash curr =? Block.hash curr)%string eqn:E3; simpl.
        -- rewrite IH. split.
           ++ intros Hl. constructor; auto.
              apply is_valid_block_true. split; [exact E2 | now apply String.eqb_eq].
           ++ intros Hl. inversion Hl; assumption.
        -- split; [discriminate |].
           intros Hl. inversion Hl as [| ? ? ? _ Hv _]; subst.
           apply is_valid_block_true in Hv. destruct Hv as [_ Hv].
           apply String.eqb_eq in Hv. congruence.
      * split; [discriminate |].
        intros Hl. inversion Hl as [| ? ? ? _ Hv _]; subst.
        apply is_valid_block_true in Hv. destruct Hv as [Hv _]. congruence.
    + split; [discriminate |].
      intros Hl. inversion Hl as [| ? ? ? Hp _ _]; subst.
      apply String.eqb_neq in E1. contradiction.
Qed.

Lemma is_valid_chain_spec (chain : list Block.t) :
  Blockchain.is_valid_chain chain = true <->
  exists first rest,
    chain = first :: rest /\ Block.prev_hash first = "0"%string /\ linked first rest.
Proof.
  destruct chain as [| first rest]; simpl.
  - split; [discriminate | intros (f & r & H & _); discriminate].
  - destruct (Block.prev_hash first =? "0")%string eqn:E; simpl.
    + apply String.eqb_eq in E. rewrite check_links_linked. split.
      * intros Hl. exists first, rest. auto.
      * intros (f & r & Heq & _ & Hl). inversion Heq; subst. exact Hl.
    + apply String.eqb_neq in E. split; [discriminate |].
      intros (f & r & Heq & H0 & _). inversion Heq; subst. contradiction.
Qed.

(** The chain of a new [Blockchain] is the genesis alone, and making it
    reads nothing from the world. *)
Lemma blockchain_init_genesis (w : world) : Blockchain.init w = ([genesis], w).
Proof. vm_compute. reflexivity. Qed.

Lemma pynum_eqb_eq (a b : pynum) : pynum_eqb a b = true -> a = b.
Proof.
  destruct a, b; simpl; try discriminate; intros H.
  - apply Z.eqb_eq in H. now subst.
  - apply String.eqb_eq in H. now subst.
Qed.

Lemma json_eqb_eq : forall a b, json_eqb a b = true -> a = b.
Proof.
  fix IH 1. intros a b.
  destruct a as [| x | x | x | xs | xs], b as [| y | y | y | ys | ys];
    simpl; try discriminate; intros H.
  - reflexivity.
  - apply Bool.eqb_prop in H. now subst.
  - apply pynum_eqb_eq in H. now subst.
  - apply String.eqb_eq in H. now subst.
  - f_equal. revert ys H.
    induction xs as [| x xs' IHxs]; intros [| y ys'] H; try discriminate; [reflexivity |].
    apply andb_true_iff in H. destruct H as [H1 H2].
    f_equal; [exact (IH x y H1) | exact (IHxs ys' H2)].
  - f_equal. revert ys H.
    induction xs as [| [k x] xs' IHxs]; intros [| [k' y] ys'] H; try discriminate;
      [reflexivity |].
    apply andb_true_iff in H. destruct H as [H12 H3].
    apply andb_true_iff in H12. destruct H12 as [H1 H2].
    apply String.eqb_eq in H1. subst k'.
    f_equal; [f_equal; exact (IH x y H2) | exact (IHxs ys' H3)].
Qed.

(** The dictionary of the genesis is decoded to the genesis, in every
    world, and chain data that starts with it to a chain that does. *)
Lemma genesis_from_dict (w : world) :
  Block.from_dict (Block.to_dict genesis) w = (Ok genesis, w).
Proof. reflexivity. Qed.

Lemma decode_chain_genesis_first (chain_data : json) (w w' : world) (c : list Block.t) :
  genesis_first chain_data = true ->
  Node.decode_chain chain_data w = (Ok c, w') ->
  c = [] \/ exists rest, c = genesis :: rest.
Proof.
  unfold Node.decode_chain. destruct chain_data as [| | | | l |]; try discriminate.
  destruct l as [| first tl]; simpl.
  - intros _ H. inversion H. now left.
  - intros Heq H. apply json_eqb_eq in Heq. subst first.
    rewrite genesis_from_dict in H.
    destruct (Node.blocks_from_dict tl w) as [[rest |] w1]; inversion H.
    right. now exists rest.
Qed.

(** A node constructed where there is no chain file writes one and comes
    up on the genesis alone. *)
Lemma init_no_file (name pk : string) (is_miner : bool) (w : world) :
  Node.init name is_miner pk Node.NoFile w
  = (Node.fresh name is_miner pk, Node.save_blockchain (Node.fresh name is_miner pk), w).
Proof. vm_compute. reflexivity. Qed.

(** What [__init__] leaves: nothing pending, and a chain that is the
    genesis alone or one [is_valid_chain] accepted from the file. *)
Lemma init_shape (name pk : string) (is_miner : bool) (file file' : Node.chain_file)
    (w w' : world) (st : Node.t) :
  Node.init name is_miner pk file w = (st, file', w') ->
  exists chain,
    st = Node.Make name is_miner pk chain []
    /\ Blockchain.is_valid_chain chain = true
    /\ (Node.no_chain_file file = true -> chain = [genesis])
    /\ (genesis_file file = true -> exists rest, chain = genesis :: rest).
Proof.
  destruct file as [| | j].
  - rewrite init_no_file. intros H. inversion H; subst.
    exists [genesis]. repeat split. intros _. now exists [].
  - unfold Node.init. rewrite blockchain_init_genesis. simpl. intros H. inversion H; subst.
    exists [genesis]. repeat split; try discriminate. intros _. now exists [].
  - unfold Node.init. rewrite blockchain_init_genesis.
    cbn [Node.ensure_blockchain_file Node.load_blockchain].
    destruct (Node.decode_chain j w) as [[c | e] w1] eqn:Hdec.
    + destruct (Blockchain.is_valid_chain c) eqn:Hv; intros H; inversion H; subst.
      * exists c. split; [reflexivity |]. split; [exact Hv |]. split; [discriminate |].
        intros Hg. simpl in Hg.
        destruct (decode_chain_genesis_first _ _ _ _ Hg Hdec) as [-> | Hrest];
          [discriminate | exact Hrest].
      * exists [genesis]. split; [reflexivity |]. split; [reflexivity |].
        split; [discriminate |]. intros _. now exists [].
    + intros H. inversion H; subst.
      exists [genesis]. split; [reflexivity |]. split; [reflexivity |].
      split; [discriminate |]. intros _. now exists [].
Qed.

(** The serializer and the hash on known values: the FIPS 180-4 vectors,
    the first and the last round constant, and the genesis, whose hash is
    the one every node computes. *)
Lemma known_values :
  Sha256.hexdigest "abc"
  = "ba7816bf8f01cfea414140de5dae2223b00361a396177a9cb410ff61f20015ad"%string
  /\ Sha256.hexdigest "abcdbcdecdefdefgefghfghighijhijkijkljklmklmnlmnomnopnopq"
     = "248d6a61d20638b8e5c026930c3e6039a33ce45964ff2167f6ecedd419db06c1"%string
  /\ hd_error Sha256.K = Some 0x428a2f98%N
  /\ nth_error Sha256.K 63 = Some 0xc67178f2%N
  /\ Json.dumps (JArr [JNum (PInt (-12)); JNull; JBool true; JObj [("b", JStr "x"); ("a", JArr [])]])
     = ("[-12, null, true, {" ++ Json.quote "a" ++ ": [], " ++ Json.quote "b" ++ ": "
        ++ Json.quote "x" ++ "}]")%string
  /\ genesis_hash
     = "77e5d351020ae399a4c6e6d92b333e1793cceb125953031a57c7f3108da6c873"%string.
Proof. vm_compute. repeat split. Qed.

(** C1.  [replace_chain c] returns true exactly when [c] is strictly longer
    than the local chain and [is_valid_chain c] holds; the local chain is
    then [c].  In every other case, a tie in length among them, it returns
    false and the local chain is the one it was. *)
Theorem replace_chain_longest_valid (chain c : list Block.t) :
  let r := Blockchain.replace_chain chain c in
  (fst r = true <->
     List.length chain < List.length c /\ Blockchain.is_valid_chain c = true)
  /\ (fst r = true -> snd r = c)
  /\ (fst r = false -> snd r = chain)
  /\ (List.length c = List.length chain -> r = (false, chain)).
Proof.
  unfold Blockchain.replace_chain. cbv zeta.
  destruct (List.length chain <? List.length c) eqn:Hlen.
  - apply Nat.ltb_lt in Hlen.
    destruct (Blockchain.is_valid_chain c) eqn:Hv; simpl.
    + repeat split; auto; try discriminate. intros Heq. lia.
    + repeat split; auto; try discriminate.
      intros [_ Habs]. discriminate.
  - apply Nat.ltb_ge in Hlen. simpl.
    repeat split; auto; try discriminate.
    intros [Hlt _]. lia.
Qed.

(** C2, as the code has it.  On a chain with tip [tip], [add_block] with
    a hash that is a [str] (the hash of every block a constructor has
    sealed, and of [b] itself as both callers hand it over) returns without
    raising; it returns true exactly when [b.prev_hash] is the tip's hash,
    the hash starts with [difficulty] zeros and is the hash computed from
    the other fields of [b]; the chain is then the old one followed by [b]
    with that hash, and otherwise the old one.  With a hash that is no
    [str] it returns false, the chain unchanged, when [b.prev_hash] is not
    the tip's hash, and raises [AttributeError] when it is. *)
Theorem add_block_accepts_iff (pre : list Block.t) (tip b : Block.t) :
  (forall h : string,
      exists ok chain',
        Blockchain.add_block (pre ++ [tip]) b (JStr h) = Ok (ok, chain')
        /\ (ok = true <->
              Block.prev_hash b = Block.hash tip
              /\ Blockchain.startswith h (Blockchain.zeros Blockchain.difficulty) = true
              /\ h = Block.generate_hash b)
        /\ (ok = true -> chain' = (pre ++ [tip]) ++ [Block.with_hash b h])
        /\ (ok = false -> chain' = pre ++ [tip]))
  /\ (forall block_hash : json,
        is_str block_hash = false ->
        Blockchain.add_block (pre ++ [tip]) b block_hash
        = if (Block.hash tip =? Block.prev_hash b)%string then Raise AttributeError
          else Ok (false, pre ++ [tip])).
Proof.
  split.
  - intros h. rewrite add_block_str, last_block_snoc. cbn [bind].
    destruct (Block.hash tip =? Block.prev_hash b)%string eqn:Hlink; cbn [negb].
    + apply String.eqb_eq in Hlink.
      destruct (Blockchain.startswith h _) eqn:Hz; cbn [andb].
      * destruct (Block.generate_hash b =? h)%string eqn:Hh.
        -- apply String.eqb_eq in Hh.
           exists true, ((pre ++ [tip]) ++ [Block.with_hash b h]).
           split; [reflexivity |]. split; [| split; [reflexivity | discriminate]].
           split; [intros _; auto | reflexivity].
        -- apply String.eqb_neq in Hh.
           exists false, (pre ++ [tip]).
           split; [reflexivity |]. split; [| split; [discriminate | reflexivity]].
           split; [discriminate | intros (_ & _ & E); congruence].
      * exists false, (pre ++ [tip]).
        split; [reflexivity |]. split; [| split; [discriminate | reflexivity]].
        split; [discriminate | intros (_ & E & _); discriminate].
    + apply String.eqb_neq in Hlink.
      exists false, (pre ++ [tip]).
      split; [reflexivity |]. split; [| split; [discriminate | reflexivity]].
      split; [discriminate | intros (E & _); congruence].
  - intros block_hash Hno. unfold Blockchain.add_block. rewrite last_block_snoc. cbn [bind].
    destruct (Block.hash tip =? Block.prev_hash b)%string; cbn [negb]; [| reflexivity].
    destruct block_hash; try reflexivity. discriminate.
Qed.

(** Only an empty chain makes [add_block] raise on a hash that is a
    string. *)
Lemma add_block_raises_only_on_empty (chain : list Block.t) (b : Block.t) (h : string) :
  chain <> [] -> exists r, Blockchain.add_block chain b (JStr h) = Ok r.
Proof.
  intros Hne. destruct (last_block_nonempty chain Hne) as [tip Htip].
  rewrite add_block_str, Htip. cbn [bind].
  destruct (negb _); [eauto |]. destruct (_ && _); eauto.
Qed.

End ChainEngine.

(* ================================================================== *)
(** * Balances                                                          *)
(* ================================================================== *)

Section Balance.

Local Open Scope Z_scope.

Variable pubkey : string.

Lemma credited_app (l1 l2 : list Transaction.t) :
  credited pubkey (l1 ++ l2) = credited pubkey l1 + credited pubkey l2.
Proof.
  unfold credited. rewrite filter_app, map_app.
  induction (map Transaction.amount (filter _ l1)) as [| x xs IH]; simpl in *; lia.
Qed.

Lemma debited_app (l1 l2 : list Transaction.t) :
  debited pubkey (l1 ++ l2) = debited pubkey l1 + debited pubkey l2.
Proof.
  unfold debited. rewrite filter_app, map_app.
  induction (map _ (filter _ l1)) as [| x xs IH]; simpl in *; lia.
Qed.

(** The inner loop of [get_balance] over one block. *)
Lemma apply_items_sum (items : list Block.item) :
  forall balance,
    fold_left (Blockchain.apply_item pubkey) items balance =
    balance + credited pubkey (Node.item_txs items) - debited pubkey (Node.item_txs items).
Proof.
  induction items as [| i tl IH]; intros balance; simpl.
  - unfold credited, debited; simpl. lia.
  - rewrite IH. destruct i as [tx | j]; simpl.
    + change (tx :: Node.item_txs tl) with ([tx] ++ Node.item_txs tl).
      rewrite credited_app, debited_app.
      unfold credited, debited; simpl.
      destruct (Transaction.sender_pubkey tx =? pubkey)%string;
        destruct (Transaction.receiver_pubkey tx =? pubkey)%string; simpl; lia.
    + lia.
Qed.

(** The outer loop, over the blocks. *)
Lemma apply_blocks_sum (blocks : list Block.t) :
  forall balance,
    fold_left
      (fun bal block => fold_left (Blockchain.apply_item pubkey) (Block.transactions block) bal)
      blocks balance =
    balance + credited pubkey (all_chain_txs blocks) - debited pubkey (all_chain_txs blocks).
Proof.
  induction blocks as [| b tl IH]; intros balance; simpl.
  - unfold credited, debited; simpl. lia.
  - rewrite IH, apply_items_sum.
    unfold all_chain_txs; simpl. fold (all_chain_txs tl).
    rewrite credited_app, debited_app. lia.
Qed.

End Balance.

(** C8, as the code has it.  For every public key, the literal [COINBASE]
    like any other, [get_balance] is 100 plus the amounts of the
    transactions of the blocks after the first that name the key as
    receiver, minus amount plus fee of those that name it as sender. *)
Theorem get_balance_is_ledger_sum (chain : list Block.t) (pubkey : string) :
  Blockchain.get_balance chain pubkey =
  (100 + credited pubkey (Node.chain_txs chain) - debited pubkey (Node.chain_txs chain))%Z.
Proof.
  unfold Blockchain.get_balance, Node.chain_txs.
  rewrite apply_blocks_sum. reflexivity.
Qed.

(* ================================================================== *)
(** * The node: membership, sorting and the shape of a step             *)
(* ================================================================== *)

Section Membership.






Lemma item_txs_map_Tx (txs : list Transaction.t) :
  Node.item_txs (map Block.Tx txs) = txs.
Proof.
  induction txs as [| tx tl IH]; simpl; [reflexivity | now rewrite IH].
Qed.

Lemma item_txs_In (tx : Transaction.t) (items : list Block.item) :
  In tx (Node.item_txs items) <-> In (Block.Tx tx) items.
Proof.
  unfold Node.item_txs. rewrite in_flat_map. split.
  - intros (i & Hi & Htx). destruct i as [tx' | j]; simpl in Htx; [| contradiction].
    destruct Htx as [-> | []]. exact Hi.
  - intros H. exists (Block.Tx tx). simpl. auto.
Qed.

Lemma all_chain_txs_snoc (chain : list Block.t) (b : Block.t) :
  all_chain_txs (chain ++ [b]) = all_chain_txs chain ++ Node.item_txs (Block.transactions b).
Proof.
  unfold all_chain_txs. rewrite flat_map_app. simpl. now rewrite app_nil_r.
Qed.



Lemma firstn_In_incl {A : Type} (n : nat) (l : list A) (x : A) :
  In x (firstn n l) -> In x l.
Proof.
  revert l. induction n as [| n IH]; intros [| y l]; simpl; try tauto.
  intros [-> | H]; auto.
Qed.

Lemma insert_by_fee_In (x tx : Transaction.t) (l : list Transaction.t) :
  In x (Node.insert_by_fee tx l) <-> x = tx \/ In x l.
Proof.
  induction l as [| y tl IH]; simpl.
  - intuition congruence.
  - destruct (Transaction.fee y <=? Transaction.fee tx)%Z; simpl.
    + intuition congruence.
    + rewrite IH. intuition congruence.
Qed.

Lemma sorted_by_fee_In (x : Transaction.t) (l : list Transaction.t) :
  In x (fold_right Node.insert_by_fee [] l) <-> In x l.
Proof.
  induction l as [| y tl IH]; simpl; [tauto |].
  rewrite insert_by_fee_In, IH. intuition congruence.
Qed.

Lemma pick_transactions_incl (st : Node.t) (limit : nat) (tx : Transaction.t) :
  In tx (Node.pick_transactions st limit) -> In tx (Node.mempool st).
Proof.
  unfold Node.pick_transactions. intros H.
  apply firstn_In_incl in H. apply sorted_by_fee_In. exact H.
Qed.

Lemma remove_incl (tx x : Transaction.t) (mp : list Transaction.t) :
  In x (Node.remove tx mp) -> In x mp.
Proof.
  induction mp as [| y tl IH]; simpl; [tauto |].
  destruct (Transaction.eqb y tx); simpl; intuition.
Qed.




Lemma remove_included_item_txs (items : list Block.item) :
  forall mp, Node.remove_included items mp = remove_all (Node.item_txs items) mp.
Proof.
  unfold Node.remove_included, remove_all.
  induction items as [| i tl IH]; intros mp; simpl; [reflexivity |].
  destruct i as [tx | j]; simpl; apply IH.
Qed.


Lemma remove_all_incl (txs : list Transaction.t) :
  forall mp x, In x (remove_all txs mp) -> In x mp.
Proof.
  unfold remove_all.
  induction txs as [| tx tl IH]; intros mp x; simpl; [tauto |].
  intros H. apply IH in H.
  destruct (Node.mem tx mp); [now apply remove_incl in H | exact H].
Qed.



End Membership.

Section StepShape.

Variable ecdsa_verify : string -> string -> string -> bool.
Variable set_rank : string -> N.

(** What a successful [add_block] has checked and done. *)
Lemma add_block_true (chain chain' : list Block.t) (b : Block.t) (h : string) :
  Blockchain.add_block chain b (JStr h) = Ok (true, chain') ->
  chain <> []
  /\ chain' = chain ++ [Block.with_hash b h]
  /\ Blockchain.is_valid_block b (JStr h) = Ok true
  /\ exists tip, Blockchain.last_block chain = Ok tip /\ Block.hash tip = Block.prev_hash b.
Proof.
  rewrite add_block_str, is_valid_block_str. intros H.
  destruct (Blockchain.last_block chain) as [tip |] eqn:Htip; cbn [bind] in H;
    [| discriminate].
  destruct (Block.hash tip =? Block.prev_hash b)%string eqn:Hl; cbn [negb] in H;
    [| discriminate].
  destruct (Blockchain.startswith h _ && _) eqn:Hv; [| discriminate].
  inversion H; subst. split; [intros ->; discriminate |].
  split; [reflexivity |]. split; [reflexivity |].
  exists tip. split; [reflexivity | now apply String.eqb_eq].
Qed.

Lemma add_block_false (chain chain' : list Block.t) (b : Block.t) (h : string) :
  Blockchain.add_block chain b (JStr h) = Ok (false, chain') -> chain' = chain.
Proof.
  rewrite add_block_str. intros H.
  destruct (Blockchain.last_block chain) as [tip |]; cbn [bind] in H; [| discriminate].
  destruct (negb _); [now inversion H |].
  destruct (_ && _); [discriminate | now inversion H].
Qed.

(** The proof of work changes the nonce and nothing else. *)
Lemma pow_loop_fields (fuel : nat) :
  forall b h h' b',
    Blockchain.pow_loop fuel b h = Some (h', b') ->
    Block.transactions b' = Block.transactions b
    /\ Block.prev_hash b' = Block.prev_hash b
    /\ Block.index b' = Block.index b
    /\ Block.timestamp b' = Block.timestamp b.
Proof.
  induction fuel as [| f IH]; intros b h h' b' H; simpl in H.
  - destruct (Blockchain.startswith h _); [| discriminate].
    inversion H; subst. auto.
  - destruct (Blockchain.startswith h _).
    + inversion H; subst. auto.
    + apply IH in H. destruct b; simpl in *. exact H.
Qed.

Lemma proof_of_work_fields (fuel : nat) (b b' : Block.t) (h : string) :
  Blockchain.proof_of_work fuel b = Some (h, b') ->
  Block.transactions b' = Block.transactions b
  /\ Block.prev_hash b' = Block.prev_hash b
  /\ Block.index b' = Block.index b
  /\ Block.timestamp b' = Block.timestamp b.
Proof.
  unfold Blockchain.proof_of_work. intros H.
  apply pow_loop_fields in H. destruct b; simpl in *. exact H.
Qed.

(** The hash the proof of work returns is the hash of the block it
    returns, and has the required zeros. *)
Lemma pow_loop_sealed (fuel : nat) :
  forall b h h' b',
    h = Block.generate_hash b ->
    Blockchain.pow_loop fuel b h = Some (h', b') ->
    h' = Block.generate_hash b'
    /\ Blockchain.startswith h' (Blockchain.zeros Blockchain.difficulty) = true.
Proof.
  induction fuel as [| f IH]; intros b h h' b' Hh H; simpl in H.
  - destruct (Blockchain.startswith h _) eqn:E; [| discriminate].
    inversion H; subst. auto.
  - destruct (Blockchain.startswith h _) eqn:E.
    + inversion H; subst. auto.
    + eapply IH; [| exact H]. reflexivity.
Qed.

(** The reward's sender, and its identifier, which does not depend on the
    miner or the amount. *)
Lemma reward_facts (pk : string) (amount fees : Z) (w : world) :
  let tx := fst (Transaction.create_reward_transaction pk amount fees w) in
  Transaction.sender_pubkey tx = Transaction.COINBASE
  /\ Transaction.tx_id tx = reward_id w.
Proof.
  unfold reward_id, Transaction.create_reward_transaction, Transaction.init, uuid4, time_time.
  cbv zeta. destruct (str_truthy (uuid_src w 0)); simpl; auto.
Qed.

(** [add_transaction] is its part before the lock followed by its part
    under the lock. *)
Lemma add_transaction_parts (st : Node.t) (tx : Transaction.t) :
  Node.add_transaction ecdsa_verify st tx
  = if Node.add_transaction_unlocked ecdsa_verify st tx
    then Node.add_transaction_locked st tx
    else (false, st).
Proof.
  unfold Node.add_transaction, Node.add_transaction_unlocked, Node.add_transaction_locked.
  destruct (Node.in_chain _ _); [reflexivity |].
  destruct (Node.verify_transaction ecdsa_verify _ _ tx); reflexivity.
Qed.

(** What [handle_connection] can have done. *)
Lemma handle_connection_cases (st st' : Node.t) (msg : json) (resps : list json)
    (w w' : world) :
  Node.handle_connection ecdsa_verify set_rank st msg resps w = (st', w') ->
  st' = st
  \/ (exists tx, st' = snd (Node.add_transaction ecdsa_verify st tx))
  \/ (is_block_msg msg = true /\
      exists block chain',
        Blockchain.add_block (Node.blockchain st) block (JStr (Block.hash block)) = Ok (true, chain')
        /\ st' = Node.Make (Node.name st) (Node.is_miner st) (Node.public_key_str st) chain'
                   (Node.remove_included (Block.transactions block) (Node.mempool st)))
  \/ (is_block_msg msg = true /\
      exists w1, st' = fst (Node.request_chain_from_peers ecdsa_verify set_rank st resps w1)).
Proof.
  unfold Node.handle_connection, is_block_msg. intros H.
  destruct msg as [| | | | | fields]; try (inversion H; auto; fail).
  destruct (get "type" fields) as [[| | | ty | |] |]; try (inversion H; auto; fail).
  destruct (ty =? "transaction")%string eqn:Et.
  - repeat break_match; inv_pair; eauto.
  - destruct (ty =? "block")%string eqn:Eb.
    + destruct (getitem "data" fields) as [data |]; [| inversion H; auto].
      destruct (Block.from_dict data w) as [[block |] w1]; [| inversion H; auto].
      unfold Node.receive_block in H.
      destruct (Blockchain.add_block (Node.blockchain st) block (JStr (Block.hash block)))
        as [[[|] chain'] |] eqn:Hadd; simpl in H.
      * inversion H; subst. right. right. left. split; [reflexivity |]. eauto.
      * destruct (Node.request_chain_from_peers ecdsa_verify set_rank st resps w1)
          as [st1 w2] eqn:Hreq.
        inversion H; subst. right. right. right. split; [reflexivity |].
        exists w1. now rewrite Hreq.
      * inversion H; auto.
    + destruct (ty =? "create_transaction")%string; [| inversion H; auto].
      repeat break_match; inv_pair; eauto.
Qed.

(** A property that [adopt_chain] keeps is kept by a whole round of chain
    pulls. *)
Lemma request_chain_from_peers_keeps (P : Node.t -> Prop) :
  (forall st c, P st -> P (Node.adopt_chain ecdsa_verify set_rank st c)) ->
  forall resps st w,
    P st -> P (fst (Node.request_chain_from_peers ecdsa_verify set_rank st resps w)).
Proof.
  intros Hadopt. unfold Node.request_chain_from_peers.
  induction resps as [| resp tl IH]; intros st w HP; simpl; [exact HP |].
  destruct (Node.handle_chain_response ecdsa_verify set_rank st resp w) as [st1 w1] eqn:Hh.
  simpl. replace (st1, w1) with (fst (st1, w1), snd (st1, w1)) by reflexivity.
  simpl. specialize (IH st1 w1). apply IH.
  unfold Node.handle_chain_response in Hh.
  destruct (Node.decode_chain resp w) as [[c |] w2]; inversion Hh; subst; auto.
Qed.

Lemma request_chain_from_peers_nil (st : Node.t) (w : world) :
  Node.request_chain_from_peers ecdsa_verify set_rank st [] w = (st, w).
Proof. reflexivity. Qed.

(** What a turn of the miner loop can have done. *)
Lemma mine_cases (fuel : nat) (st st' : Node.t) (w w' : world) :
  Node.mine fuel st w = Some (Ok (st', w')) ->
  st' = st
  \/ exists picked reward block chain',
       (forall tx, In tx picked -> In tx (Node.mempool st))
       /\ Transaction.sender_pubkey reward = Transaction.COINBASE
       /\ Transaction.tx_id reward = reward_id w
       /\ Block.transactions block = map Block.Tx (reward :: picked)
       /\ Blockchain.add_block (Node.blockchain st) block (JStr (Block.hash block)) = Ok (true, chain')
       /\ st' = Node.Make (Node.name st) (Node.is_miner st) (Node.public_key_str st) chain'
                  (remove_all picked (Node.mempool st)).
Proof.
  unfold Node.mine. intros H.
  destruct (negb (Node.is_miner st)); [inv_pair; auto |].
  destruct (Node.mempool st) as [| tx0 mp0] eqn:Hmp; [inv_pair; auto |].
  rewrite <- Hmp in H.
  remember (Node.pick_transactions st (Blockchain.BLOCK_SIZE_LIMIT - 1)) as picked eqn:Hpick.
  destruct picked as [| p0 ps]; [inv_pair; auto |].
  remember (fold_left (fun acc tx => (acc + Transaction.fee tx)%Z) (p0 :: ps) 0%Z) as fees.
  pose proof (reward_facts (Node.public_key_str st) Blockchain.MINING_REWARD fees w) as Hrew.
  destruct (Transaction.create_reward_transaction
              (Node.public_key_str st) Blockchain.MINING_REWARD fees w) as [reward w1].
  cbv zeta in Hrew. simpl in Hrew. destruct Hrew as [Hsender Hid].
  destruct (Blockchain.last_block (Node.blockchain st)) as [last |]; [| discriminate].
  destruct (Block.init (Block.index last + 1) (map Block.Tx (reward :: p0 :: ps))
              (Block.hash last) None 0 None w1) as [new_block w2] eqn:Hinit.
  destruct (Blockchain.proof_of_work fuel new_block) as [[h mined] |] eqn:Hpow;
    [| discriminate].
  destruct (Blockchain.add_block (Node.blockchain st) (Block.with_hash mined h) (JStr h))
    as [[[|] chain'] |] eqn:Hadd; [| inv_pair; auto | discriminate].
  inv_pair. right.
  exists (p0 :: ps), reward, (Block.with_hash mined h), chain'.
  apply proof_of_work_fields in Hpow. destruct Hpow as [Htxs _].
  unfold Block.init, time_time in Hinit. inversion Hinit; subst new_block; clear Hinit.
  simpl in Htxs.
  repeat split; auto.
  - intros tx Hin. rewrite <- Hmp. rewrite Hpick in Hin.
    now apply pick_transactions_incl in Hin.
  - rewrite <- Hmp. reflexivity.
Qed.

End StepShape.

(* ================================================================== *)
(** * Signatures of the transactions a node holds                       *)
(* ================================================================== *)

Section Signatures.

Variable ecdsa_verify : string -> string -> string -> bool.
Variable set_rank : string -> N.

(** What [verify_transaction] has established when it returns true. *)
Lemma verify_transaction_verified (chain : list Block.t) (mp : list Transaction.t)
    (tx : Transaction.t) :
  Node.verify_transaction ecdsa_verify chain mp tx = true ->
  verified ecdsa_verify tx = true.
Proof.
  unfold Node.verify_transaction, verified, is_coinbase.
  destruct (Transaction.sender_pubkey tx =? Transaction.COINBASE)%string; [reflexivity |].
  destruct (negb (Node.signature_truthy tx)); [discriminate |].
  destruct (Node.signature_verifies ecdsa_verify tx); [reflexivity | discriminate].
Qed.

(** [verify_transaction] never turns a coinbase sender down. *)
Lemma verify_transaction_coinbase (chain : list Block.t) (mp : list Transaction.t)
    (tx : Transaction.t) :
  Transaction.sender_pubkey tx = Transaction.COINBASE ->
  Node.verify_transaction ecdsa_verify chain mp tx = true.
Proof.
  unfold Node.verify_transaction. intros ->. reflexivity.
Qed.

Lemma add_transaction_holds_verified (st : Node.t) (tx : Transaction.t) :
  holds_verified ecdsa_verify st -> holds_verified ecdsa_verify (snd (Node.add_transaction ecdsa_verify st tx)).
Proof.
  unfold Node.add_transaction. intros [Hc Hm].
  destruct (Node.in_chain _ _); [split; assumption |].
  destruct (Node.verify_transaction ecdsa_verify _ _ tx) eqn:Hv; simpl;
    [| split; assumption].
  destruct (Node.mem tx (Node.mempool st)); simpl; [split; assumption |].
  split; [exact Hc |]. simpl. apply Forall_app. split; [exact Hm |].
  constructor; [| constructor]. now apply verify_transaction_verified in Hv.
Qed.

Lemma mine_holds_verified (fuel : nat) (st st' : Node.t) (w w' : world) :
  holds_verified ecdsa_verify st ->
  Node.mine fuel st w = Some (Ok (st', w')) ->
  holds_verified ecdsa_verify st'.
Proof.
  intros [Hc Hm] Hmine. apply mine_cases in Hmine.
  destruct Hmine as [-> | (picked & reward & block & chain' & Hpick & Hsender & _ & Htxs & Hadd & ->)];
    [split; assumption |].
  apply add_block_true in Hadd. destruct Hadd as (_ & -> & _).
  rewrite with_hash_same. split; simpl.
  - rewrite all_chain_txs_snoc, Htxs, item_txs_map_Tx.
    apply Forall_app. split; [exact Hc |]. constructor.
    + unfold verified, is_coinbase. rewrite Hsender. reflexivity.
    + rewrite Forall_forall in *. intros tx Hin. apply Hm. now apply Hpick.
  - rewrite Forall_forall in *. intros tx Hin. apply Hm.
    now apply remove_all_incl in Hin.
Qed.

(** C3, as the code has it.  In every state a node that was constructed
    where there is no chain file reaches while nothing a peer has mined
    comes in (transactions from the wire, local requests and its own
    mining), every transaction of every block of its chain, and every
    pending one, is a coinbase or carries a signature that ECDSA accepts:
    the mempool admits nothing else, and the miner takes its block from the
    mempool.  [load_blockchain], like [receive_block] and [replace_chain],
    verifies no signature. *)
Theorem locally_built_chain_is_verified (st : Node.t) :
  Node.reachable_by ecdsa_verify set_rank Node.no_chain_file local_event st ->
  Forall (fun tx => verified ecdsa_verify tx = true) (all_chain_txs (Node.blockchain st))
  /\ Forall (fun tx => verified ecdsa_verify tx = true) (Node.mempool st).
Proof.
  intros Hreach. change (holds_verified ecdsa_verify st).
  induction Hreach as [name miner pk file w st file' w' Hfile Hinit
                      | st ev w st' w' _ IH Hallowed Hrun].
  - destruct (init_shape _ _ _ _ _ _ _ _ Hinit) as (chain & -> & _ & Hgen & _).
    rewrite (Hgen Hfile). split; simpl; constructor.
  - destruct ev as [msg resps | resps | fuel]; simpl in Hallowed, Hrun.
    + inversion Hrun as [Hconn]; clear Hrun.
      apply handle_connection_cases in Hconn.
      destruct Hconn as [-> | [(tx & ->) | [(Hb & _) | (Hb & _)]]].
      * exact IH.
      * now apply add_transaction_holds_verified.
      * rewrite Hb in Hallowed. discriminate.
      * rewrite Hb in Hallowed. discriminate.
    + discriminate.
    + destruct (Node.mine fuel st w) as [[[st1 w1] |] |] eqn:Hmine; try discriminate.
      inversion Hrun; subst. eapply mine_holds_verified; eassumption.
Qed.

End Signatures.

(* ================================================================== *)
(** * The first block of the chain                                      *)
(* ================================================================== *)

Section ChainHead.

Variable ecdsa_verify : string -> string -> string -> bool.
Variable set_rank : string -> N.

(** [adopt_chain] leaves the chain alone or installs the received one,
    which is then valid and strictly longer. *)
Lemma adopt_chain_chain (st : Node.t) (c : list Block.t) :
  Node.adopt_chain ecdsa_verify set_rank st c = st
  \/ (Node.blockchain (Node.adopt_chain ecdsa_verify set_rank st c) = c
      /\ Blockchain.is_valid_chain c = true
      /\ (List.length (Node.blockchain st) < List.length c)%nat).
Proof.
  unfold Node.adopt_chain, Blockchain.replace_chain.
  destruct (List.length (Node.blockchain st) <? List.length c)%nat eqn:Hlen; simpl; auto.
  destruct (Blockchain.is_valid_chain c) eqn:Hv; simpl; auto.
  right. apply Nat.ltb_lt in Hlen. auto.
Qed.

Lemma add_block_keeps_head (P : Block.t -> Prop) (st : Node.t) (b : Block.t)
    (h : string) (chain' : list Block.t) (mp : list Transaction.t) :
  head_is P st ->
  Blockchain.add_block (Node.blockchain st) b (JStr h) = Ok (true, chain') ->
  head_is P (Node.Make (Node.name st) (Node.is_miner st) (Node.public_key_str st) chain' mp).
Proof.
  intros (first & rest & Hc & HP) Hadd.
  apply add_block_true in Hadd. destruct Hadd as (_ & -> & _).
  exists first, (rest ++ [Block.with_hash b h]). simpl. rewrite Hc. auto.
Qed.

Lemma add_transaction_chain (st : Node.t) (tx : Transaction.t) :
  Node.blockchain (snd (Node.add_transaction ecdsa_verify st tx)) = Node.blockchain st.
Proof.
  unfold Node.add_transaction. repeat break_match; reflexivity.
Qed.

Lemma adopt_chain_keeps_zero_head (st : Node.t) (c : list Block.t) :
  head_is (fun b => Block.prev_hash b = "0") st ->
  head_is (fun b => Block.prev_hash b = "0") (Node.adopt_chain ecdsa_verify set_rank st c).
Proof.
  intros Hst. destruct (adopt_chain_chain st c) as [-> | (Hc & Hv & _)]; [exact Hst |].
  apply is_valid_chain_spec in Hv. destruct Hv as (first & rest & -> & H0 & _).
  exists first, rest. auto.
Qed.

(** One step keeps a head of [prev_hash] ["0"]; it keeps the head itself
    when no chain comes back from a peer. *)
Lemma run_keeps_head (st st' : Node.t) (ev : Node.event) (w w' : world) :
  Node.run ecdsa_verify set_rank st ev w = Some (st', w') ->
  (head_is (fun b => Block.prev_hash b = "0") st ->
   head_is (fun b => Block.prev_hash b = "0") st')
  /\ (no_chain_received st ev w = true ->
      forall P, head_is P st -> head_is P st').
Proof.
  intros Hrun. destruct ev as [msg resps | resps | fuel]; simpl in Hrun.
  - inversion Hrun as [Hconn]; clear Hrun.
    apply handle_connection_cases in Hconn.
    destruct Hconn as [-> | [(tx & ->) | [(_ & b & c' & Hadd & ->) | (_ & w1 & ->)]]].
    + auto.
    + split; [| intros _ P]; intros (f & r & Hc & HP); exists f, r;
        rewrite add_transaction_chain; auto.
    + split; [| intros _ P]; intros Hh; eapply add_block_keeps_head; eassumption.
    + split.
      * apply request_chain_from_peers_keeps. apply adopt_chain_keeps_zero_head.
      * simpl. destruct resps; [| discriminate]. intros _ P HP. exact HP.
  - inversion Hrun as [Hreq]; clear Hrun. split.
    + intros Hh.
      pose proof (request_chain_from_peers_keeps ecdsa_verify set_rank _
                    adopt_chain_keeps_zero_head resps st w Hh) as Hk.
      now rewrite Hreq in Hk.
    + simpl. destruct resps; [| discriminate]. intros _ P HP.
      simpl in Hreq. inversion Hreq; subst. exact HP.
  - destruct (Node.mine fuel st w) as [[[st1 w1] |] |] eqn:Hmine; try discriminate.
    inversion Hrun; subst. apply mine_cases in Hmine.
    destruct Hmine as [-> | (picked & reward & block & chain' & _ & _ & _ & _ & Hadd & ->)];
      [auto |].
    split; [| intros _ P]; intros Hh; eapply add_block_keeps_head; eassumption.
Qed.

Lemma adopt_chain_keeps_genesis_head (st : Node.t) (c : list Block.t) :
  c = [] \/ (exists rest, c = genesis :: rest) ->
  head_is (fun b => b = genesis) st ->
  head_is (fun b => b = genesis) (Node.adopt_chain ecdsa_verify set_rank st c).
Proof.
  intros Hc Hst. destruct (adopt_chain_chain st c) as [-> | (Hnew & Hv & _)]; [exact Hst |].
  destruct Hc as [-> | [rest ->]]; [discriminate |].
  exists genesis, rest. auto.
Qed.

(** A round of chain pulls in which every chain that comes back starts with
    the genesis keeps the genesis at the head. *)
Lemma request_chain_from_peers_keeps_genesis (resps : list json) :
  forall st w,
    forallb genesis_first resps = true ->
    head_is (fun b => b = genesis) st ->
    head_is (fun b => b = genesis)
      (fst (Node.request_chain_from_peers ecdsa_verify set_rank st resps w)).
Proof.
  unfold Node.request_chain_from_peers.
  induction resps as [| resp tl IH]; intros st w Hg HP; simpl; [exact HP |].
  simpl in Hg. apply andb_true_iff in Hg. destruct Hg as [Hresp Htl].
  destruct (Node.handle_chain_response ecdsa_verify set_rank st resp w) as [st1 w1] eqn:Hh.
  simpl. replace (st1, w1) with (fst (st1, w1), snd (st1, w1)) by reflexivity.
  simpl. apply (IH st1 w1 Htl).
  unfold Node.handle_chain_response in Hh.
  destruct (Node.decode_chain resp w) as [[c |] w2] eqn:Hdec; inversion Hh; subst; auto.
  apply adopt_chain_keeps_genesis_head; [| exact HP].
  exact (decode_chain_genesis_first _ _ _ _ Hresp Hdec).
Qed.

(** One step keeps the genesis at the head when every chain a peer sends
    back in it starts with the genesis. *)
Lemma run_keeps_genesis (st st' : Node.t) (ev : Node.event) (w w' : world) :
  Node.run ecdsa_verify set_rank st ev w = Some (st', w') ->
  genesis_kept st ev w = true ->
  head_is (fun b => b = genesis) st -> head_is (fun b => b = genesis) st'.
Proof.
  intros Hrun Hg Hh. destruct ev as [msg resps | resps | fuel]; simpl in Hrun, Hg.
  - inversion Hrun as [Hconn]; clear Hrun.
    apply handle_connection_cases in Hconn.
    destruct Hconn as [-> | [(tx & ->) | [(_ & b & c' & Hadd & ->) | (_ & w1 & ->)]]].
    + exact Hh.
    + destruct Hh as (f & r & Hc & HP). exists f, r. rewrite add_transaction_chain. auto.
    + eapply add_block_keeps_head; eassumption.
    + now apply request_chain_from_peers_keeps_genesis.
  - inversion Hrun as [Hreq]; clear Hrun.
    pose proof (request_chain_from_peers_keeps_genesis resps st w Hg Hh) as Hk.
    now rewrite Hreq in Hk.
  - destruct (Node.mine fuel st w) as [[[st1 w1] |] |] eqn:Hmine; try discriminate.
    inversion Hrun; subst. apply mine_cases in Hmine.
    destruct Hmine as [-> | (picked & reward & block & chain' & _ & _ & _ & _ & Hadd & ->)];
      [exact Hh |].
    eapply add_block_keeps_head; eassumption.
Qed.

(** C6, as the code has it.  In every state a node reaches, whatever chain
    file it was constructed on, the chain is not empty and the [prev_hash]
    of its first block is ["0"]: that is all [is_valid_chain] asks of the
    first block of a chain that [load_blockchain] or [replace_chain]
    installs.  The first block is the canonical genesis as long as every
    chain the node takes in starts with it: the chain file it is
    constructed on, if that holds a chain, and every chain a peer sends
    back.  [add_block], from [receive_block] or from mining, keeps the
    first block. *)
Theorem first_block_invariant (files : Node.chain_file -> bool)
    (allowed : Node.t -> Node.event -> world -> bool) (st : Node.t) :
  Node.reachable_by ecdsa_verify set_rank files allowed st ->
  (exists first rest,
      Node.blockchain st = first :: rest /\ Block.prev_hash first = "0")
  /\ ((forall file, files file = true -> genesis_file file = true) ->
      (forall s ev w, allowed s ev w = true -> genesis_kept s ev w = true) ->
      exists rest, Node.blockchain st = genesis :: rest).
Proof.
  intros Hreach.
  induction Hreach as [name miner pk file w st file' w' Hfile Hinit
                      | st ev w st' w' _ [IH0 IHg] Hallowed Hrun].
  - destruct (init_shape _ _ _ _ _ _ _ _ Hinit) as (chain & -> & Hv & _ & Hgen). split.
    + apply is_valid_chain_spec in Hv. destruct Hv as (first & rest & -> & H0 & _).
      exists first, rest. auto.
    + intros Hfiles _. exact (Hgen (Hfiles _ Hfile)).
  - split.
    + destruct (run_keeps_head st st' ev w w' Hrun) as [Hzero _]. apply Hzero. exact IH0.
    + intros Hfiles Hkept. destruct (IHg Hfiles Hkept) as [rest Hc].
      assert (head_is (fun b => b = genesis) st') as (f & r & Hc' & ->).
      { eapply run_keeps_genesis; [exact Hrun | now apply Hkept |].
        exists genesis, rest. auto. }
      exists r. exact Hc'.
Qed.

End ChainHead.

(* ================================================================== *)
(** * The mempool against the chain                                     *)
(* ================================================================== *)

Section SetOrder.

Variable set_rank : string -> N.



End SetOrder.

Section MempoolAgainstChain.

Variable ecdsa_verify : string -> string -> string -> bool.
Variable set_rank : string -> N.











End MempoolAgainstChain.

(* ================================================================== *)
(** * Coinbase transactions outside a mined block                       *)
(* ================================================================== *)

Section CoinbaseOutsideBlocks.

Variable ecdsa_verify : string -> string -> string -> bool.
Variable set_rank : string -> N.

(** C4, as the code has it.  A transaction whose sender is the literal
    [COINBASE], arriving in a wire message of type [transaction], is added
    to the mempool unless its identifier is in the chain or in the mempool
    already: [verify_transaction] accepts a coinbase sender without looking
    at the signature or the balance. *)
Theorem coinbase_gossip_is_pooled (st : Node.t) (fields : list (string * json))
    (data : json) (tx : Transaction.t) (resps : list json) (w w' : world) :
  get "type" fields = Some (JStr "transaction") ->
  get "data" fields = Some data ->
  Transaction.from_dict data w = (Ok tx, w') ->
  Transaction.sender_pubkey tx = Transaction.COINBASE ->
  Node.handle_connection ecdsa_verify set_rank st (JObj fields) resps w =
  (if Node.in_chain (Transaction.tx_id tx) (Node.blockchain st)
      || Node.mem tx (Node.mempool st)
   then st
   else Node.with_mempool st (Node.mempool st ++ [tx]),
   w').
Proof.
  intros Hty Hdata Hfrom Hsender.
  unfold Node.handle_connection, getitem. rewrite Hty, Hdata. simpl.
  rewrite Hfrom. unfold Node.add_transaction, Blockchain.get_chain_copy.
  rewrite (verify_transaction_coinbase ecdsa_verify _ _ tx Hsender).
  destruct (Node.in_chain _ _); simpl; [reflexivity |].
  destruct (Node.mem tx (Node.mempool st)); reflexivity.
Qed.




End CoinbaseOutsideBlocks.

(* ================================================================== *)
(** * Dictionaries and back                                             *)
(* ================================================================== *)

Section Serialization.

Local Open Scope string_scope.

Lemma str_length_append (a b : string) :
  String.length (a ++ b) = (String.length a + String.length b)%nat.
Proof.
  induction a as [| c a IH]; simpl; [reflexivity | now rewrite IH].
Qed.

Lemma str_append_assoc (a b c : string) : (a ++ b) ++ c = a ++ (b ++ c).
Proof.
  induction a as [| x a IH]; simpl; [reflexivity | now rewrite IH].
Qed.

Lemma str_append_cancel_l (a x y : string) : a ++ x = a ++ y -> x = y.
Proof.
  induction a as [| c a IH]; simpl; intros H; [exact H |].
  inversion H. auto.
Qed.

Lemma str_append_cancel_r (b : string) :
  forall x y, x ++ b = y ++ b -> x = y.
Proof.
  induction x as [| c x IH]; intros [| d y] H; simpl in H.
  - reflexivity.
  - apply (f_equal String.length) in H. simpl in H.
    rewrite str_length_append in H. lia.
  - apply (f_equal String.length) in H. simpl in H.
    rewrite str_length_append in H. lia.
  - inversion H. f_equal. now apply IH.
Qed.

Lemma escape_char_nonempty (c : ascii) : Json.escape_char c <> EmptyString.
Proof.
  unfold Json.escape_char.
  repeat match goal with
         | |- context [if ?b then _ else _] => destruct b
         end; discriminate.
Qed.

(** Only the empty string is escaped to nothing. *)
Lemma escape_empty (s : string) : Json.escape s = EmptyString -> s = EmptyString.
Proof.
  destruct s as [| c s]; [reflexivity |].
  simpl. pose proof (escape_char_nonempty c) as Hc.
  destruct (Json.escape_char c); [contradiction | discriminate].
Qed.

(** The signing payload, written out. *)
Lemma signing_data_shape (tx : Transaction.t) :
  Transaction.get_signing_data tx =
  "{" ++
  ((Json.quote "amount" ++ ": " ++ Json.render_num (PInt (Transaction.amount tx))) ++ ", " ++
   (Json.quote "fee" ++ ": " ++ Json.render_num (PInt (Transaction.fee tx))) ++ ", " ++
   (Json.quote "receiver_pubkey" ++ ": " ++ Json.quote (Transaction.receiver_pubkey tx)) ++ ", " ++
   (Json.quote "sender_pubkey" ++ ": " ++ Json.quote (Transaction.sender_pubkey tx)) ++ ", " ++
   (Json.quote "timestamp" ++ ": " ++ Json.render_num (Transaction.timestamp tx)) ++ ", " ++
   Json.quote "tx_id" ++ ": " ++ Json.quote (Transaction.tx_id tx)) ++
  "}".
Proof. reflexivity. Qed.

(** Two texts without a comma that are followed by a comma are equal when
    what they start is. *)
Lemma first_comma (p : ascii -> bool) (c : ascii) :
  p c = false ->
  forall a b x y,
    str_forallb p a = true -> str_forallb p b = true ->
    a ++ String c x = b ++ String c y -> a = b.
Proof.
  intros Hc. induction a as [| ca a IH]; intros [| cb b] x y Ha Hb Heq; simpl in *.
  - reflexivity.
  - inversion Heq; subst. apply andb_true_iff in Hb. destruct Hb as [Hb _]. congruence.
  - inversion Heq; subst. apply andb_true_iff in Ha. destruct Ha as [Ha _]. congruence.
  - inversion Heq; subst. f_equal.
    apply andb_true_iff in Ha. apply andb_true_iff in Hb.
    eapply IH; [tauto | tauto | eassumption].
Qed.

(** Two transactions whose timestamps are written differently are signed
    over different bytes, whatever their identifiers. *)
Lemma signing_data_timestamp (a b : Transaction.t) :
  Transaction.amount a = Transaction.amount b ->
  Transaction.fee a = Transaction.fee b ->
  Transaction.receiver_pubkey a = Transaction.receiver_pubkey b ->
  Transaction.sender_pubkey a = Transaction.sender_pubkey b ->
  str_forallb float_char (Json.render_num (Transaction.timestamp a)) = true ->
  str_forallb float_char (Json.render_num (Transaction.timestamp b)) = true ->
  Json.render_num (Transaction.timestamp a) <> Json.render_num (Transaction.timestamp b) ->
  Transaction.get_signing_data a <> Transaction.get_signing_data b.
Proof.
  intros Ham Hfee Hrecv Hsend Hca Hcb Hts Heq.
  rewrite !signing_data_shape in Heq. rewrite Ham, Hfee, Hrecv, Hsend in Heq.
  apply str_append_cancel_l in Heq. apply str_append_cancel_r in Heq.
  rewrite !str_append_assoc in Heq.
  repeat (apply str_append_cancel_l in Heq).
  apply (first_comma float_char ","%char) in Heq; auto.
Qed.

(** Likewise when the identifier of one is empty and that of the other is
    not, the timestamps being the same. *)
Lemma signing_data_tx_id (a b : Transaction.t) :
  Transaction.amount a = Transaction.amount b ->
  Transaction.fee a = Transaction.fee b ->
  Transaction.receiver_pubkey a = Transaction.receiver_pubkey b ->
  Transaction.sender_pubkey a = Transaction.sender_pubkey b ->
  Transaction.timestamp a = Transaction.timestamp b ->
  Transaction.tx_id a <> EmptyString ->
  Transaction.tx_id b = EmptyString ->
  Transaction.get_signing_data a <> Transaction.get_signing_data b.
Proof.
  intros Ham Hfee Hrecv Hsend Hts Hid Hempty Heq.
  rewrite !signing_data_shape in Heq. rewrite Ham, Hfee, Hrecv, Hsend, Hts, Hempty in Heq.
  apply str_append_cancel_l in Heq. apply str_append_cancel_r in Heq.
  rewrite !str_append_assoc in Heq.
  repeat (apply str_append_cancel_l in Heq).
  apply str_append_cancel_r in Heq.
  apply escape_empty in Heq. contradiction.
Qed.

Lemma read_args_to_dict (tx : Transaction.t) :
  Transaction.read_args (Transaction.dict_items tx) =
  Ok (Transaction.Args (Transaction.sender_pubkey tx) (Transaction.receiver_pubkey tx)
        (Transaction.amount tx) (Transaction.fee tx) (Some (Transaction.tx_id tx))
        (Transaction.signature tx) (Some (Transaction.timestamp tx))).
Proof.
  unfold Transaction.read_args, Transaction.dict_items. simpl.
  destruct (Transaction.signature tx); reflexivity.
Qed.

(** What [from_dict] makes of the dictionary of a transaction: a false
    [tx_id] or [timestamp] is drawn anew, the rest is as it was. *)
Lemma from_dict_to_dict_any (tx : Transaction.t) (w : world) :
  exists w',
    Transaction.from_dict (Transaction.to_dict tx) w =
    (Ok (Transaction.Make
           (if str_truthy (Transaction.tx_id tx) then Transaction.tx_id tx
            else uuid_src w 0)
           (Transaction.sender_pubkey tx) (Transaction.receiver_pubkey tx)
           (Transaction.amount tx) (Transaction.fee tx)
           (if pynum_truthy (Transaction.timestamp tx) then Transaction.timestamp tx
            else PFloat (time_src w 0))
           (Transaction.signature tx)),
     w').
Proof.
  unfold Transaction.from_dict, Transaction.to_dict.
  rewrite read_args_to_dict. unfold Transaction.init, uuid4, time_time. simpl.
  destruct (str_truthy (Transaction.tx_id tx));
    destruct (pynum_truthy (Transaction.timestamp tx)); simpl; eauto.
Qed.

(** A transaction with a true [tx_id] and a true [timestamp] comes back
    from its dictionary as it was, and nothing is drawn from the world. *)
Lemma from_dict_to_dict (tx : Transaction.t) (w : world) :
  str_truthy (Transaction.tx_id tx) = true ->
  pynum_truthy (Transaction.timestamp tx) = true ->
  Transaction.from_dict (Transaction.to_dict tx) w = (Ok tx, w).
Proof.
  intros Hid Hts.
  unfold Transaction.from_dict, Transaction.to_dict.
  rewrite read_args_to_dict. unfold Transaction.init. simpl. rewrite Hid, Hts.
  destruct tx; reflexivity.
Qed.

Lemma item_from_dict_to_dict (i : Block.item) (w : world) :
  item_stable i = true ->
  Block.item_from_dict (Block.item_to_dict i) w = (Ok i, w).
Proof.
  destruct i as [tx | j]; intros Hst; simpl in Hst.
  - apply andb_true_iff in Hst. destruct Hst as [Hid Hts].
    change (Block.item_from_dict (Block.item_to_dict (Block.Tx tx)) w)
      with (if has_key "tx_id" (Transaction.dict_items tx)
            then match Transaction.from_dict (Transaction.to_dict tx) w with
                 | (Ok tx0, w') => (Ok (Block.Tx tx0), w')
                 | (Raise e, w') => (Raise e, w')
                 end
            else (Ok (Block.Raw (Transaction.to_dict tx)), w)).
    rewrite (from_dict_to_dict tx w Hid Hts). reflexivity.
  - destruct j as [| | | | | fields]; try reflexivity.
    simpl. apply negb_true_iff in Hst. now rewrite Hst.
Qed.

Lemma items_from_dict_to_dict (items : list Block.item) (w : world) :
  forallb item_stable items = true ->
  Block.items_from_dict (map Block.item_to_dict items) w = (Ok items, w).
Proof.
  induction items as [| i tl IH]; simpl; intros Hst; [reflexivity |].
  apply andb_true_iff in Hst. destruct Hst as [Hi Htl].
  rewrite (item_from_dict_to_dict i w Hi), (IH Htl). reflexivity.
Qed.

(** A block whose entries are stable comes back from its dictionary as it
    was; if it was sealed, the hash recomputed on what comes back is its
    hash. *)
Lemma block_from_dict_to_dict (b : Block.t) (w : world) :
  forallb item_stable (Block.transactions b) = true ->
  Block.from_dict (Block.to_dict b) w = (Ok b, w).
Proof.
  intros Hst. unfold Block.from_dict, Block.to_dict.
  replace (bind (getitem "transactions" _) Block.as_list)
    with (Ok (map Block.item_to_dict (Block.transactions b)))
    by reflexivity.
  rewrite (items_from_dict_to_dict _ w Hst). simpl.
  unfold Block.init, Block.with_hash. simpl. destruct b; reflexivity.
Qed.

End Serialization.

Section FalsyFields.

Local Open Scope string_scope.

Lemma falsy_renders_zero (n : pynum) :
  pynum_truthy n = false ->
  Json.render_num n = "0" \/ Json.render_num n = "0.0" \/ Json.render_num n = "-0.0".
Proof.
  destruct n as [z | r]; simpl; intros H.
  - apply negb_false_iff in H. apply Z.eqb_eq in H. subst. left. reflexivity.
  - apply negb_false_iff in H. apply orb_true_iff in H.
    destruct H as [H | H]; apply String.eqb_eq in H; auto.
Qed.

Lemma clock_reading_facts (r : string) :
  clock_reading r = true ->
  str_forallb float_char r = true /\ r <> "0" /\ r <> "0.0" /\ r <> "-0.0".
Proof.
  unfold clock_reading, float_text. intros H.
  apply andb_true_iff in H. destruct H as [Hf Hnz].
  apply andb_true_iff in Hf. destruct Hf as [Hall Hmark].
  split; [exact Hall |]. repeat split; intros ->; discriminate.
Qed.

(** A zero timestamp and a clock reading are written differently, and both
    in the characters of a float. *)
Lemma clock_differs_from_zero (n : pynum) (r : string) :
  pynum_truthy n = false ->
  clock_reading r = true ->
  str_forallb float_char (Json.render_num (PFloat r)) = true
  /\ str_forallb float_char (Json.render_num n) = true
  /\ Json.render_num (PFloat r) <> Json.render_num n.
Proof.
  intros Hn Hr. apply falsy_renders_zero in Hn. apply clock_reading_facts in Hr.
  destruct Hr as (Hall & H0 & H1 & H2). simpl.
  destruct Hn as [-> | [-> | ->]]; repeat split; auto.
Qed.

(** C10.  [Transaction.from_dict] takes a false field for an absent one.
    On the dictionary of a transaction it returns a transaction; a
    timestamp that is not zero is kept, and with a non-empty [tx_id] the
    whole transaction, so its signing payload, is.  A timestamp of [0] or
    [0.0] is replaced by the clock: once the clock reads a float that is
    not zero, the timestamp that comes back is another one and the signing
    payload has changed.  An empty [tx_id] is replaced by the uuid drawn,
    likewise. *)
Theorem from_dict_takes_falsy_for_absent (tx : Transaction.t) (w : world) :
  exists tx' w',
    Transaction.from_dict (Transaction.to_dict tx) w = (Ok tx', w')
    /\ (pynum_truthy (Transaction.timestamp tx) = true ->
        Transaction.timestamp tx' = Transaction.timestamp tx)
    /\ (str_truthy (Transaction.tx_id tx) = true ->
        Transaction.tx_id tx' = Transaction.tx_id tx)
    /\ (pynum_truthy (Transaction.timestamp tx) = true ->
        str_truthy (Transaction.tx_id tx) = true ->
        tx' = tx /\ Transaction.get_signing_data tx' = Transaction.get_signing_data tx)
    /\ (pynum_truthy (Transaction.timestamp tx) = false ->
        Transaction.timestamp tx' = PFloat (time_src w 0)
        /\ (clock_reading (time_src w 0) = true ->
            Transaction.timestamp tx' <> Transaction.timestamp tx
            /\ Transaction.get_signing_data tx' <> Transaction.get_signing_data tx))
    /\ (str_truthy (Transaction.tx_id tx) = false ->
        Transaction.tx_id tx' = uuid_src w 0
        /\ (str_truthy (uuid_src w 0) = true ->
            pynum_truthy (Transaction.timestamp tx) = true
            \/ clock_reading (time_src w 0) = true ->
            Transaction.tx_id tx' <> Transaction.tx_id tx
            /\ Transaction.get_signing_data tx' <> Transaction.get_signing_data tx)).
Proof.
  destruct (from_dict_to_dict_any tx w) as [w' Hfrom].
  eexists. exists w'. split; [exact Hfrom |]. simpl.
  split; [intros Hts; now rewrite Hts |].
  split; [intros Hid; now rewrite Hid |].
  split; [intros Hts Hid; rewrite Hts, Hid; destruct tx; auto |].
  split.
  - intros Hts. rewrite Hts. split; [reflexivity |]. intros Hclock.
    destruct (clock_differs_from_zero _ _ Hts Hclock) as (Ha & Hb & Hne).
    split.
    + intros Heq. apply Hne. now rewrite Heq.
    + apply signing_data_timestamp; auto.
  - intros Hid. rewrite Hid. split; [reflexivity |]. intros Huuid Hor.
    assert (uuid_src w 0 <> EmptyString) as Hu
      by (intros Hu; rewrite Hu in Huuid; discriminate).
    assert (Transaction.tx_id tx = EmptyString) as He
      by (destruct (Transaction.tx_id tx); [reflexivity | discriminate]).
    split; [now rewrite He |].
    destruct (pynum_truthy (Transaction.timestamp tx)) eqn:Hts.
    + apply signing_data_tx_id; auto.
    + destruct Hor as [Habs | Hclock]; [discriminate |].
      destruct (clock_differs_from_zero _ _ Hts Hclock) as (Ha & Hb & Hne).
      apply signing_data_timestamp; auto.
Qed.

End FalsyFields.

Section RoundTrip.

Variable ecdsa_verify : string -> string -> string -> bool.

(** What the constructor builds has a true [tx_id] and a true [timestamp],
    the uuid being non-empty and the clock not at zero. *)
Lemma init_fields_true (sender receiver : string) (amount fee : Z)
    (tx_id sig : option string) (ts : option pynum) (w : world) :
  str_truthy (uuid_src w 0) = true ->
  pynum_truthy (PFloat (time_src w 0)) = true ->
  let tx := fst (Transaction.init sender receiver amount fee tx_id sig ts w) in
  str_truthy (Transaction.tx_id tx) = true
  /\ pynum_truthy (Transaction.timestamp tx) = true.
Proof.
  intros Huuid Hclock. unfold Transaction.init, uuid4, time_time. cbv zeta.
  destruct tx_id as [s |]; [destruct (str_truthy s) eqn:Hs |];
    (destruct ts as [n |]; [destruct (pynum_truthy n) eqn:Hn |]); simpl; auto.
Qed.

(** C9, as the code has it.  A sealed block whose entries are transactions
    with a non-empty [tx_id] and a timestamp that is not zero, or values
    other than a dict with a [tx_id] key, comes back from its dictionary as
    it was, so the hash recomputed on it is its hash.  A transaction with
    a non-empty [tx_id] and a timestamp that is not zero comes back as it
    was: its signing payload is the one that was signed, and its signature
    verifies as it did. *)
Theorem round_trip_of_stable_entries (b : Block.t) (tx : Transaction.t) (w : world) :
  (forallb item_stable (Block.transactions b) = true ->
   sealed b ->
   exists b', Block.from_dict (Block.to_dict b) w = (Ok b', w)
              /\ Block.generate_hash b' = Block.hash b)
  /\ (str_truthy (Transaction.tx_id tx) = true ->
      pynum_truthy (Transaction.timestamp tx) = true ->
      exists tx', Transaction.from_dict (Transaction.to_dict tx) w = (Ok tx', w)
                  /\ Transaction.get_signing_data tx' = Transaction.get_signing_data tx
                  /\ Node.signature_verifies ecdsa_verify tx'
                     = Node.signature_verifies ecdsa_verify tx).
Proof.
  split.
  - intros Hst Hsealed. exists b. split; [now apply block_from_dict_to_dict |].
    symmetry. exact Hsealed.
  - intros Hid Hts. exists tx. split; [now apply from_dict_to_dict | auto].
Qed.

End RoundTrip.

(* ================================================================== *)
(** * Runs of a node on concrete messages                               *)
(* ================================================================== *)

Section Runs.

Import Scenario.

Local Open Scope string_scope.

Variable ecdsa_verify : string -> string -> string -> bool.
Variable set_rank : string -> N.

(** One more step of a run, by what the step computes. *)
Lemma reach_step (files : Node.chain_file -> bool)
    (allowed : Node.t -> Node.event -> world -> bool)
    (st st' : Node.t) (ev : Node.event) (w : world) :
  Node.reachable_by ecdsa_verify set_rank files allowed st ->
  allowed st ev w = true ->
  option_map fst (Node.run ecdsa_verify set_rank st ev w) = Some st' ->
  Node.reachable_by ecdsa_verify set_rank files allowed st'.
Proof.
  intros Hreach Hallowed Hrun.
  destruct (Node.run ecdsa_verify set_rank st ev w) as [[s w'] |] eqn:E; simpl in Hrun;
    [| discriminate].
  inversion Hrun; subst. eapply Node.reach_run; eassumption.
Qed.

(** A node constructed where there is no chain file starts from the genesis
    alone, and one constructed on a chain file that holds a valid chain
    starts from that chain. *)
Lemma reach_fresh (files : Node.chain_file -> bool)
    (allowed : Node.t -> Node.event -> world -> bool)
    (name : string) (is_miner : bool) (pk : string) :
  files Node.NoFile = true ->
  Node.reachable_by ecdsa_verify set_rank files allowed (Node.fresh name is_miner pk).
Proof.
  intros Hfiles.
  exact (Node.reach_init ecdsa_verify set_rank files allowed name is_miner pk Node.NoFile w0
           _ _ _ Hfiles (init_no_file name pk is_miner w0)).
Qed.

Lemma reach_loaded (files : Node.chain_file -> bool)
    (allowed : Node.t -> Node.event -> world -> bool)
    (name : string) (is_miner : bool) (pk : string) (chain : list Block.t) :
  files (Node.Holds (chain_data chain)) = true ->
  Node.decode_chain (chain_data chain) w0 = (Ok chain, w0) ->
  Blockchain.is_valid_chain chain = true ->
  Node.reachable_by ecdsa_verify set_rank files allowed (Node.Make name is_miner pk chain []).
Proof.
  intros Hfiles Hdec Hv.
  apply (Node.reach_init ecdsa_verify set_rank files allowed name is_miner pk
           (Node.Holds (chain_data chain)) w0 _ (Node.Holds (chain_data chain)) w0 Hfiles).
  unfold Node.init. rewrite blockchain_init_genesis.
  cbn [Node.ensure_blockchain_file Node.load_blockchain].
  rewrite Hdec, Hv. reflexivity.
Qed.

End Runs.

Section ConcreteRuns.

Import Scenario.

Local Open Scope string_scope.

(** The mined blocks of the scenarios pass [is_valid_block]: each hashes to
    its [hash], which has the required zeros. *)
Lemma scenario_blocks_valid :
  map (fun b => Blockchain.is_valid_block b (JStr (Block.hash b)))
      [b1; o1; n1; n2; f1; m1; own_block]
  = map (fun _ => Ok true) [b1; o1; n1; n2; f1; m1; own_block].
Proof. vm_compute. reflexivity. Qed.

(** A node that is sent [b1] appends it. *)
Lemma reach_with_b1 (files : Node.chain_file -> bool)
    (allowed : Node.t -> Node.event -> world -> bool) :
  files Node.NoFile = true ->
  allowed node0 (Node.Connection (msg_block b1) []) w0 = true ->
  Node.reachable_by no_pem_key insertion_order files allowed with_b1.
Proof.
  intros Hfiles Hallowed.
  apply (reach_step no_pem_key insertion_order files allowed node0 with_b1
           (Node.Connection (msg_block b1) []) w0).
  - now apply reach_fresh.
  - exact Hallowed.
  - vm_compute. reflexivity.
Qed.

(** A node that is sent [o1] appends it. *)
Lemma reach_with_o1 (files : Node.chain_file -> bool)
    (allowed : Node.t -> Node.event -> world -> bool) :
  files Node.NoFile = true ->
  allowed node0 (Node.Connection (msg_block o1) []) w0 = true ->
  Node.reachable_by no_pem_key insertion_order files allowed with_o1.
Proof.
  intros Hfiles Hallowed.
  apply (reach_step no_pem_key insertion_order files allowed node0 with_o1
           (Node.Connection (msg_block o1) []) w0).
  - now apply reach_fresh.
  - exact Hallowed.
  - vm_compute. reflexivity.
Qed.

(** It then adopts the longer fork and pools the reward of [o1]. *)
Lemma reach_after_fork (files : Node.chain_file -> bool)
    (allowed : Node.t -> Node.event -> world -> bool) :
  files Node.NoFile = true ->
  allowed node0 (Node.Connection (msg_block o1) []) w0 = true ->
  allowed with_o1 (Node.Sync [chain_data [genesis; n1; n2]]) w0 = true ->
  Node.reachable_by no_pem_key insertion_order files allowed after_fork.
Proof.
  intros Hfiles H1 H2.
  apply (reach_step no_pem_key insertion_order files allowed with_o1 after_fork
           (Node.Sync [chain_data [genesis; n1; n2]]) w0).
  - now apply reach_with_o1.
  - exact H2.
  - vm_compute. reflexivity.
Qed.


(** A fresh node adopts the chain that starts with [f0]. *)
Lemma reach_on_forged_chain :
  Node.reachable no_pem_key insertion_order on_forged_chain.
Proof.
  apply (reach_step no_pem_key insertion_order _ _ node0 on_forged_chain
           (Node.Sync [chain_data [f0; f1]]) w0).
  - now apply reach_fresh.
  - reflexivity.
  - vm_compute. reflexivity.
Qed.


(** A miner that has pooled the forged mint mines it, at the first nonce. *)
Lemma reach_miner_mined (files : Node.chain_file -> bool)
    (allowed : Node.t -> Node.event -> world -> bool) :
  files Node.NoFile = true ->
  allowed miner0 (Node.Connection (msg_transaction forged) []) w0 = true ->
  allowed miner_pending (Node.MineOnce 0) w0 = true ->
  Node.reachable_by no_pem_key insertion_order files allowed miner_mined.
Proof.
  intros Hfiles H1 H2.
  apply (reach_step no_pem_key insertion_order files allowed miner_pending miner_mined
           (Node.MineOnce 0) w0).
  - apply (reach_step no_pem_key insertion_order files allowed miner0 miner_pending
             (Node.Connection (msg_transaction forged) []) w0).
    + now apply reach_fresh.
    + exact H1.
    + vm_compute. reflexivity.
  - exact H2.
  - vm_compute. reflexivity.
Qed.

(** A miner that is asked for a transfer signs and pools it, and mines it
    in a later turn, at the first nonce. *)
Lemma reach_miner_paid (files : Node.chain_file -> bool)
    (allowed : Node.t -> Node.event -> world -> bool) :
  files Node.NoFile = true ->
  allowed miner0 (Node.Connection (Simulate.send_transaction_request "bob" 30 1) []) w0 = true ->
  allowed miner_with_transfer (Node.MineOnce 0) w1 = true ->
  Node.reachable_by accepts_w0 insertion_order files allowed miner_paid.
Proof.
  intros Hfiles H1 H2.
  apply (reach_step accepts_w0 insertion_order files allowed miner_with_transfer miner_paid
           (Node.MineOnce 0) w1).
  - apply (reach_step accepts_w0 insertion_order files allowed miner0 miner_with_transfer
             (Node.Connection (Simulate.send_transaction_request "bob" 30 1) []) w0).
    + now apply reach_fresh.
    + exact H1.
    + vm_compute. reflexivity.
  - exact H2.
  - vm_compute. reflexivity.
Qed.

(** A node that is started on a chain file holding [genesis; b1], or
    [f0]. *)
Lemma reach_restarted_on_b1 (allowed : Node.t -> Node.event -> world -> bool) :
  Node.reachable_by no_pem_key insertion_order (fun _ => true) allowed with_b1.
Proof.
  apply reach_loaded; [reflexivity | vm_compute; reflexivity | vm_compute; reflexivity].
Qed.

Lemma reach_restarted_on_f0 (allowed : Node.t -> Node.event -> world -> bool) :
  Node.reachable_by no_pem_key insertion_order (fun _ => true) allowed on_f0.
Proof.
  apply reach_loaded; [reflexivity | vm_compute; reflexivity | vm_compute; reflexivity].
Qed.

End ConcreteRuns.

(* ================================================================== *)
(** * The claims on concrete runs                                       *)
(* ================================================================== *)

Section ClaimsOnRuns.

Import Scenario.

Local Open Scope string_scope.

(** Witness of C2: the block [b1] on the genesis, with its own hash and
    with a number for a hash. *)
Lemma add_block_accepts_iff_witness :
  Blockchain.add_block [genesis] b1 (JStr (Block.hash b1)) = Ok (true, [genesis; b1])
  /\ is_str (JNum (PInt 0)) = false
  /\ Blockchain.add_block [genesis] b1 (JNum (PInt 0)) = Raise AttributeError.
Proof.
  split; [| split; [reflexivity |
                    exact (proj2 (add_block_accepts_iff [] genesis b1) (JNum (PInt 0))
                             eq_refl)]].
  destruct (proj1 (add_block_accepts_iff [] genesis b1) (Block.hash b1))
    as (ok & chain' & Hadd & Hiff & Htrue & _).
  assert (ok = true) as Hok.
  { apply Hiff. split; [reflexivity |]. split; vm_compute; reflexivity. }
  rewrite (Htrue Hok), Hok in Hadd. exact Hadd.
Defined.

(** C2 fails as stated: [b1] links to the genesis, and [add_block] called
    on it with a number for a hash raises, at [block_hash.startswith]. *)
Lemma add_block_raises_on_a_hash_that_is_no_str :
  Blockchain.last_block [genesis] = Ok genesis
  /\ Block.prev_hash b1 = Block.hash genesis
  /\ Blockchain.add_block [genesis] b1 (JNum (PInt 0)) = Raise AttributeError.
Proof. split; [reflexivity |]. split; [reflexivity |]. vm_compute. reflexivity. Qed.

(** Witness of C3: a miner whose key ECDSA accepts signs a transfer of its
    own, pools it and mines it; its block holds the reward and the signed
    transfer. *)
Lemma locally_built_chain_is_verified_witness :
  Node.reachable_by accepts_w0 insertion_order Node.no_chain_file local_event miner_paid
  /\ all_chain_txs (Node.blockchain miner_paid) = [reward_own; own_transfer]
  /\ is_coinbase own_transfer = false
  /\ Node.signature_verifies accepts_w0 own_transfer = true
  /\ Forall (fun tx => verified accepts_w0 tx = true)
            (all_chain_txs (Node.blockchain miner_paid))
  /\ Forall (fun tx => verified accepts_w0 tx = true) (Node.mempool miner_paid).
Proof.
  assert (Node.reachable_by accepts_w0 insertion_order Node.no_chain_file local_event
            miner_paid) as H
    by (apply reach_miner_paid; reflexivity).
  split; [exact H |]. split; [reflexivity |]. split; [reflexivity |].
  split; [reflexivity |].
  exact (locally_built_chain_is_verified accepts_w0 insertion_order miner_paid H).
Defined.

(** Without the proviso on the chain file C3 would not hold even of local
    events: a node started on a chain file that holds [genesis; b1] has the
    unsigned transfer in its chain before anything comes in. *)
Lemma unsigned_transfer_loaded_from_file :
  Node.reachable_by no_pem_key insertion_order (fun _ => true) local_event with_b1
  /\ In unsigned (all_chain_txs (Node.blockchain with_b1))
  /\ verified no_pem_key unsigned = false.
Proof.
  split; [apply reach_restarted_on_b1 |]. split; [simpl; auto | reflexivity].
Qed.

(** C3 fails as stated: a node that is sent the block [b1] appends it, and
    [b1] holds a transfer from [alice] that carries no signature at all. *)
Lemma unsigned_transfer_in_chain :
  Node.reachable no_pem_key insertion_order with_b1
  /\ In b1 (Node.blockchain with_b1)
  /\ In (Block.Tx unsigned) (Block.transactions b1)
  /\ is_coinbase unsigned = false
  /\ Transaction.signature unsigned = None
  /\ Node.signature_verifies no_pem_key unsigned = false.
Proof.
  split; [apply reach_with_b1; reflexivity |].
  repeat split; simpl; auto.
Qed.

(** Witness of C4: the forged mint, sent as a transaction. *)
Lemma coinbase_gossip_is_pooled_witness :
  Transaction.from_dict (Transaction.to_dict forged) w0 = (Ok forged, w0)
  /\ Transaction.sender_pubkey forged = Transaction.COINBASE
  /\ Node.handle_connection no_pem_key insertion_order node0
       (msg_transaction forged) [] w0 = (with_forged, w0).
Proof.
  assert (Transaction.from_dict (Transaction.to_dict forged) w0 = (Ok forged, w0)) as Hfrom
    by reflexivity.
  split; [exact Hfrom |]. split; [reflexivity |].
  exact (coinbase_gossip_is_pooled no_pem_key insertion_order node0
           [("type", JStr "transaction"); ("data", Transaction.to_dict forged)]
           (Transaction.to_dict forged) forged [] w0 w0
           eq_refl eq_refl Hfrom eq_refl).
Defined.

(** C4 fails as stated: a wire message of type [transaction] whose sender
    is [COINBASE] ends in the mempool. *)
Lemma forged_mint_is_pooled :
  Transaction.sender_pubkey forged = Transaction.COINBASE
  /\ get "type" [("type", JStr "transaction"); ("data", Transaction.to_dict forged)]
     = Some (JStr "transaction")
  /\ Node.mempool
       (fst (Node.handle_connection no_pem_key insertion_order node0
               (JObj [("type", JStr "transaction"); ("data", Transaction.to_dict forged)])
               [] w0))
     = [forged].
Proof. repeat split. Qed.



(** Witness of C6: a node that appends [o1] and then adopts the longer
    fork [genesis; n1; n2] a peer sends back, which starts with the
    genesis. *)
Lemma first_block_invariant_witness :
  Node.reachable_by no_pem_key insertion_order genesis_file genesis_kept after_fork
  /\ (exists first rest,
         Node.blockchain after_fork = first :: rest /\ Block.prev_hash first = "0")
  /\ (exists rest, Node.blockchain after_fork = genesis :: rest).
Proof.
  assert (Node.reachable_by no_pem_key insertion_order genesis_file genesis_kept after_fork)
    as H by (apply reach_after_fork; vm_compute; reflexivity).
  destruct (first_block_invariant no_pem_key insertion_order genesis_file genesis_kept
              after_fork H) as [Hzero Hgenesis].
  split; [exact H |]. split; [exact Hzero |].
  apply Hgenesis; [intros file Hf | intros s ev w Hs]; assumption.
Defined.

(** Without the proviso on the chain file the first block need not be the
    genesis even when no peer sends anything: a node started on a chain
    file that holds the block [f0] alone has [f0] for its chain. *)
Lemma forged_first_block_loaded_from_file :
  Node.reachable_by no_pem_key insertion_order (fun _ => true) (fun _ _ _ => false) on_f0
  /\ Node.blockchain on_f0 = [f0]
  /\ genesis_first (chain_data [f0]) = false.
Proof.
  split; [apply reach_restarted_on_f0 |]. split; [reflexivity | vm_compute; reflexivity].
Qed.

(** C6 fails as stated: a fresh node pulls the chain [f0; f1] and adopts
    it; its first block is then [f0], which holds a mint where the
    canonical genesis holds its descriptor. *)
Lemma forged_first_block_adopted :
  Node.reachable no_pem_key insertion_order on_forged_chain
  /\ fst (Blockchain.replace_chain (Node.blockchain node0) [f0; f1]) = true
  /\ hd_error (Node.blockchain on_forged_chain) = Some f0
  /\ Block.transactions f0 = [Block.Tx forged]
  /\ Block.transactions genesis = [Block.Raw Blockchain.genesis_descriptor].
Proof.
  split; [exact reach_on_forged_chain |].
  split; [vm_compute; reflexivity |].
  repeat split.
Qed.


(** Where two handlers interleave the statement of C7 need not hold of the
    later blocks either.  [add_transaction] scans the chain and verifies
    before it takes the lock: when the block [m1], which holds [forged],
    is appended between that and the locked part, [forged] ends up both
    pending and in [m1]. *)
Lemma interleaved_add_transaction_pools_a_mined_id :
  Node.add_transaction_unlocked no_pem_key node0 forged = true
  /\ Node.handle_connection no_pem_key insertion_order node0 (msg_block m1) [] w0
     = (forged_mined, w0)
  /\ Node.add_transaction_locked forged_mined forged
     = (true, Node.Make "node-0" false "node-0-key" [genesis; m1] [forged])
  /\ In (Block.Tx forged) (Block.transactions m1).
Proof.
  split; [reflexivity |]. split; [vm_compute; reflexivity |].
  split; [reflexivity |]. simpl. auto.
Qed.


(** C8 fails as stated: on the chain [genesis; o1] the balance computed
    for the string [COINBASE] is 90, the reward of [o1] having been debited
    from it. *)
Lemma coinbase_balance_is_debited :
  Node.reachable no_pem_key insertion_order with_o1
  /\ Node.chain_txs (Node.blockchain with_o1) = [reward_a]
  /\ Transaction.sender_pubkey reward_a = Transaction.COINBASE
  /\ debited Transaction.COINBASE (Node.chain_txs (Node.blockchain with_o1)) = 10%Z
  /\ Blockchain.get_balance (Node.blockchain with_o1) Transaction.COINBASE = 90%Z.
Proof.
  split; [apply reach_with_o1; reflexivity |].
  repeat split.
Qed.

(** Witness of C9: the block [b1] and the transfer it holds. *)
Lemma round_trip_of_stable_entries_witness :
  forallb item_stable (Block.transactions b1) = true
  /\ sealed b1
  /\ str_truthy (Transaction.tx_id unsigned) = true
  /\ pynum_truthy (Transaction.timestamp unsigned) = true
  /\ (exists b', Block.from_dict (Block.to_dict b1) w0 = (Ok b', w0)
                 /\ Block.generate_hash b' = Block.hash b1)
  /\ (exists tx', Transaction.from_dict (Transaction.to_dict unsigned) w0 = (Ok tx', w0)
                  /\ Transaction.get_signing_data tx' = Transaction.get_signing_data unsigned
                  /\ Node.signature_verifies no_pem_key tx'
                     = Node.signature_verifies no_pem_key unsigned).
Proof.
  assert (sealed b1) as Hsealed by (unfold sealed; vm_compute; reflexivity).
  destruct (round_trip_of_stable_entries no_pem_key b1 unsigned w0) as [Hblock Htx].
  split; [reflexivity |]. split; [exact Hsealed |].
  split; [reflexivity |]. split; [reflexivity |].
  split; [exact (Hblock eq_refl Hsealed) | exact (Htx eq_refl eq_refl)].
Defined.

(** C9 fails as stated.  [memo_block] is sealed; one of its entries is a
    plain dict with a [tx_id] key, which [Block.from_dict] rebuilds as a
    transaction, dropping the key no transaction has: the hash recomputed
    on what comes back is another one.  [epoch_block] is sealed and holds a
    transfer stamped at the epoch, which comes back stamped by the clock:
    the recomputed hash is another one, and so are the bytes the transfer's
    signature was made on. *)
Lemma sealed_blocks_that_do_not_round_trip :
  (sealed memo_block
   /\ Block.hash memo_block
      = "f81ea1a7a55df6abe371e719ea9b087aebcfb45d5085b1579229a44e40f9e30f"
   /\ match fst (Block.from_dict (Block.to_dict memo_block) w0) with
      | Ok b' =>
          Block.generate_hash b'
          = "77133e1d3598c4bea626c39a72050286ef0e83db90165a599b54ca938f4ebbc7"
      | Raise _ => False
      end)
  /\ (sealed epoch_block
      /\ Block.hash epoch_block
         = "36977387101e7b9124c19fb301878ce87647bbd8fed42b87d75d6a7a750bb16a"
      /\ match fst (Block.from_dict (Block.to_dict epoch_block) w0) with
         | Ok b' =>
             Block.generate_hash b'
             = "c49c481981fa2e483b6b8e63edbd178337fd1206f561fd36102d12ccd92a63bb"
         | Raise _ => False
         end
      /\ match fst (Transaction.from_dict (Transaction.to_dict epoch_tx) w0) with
         | Ok tx' =>
             Transaction.timestamp tx' = PFloat "1700000000.5"
             /\ (Transaction.get_signing_data tx' =? Transaction.get_signing_data epoch_tx)
                = false
         | Raise _ => False
         end).
Proof.
  split.
  - split; [unfold sealed; vm_compute; reflexivity |].
    split; [reflexivity |]. vm_compute. reflexivity.
  - split; [unfold sealed; vm_compute; reflexivity |].
    split; [reflexivity |].
    split; [vm_compute; reflexivity |].
    vm_compute. split; reflexivity.
Qed.

(** Witness of C10: the transfer stamped at the epoch. *)
Lemma from_dict_takes_falsy_for_absent_witness :
  pynum_truthy (Transaction.timestamp epoch_tx) = false
  /\ clock_reading (time_src w0 0) = true
  /\ exists tx' w',
       Transaction.from_dict (Transaction.to_dict epoch_tx) w0 = (Ok tx', w')
       /\ Transaction.timestamp tx' = PFloat (time_src w0 0)
       /\ Transaction.timestamp tx' <> Transaction.timestamp epoch_tx
       /\ Transaction.get_signing_data tx' <> Transaction.get_signing_data epoch_tx.
Proof.
  split; [reflexivity |]. split; [reflexivity |].
  destruct (from_dict_takes_falsy_for_absent epoch_tx w0)
    as (tx' & w' & Hfrom & _ & _ & _ & Hts & _).
  destruct (Hts eq_refl) as [Hclock Hdiff].
  destruct (Hdiff eq_refl) as [Hne Hpayload].
  exists tx', w'. auto.
Defined.

End ClaimsOnRuns.

(* ================================================================== *)
(** * Valid chains along the runs of a node                             *)
(* ================================================================== *)

Section ValidChains.

Variable ecdsa_verify : string -> string -> string -> bool.
Variable set_rank : string -> N.

Lemma last_block_cons (first : Block.t) (rest : list Block.t) :
  Blockchain.last_block (first :: rest) = Ok (last rest first).
Proof.
  revert first. induction rest as [| b tl IH] using rev_ind; intros first.
  - reflexivity.
  - change (first :: tl ++ [b]) with ((first :: tl) ++ [b]).
    rewrite last_block_snoc, last_last. reflexivity.
Qed.

Lemma last_cons_default {A : Type} (l : list A) :
  forall a d, last (a :: l) d = last l a.
Proof.
  induction l as [| x xs IH]; intros a d; [reflexivity |].
  change (last (a :: x :: xs) d) with (last (x :: xs) d).
  now rewrite (IH x d), (IH x a).
Qed.

(** The loop of [is_valid_chain] on a chain with one more block runs the
    tests of [add_block] on that block. *)
Lemma check_links_snoc (b : Block.t) (rest : list Block.t) :
  forall first,
    Blockchain.check_links first (rest ++ [b]) =
    Blockchain.check_links first rest
    && ((Block.hash (last rest first) =? Block.prev_hash b)%string
        && (Blockchain.startswith (Block.hash b) (Blockchain.zeros Blockchain.difficulty)
            && (Block.generate_hash b =? Block.hash b)%string)).
Proof.
  induction rest as [| curr tl IH]; intros first.
  - simpl.
    rewrite (String.eqb_sym (Block.hash first) (Block.prev_hash b)).
    destruct (Block.prev_hash b =? Block.hash first)%string; simpl; [| reflexivity].
    destruct (Blockchain.startswith (Block.hash b) _); simpl; [| reflexivity].
    destruct (Block.generate_hash b =? Block.hash b)%string; reflexivity.
  - change ((curr :: tl) ++ [b]) with (curr :: (tl ++ [b])).
    cbn [Blockchain.check_links]. rewrite IH.
    rewrite last_cons_default.
    destruct (negb (Block.prev_hash curr =? Block.hash first)%string); [reflexivity |].
    destruct (negb (Blockchain.startswith (Block.hash curr) _)); [reflexivity |].
    destruct (negb (Block.generate_hash curr =? Block.hash curr)%string); reflexivity.
Qed.

Lemma generate_hash_with_hash (b : Block.t) (h : string) :
  Block.generate_hash (Block.with_hash b h) = Block.generate_hash b.
Proof. reflexivity. Qed.

(** A block that [add_block] appends to a valid chain leaves it valid. *)
Lemma add_block_keeps_valid (chain chain' : list Block.t) (b : Block.t) (h : string) :
  Blockchain.is_valid_chain chain = true ->
  Blockchain.add_block chain b (JStr h) = Ok (true, chain') ->
  Blockchain.is_valid_chain chain' = true.
Proof.
  intros Hv Hadd. apply add_block_true in Hadd.
  destruct Hadd as (_ & -> & Hb & tip & Htip & Hlink).
  destruct chain as [| first rest]; [discriminate |].
  rewrite last_block_cons in Htip. inversion Htip; subst tip.
  simpl in Hv |- *.
  destruct (negb (Block.prev_hash first =? "0")%string); [discriminate |].
  rewrite check_links_snoc, Hv. simpl.
  rewrite Hlink, String.eqb_refl. simpl.
  change (Block.hash (Block.with_hash b h)) with h.
  rewrite generate_hash_with_hash.
  rewrite is_valid_block_str in Hb. now inversion Hb.
Qed.

(** What a step keeps: a property of the node that [add_transaction], an
    appended block (whatever becomes of the mempool) and [adopt_chain]
    keep. *)
Lemma run_keeps (P : Node.t -> Prop) :
  (forall st tx, P st -> P (snd (Node.add_transaction ecdsa_verify st tx))) ->
  (forall st b chain' mp,
      P st ->
      Blockchain.add_block (Node.blockchain st) b (JStr (Block.hash b)) = Ok (true, chain') ->
      P (Node.Make (Node.name st) (Node.is_miner st) (Node.public_key_str st) chain' mp)) ->
  (forall st c, P st -> P (Node.adopt_chain ecdsa_verify set_rank st c)) ->
  forall st ev w st' w',
    Node.run ecdsa_verify set_rank st ev w = Some (st', w') -> P st -> P st'.
Proof.
  intros Htx Hblock Hadopt st ev w st' w' Hrun HP.
  destruct ev as [msg resps | resps | fuel]; simpl in Hrun.
  - inversion Hrun as [Hh]; clear Hrun.
    apply handle_connection_cases in Hh.
    destruct Hh as [-> | [[tx ->] | [(_ & block & chain' & Hadd & ->) | (_ & w1 & ->)]]].
    + exact HP.
    + now apply Htx.
    + now apply (Hblock st block).
    + now apply request_chain_from_peers_keeps.
  - inversion Hrun as [Hh]; clear Hrun.
    replace st' with (fst (Node.request_chain_from_peers ecdsa_verify set_rank st resps w))
      by (rewrite Hh; reflexivity).
    now apply request_chain_from_peers_keeps.
  - destruct (Node.mine fuel st w) as [[[s w1] | e] |] eqn:Hmine; try discriminate.
    inversion Hrun; subst s w1. apply mine_cases in Hmine.
    destruct Hmine as [-> | (picked & reward & block & chain' & _ & _ & _ & _ & Hadd & ->)].
    + exact HP.
    + now apply (Hblock st block).
Qed.

(** X1.  The chain of a node passes [is_valid_chain] in every state the
    node reaches, whatever chain file it is constructed on and whatever it
    is sent: the genesis alone does, [load_blockchain] and [replace_chain]
    install only a chain that passes, and [add_block] appends only a block
    that links to the tip and carries its proof of work. *)
Theorem reachable_chain_is_valid (files : Node.chain_file -> bool)
    (allowed : Node.t -> Node.event -> world -> bool) (st : Node.t) :
  Node.reachable_by ecdsa_verify set_rank files allowed st ->
  Blockchain.is_valid_chain (Node.blockchain st) = true.
Proof.
  induction 1 as [name is_miner pk file w st file' w' _ Hinit | st ev w st' w' _ IH _ Hrun].
  - destruct (init_shape _ _ _ _ _ _ _ _ Hinit) as (chain & -> & Hv & _). exact Hv.
  - revert IH. apply (run_keeps (fun s => Blockchain.is_valid_chain (Node.blockchain s) = true))
      with (ev := ev) (w := w) (w' := w'); [| | | exact Hrun].
    + intros s tx Hs. now rewrite add_transaction_chain.
    + intros s b chain' mp Hs Hadd. simpl. eapply add_block_keeps_valid; eassumption.
    + intros s c Hs. destruct (adopt_chain_chain ecdsa_verify set_rank s c) as [-> | (-> & Hv & _)];
        assumption.
Qed.

(** X2.  A step never changes the name, the role or the key of the node,
    and it changes the chain only by making it strictly longer: by one
    block that [add_block] appends, or by a longer chain that
    [replace_chain] installs. *)
Theorem chain_only_grows (st st' : Node.t) (ev : Node.event) (w w' : world) :
  Node.run ecdsa_verify set_rank st ev w = Some (st', w') ->
  (Node.name st' = Node.name st
   /\ Node.is_miner st' = Node.is_miner st
   /\ Node.public_key_str st' = Node.public_key_str st)
  /\ (Node.blockchain st' = Node.blockchain st
      \/ (List.length (Node.blockchain st) < List.length (Node.blockchain st'))%nat).
Proof.
  intros Hrun.
  apply (run_keeps
           (fun s =>
              (Node.name s = Node.name st
               /\ Node.is_miner s = Node.is_miner st
               /\ Node.public_key_str s = Node.public_key_str st)
              /\ (Node.blockchain s = Node.blockchain st
                  \/ (List.length (Node.blockchain st) < List.length (Node.blockchain s))%nat)))
    with (st := st) (ev := ev) (w := w) (w' := w'); [| | | exact Hrun | auto].
  - intros s tx Hs. rewrite add_transaction_chain.
    unfold Node.add_transaction.
    destruct (Node.in_chain _ _); [exact Hs |].
    destruct (negb (Node.verify_transaction _ _ _ _)); [exact Hs |].
    destruct (negb (Node.mem _ _)); exact Hs.
  - intros s b chain' mp [Hid Hs] Hadd. simpl. split; [exact Hid |].
    apply add_block_true in Hadd. destruct Hadd as (_ & -> & _).
    right. rewrite length_app. simpl. destruct Hs as [-> | Hlt]; lia.
  - intros s c [Hid Hs].
    destruct (adopt_chain_chain ecdsa_verify set_rank s c) as [-> | (Hc & _ & Hlen)];
      [now split |].
    split.
    + unfold Node.adopt_chain.
      destruct (Blockchain.replace_chain (Node.blockchain s) c) as [[|] chain']; simpl;
        exact Hid.
    + right. rewrite Hc. destruct Hs as [Hs | Hlt]; [rewrite Hs in Hlen |]; lia.
Qed.

(** X3.  On a valid chain [add_block] and [is_valid_chain] agree:
    [add_block(b, b.hash)] returns true, and appends [b], exactly when the
    chain with [b] at its end passes [is_valid_chain]. *)
Theorem add_block_agrees_with_is_valid_chain (chain : list Block.t) (b : Block.t) :
  Blockchain.is_valid_chain chain = true ->
  Blockchain.add_block chain b (JStr (Block.hash b)) =
  Ok (if Blockchain.is_valid_chain (chain ++ [b]) then (true, chain ++ [b])
      else (false, chain)).
Proof.
  intros Hv. destruct chain as [| first rest]; [discriminate |].
  rewrite add_block_str, last_block_cons. cbn [bind].
  change ((first :: rest) ++ [b]) with (first :: (rest ++ [b])).
  simpl in Hv |- *.
  destruct (negb (Block.prev_hash first =? "0")%string); [discriminate |].
  rewrite check_links_snoc, Hv. simpl.
  destruct (Block.hash (last rest first) =? Block.prev_hash b)%string; simpl; [| reflexivity].
  destruct (Blockchain.startswith (Block.hash b) _ && _); simpl; [| reflexivity].
  rewrite with_hash_same. reflexivity.
Qed.

End ValidChains.

(* ================================================================== *)
(** * The proof of work                                                 *)
(* ================================================================== *)

Section ProofOfWork.

Lemma with_nonce_next (b : Block.t) (k : nat) :
  Block.with_nonce (Block.with_nonce b (Z.of_nat k))
                   (Block.nonce (Block.with_nonce b (Z.of_nat k)) + 1)
  = Block.with_nonce b (Z.of_nat (S k)).
Proof.
  unfold Block.with_nonce. simpl. f_equal. lia.
Qed.

(** The loop, entered with the nonce at [k]: it stops at the first nonce
    from [k] on whose hash has the zeros, if there is one within [fuel]
    steps. *)
Lemma pow_loop_from (b : Block.t) (fuel : nat) :
  forall k h b',
    Blockchain.pow_loop fuel (Block.with_nonce b (Z.of_nat k))
      (Block.generate_hash (Block.with_nonce b (Z.of_nat k))) = Some (h, b') <->
    exists n,
      (k <= n <= k + fuel)%nat
      /\ nonce_ok b n = true
      /\ (forall j, (k <= j < n)%nat -> nonce_ok b j = false)
      /\ b' = Block.with_nonce b (Z.of_nat n)
      /\ h = Block.generate_hash b'.
Proof.
  induction fuel as [| f IH]; intros k h b'.
  - simpl. fold (nonce_ok b k). destruct (nonce_ok b k) eqn:Hk.
    + split.
      * intros Heq. inversion Heq; subst. exists k.
        split; [lia |]. split; [exact Hk |]. split; [intros; lia |]. split; reflexivity.
      * intros (n & Hn & _ & _ & -> & ->). replace n with k by lia. reflexivity.
    + split; [discriminate |].
      intros (n & Hn & Hok & _). replace n with k in Hok by lia. congruence.
  - simpl. fold (nonce_ok b k). destruct (nonce_ok b k) eqn:Hk.
    + split.
      * intros Heq. inversion Heq; subst. exists k.
        split; [lia |]. split; [exact Hk |]. split; [intros; lia |]. split; reflexivity.
      * intros (n & Hn & _ & Hleast & -> & ->).
        destruct (Nat.eq_dec n k) as [-> | Hne]; [reflexivity |].
        assert (nonce_ok b k = false) by (apply Hleast; lia). congruence.
    + rewrite with_nonce_next, IH. split.
      * intros (n & Hn & Hok & Hleast & Hb & Hh). exists n.
        split; [lia |]. split; [exact Hok |]. split; [| split; assumption].
        intros j Hj. destruct (Nat.eq_dec j k) as [-> | Hne]; [exact Hk |].
        apply Hleast. lia.
      * intros (n & Hn & Hok & Hleast & Hb & Hh).
        assert (n <> k) by (intros ->; congruence).
        exists n. split; [lia |]. split; [exact Hok |]. split; [| split; assumption].
        intros j Hj. apply Hleast. lia.
Qed.

Lemma pow_loop_none (b : Block.t) (fuel : nat) :
  forall k,
    Blockchain.pow_loop fuel (Block.with_nonce b (Z.of_nat k))
      (Block.generate_hash (Block.with_nonce b (Z.of_nat k))) = None <->
    forall j, (k <= j <= k + fuel)%nat -> nonce_ok b j = false.
Proof.
  induction fuel as [| f IH]; intros k.
  - simpl. fold (nonce_ok b k). destruct (nonce_ok b k) eqn:Hk.
    + split; [discriminate |]. intros H. rewrite H in Hk by lia. discriminate.
    + split; [| reflexivity]. intros _ j Hj. now replace j with k by lia.
  - simpl. fold (nonce_ok b k). destruct (nonce_ok b k) eqn:Hk.
    + split; [discriminate |]. intros H. rewrite H in Hk by lia. discriminate.
    + rewrite with_nonce_next, IH. split.
      * intros H j Hj. destruct (Nat.eq_dec j k) as [-> | Hne]; [exact Hk |].
        apply H. lia.
      * intros H j Hj. apply H. lia.
Qed.

(** X4.  [proof_of_work] tries the nonces 0, 1, 2, ... in turn and stops
    at the first one whose hash starts with [difficulty] zeros: a loop of
    at most [fuel] increments returns exactly when the least such nonce is
    at most [fuel], and it returns the hash for that nonce and leaves that
    nonce in the block, whose other fields it does not touch.  It is still
    running after [fuel] increments exactly when no nonce up to [fuel] will
    do. *)
Theorem proof_of_work_least_nonce (fuel : nat) (b : Block.t) :
  (forall h b',
      Blockchain.proof_of_work fuel b = Some (h, b') <->
      exists n,
        (n <= fuel)%nat
        /\ nonce_ok b n = true
        /\ (forall j, (j < n)%nat -> nonce_ok b j = false)
        /\ b' = Block.with_nonce b (Z.of_nat n)
        /\ h = Block.generate_hash b')
  /\ (Blockchain.proof_of_work fuel b = None <->
      forall j, (j <= fuel)%nat -> nonce_ok b j = false).
Proof.
  unfold Blockchain.proof_of_work. cbv zeta. change 0%Z with (Z.of_nat 0). split.
  - intros h b'. rewrite pow_loop_from. split.
    + intros (n & Hn & Hok & Hleast & Hb & Hh). exists n.
      split; [lia |]. split; [exact Hok |]. split; [| split; assumption].
      intros j Hj. apply Hleast. lia.
    + intros (n & Hn & Hok & Hleast & Hb & Hh). exists n.
      split; [lia |]. split; [exact Hok |]. split; [| split; assumption].
      intros j Hj. apply Hleast. lia.
  - rewrite pow_loop_none. split; intros H j Hj; apply H; lia.
Qed.

End ProofOfWork.

(* ================================================================== *)
(** * The choice of the transactions to mine                            *)
(* ================================================================== *)

Section Picking.

Local Open Scope Z_scope.

Lemma insert_by_fee_perm (tx : Transaction.t) (l : list Transaction.t) :
  Permutation (Node.insert_by_fee tx l) (tx :: l).
Proof.
  induction l as [| y tl IH]; simpl; [apply Permutation_refl |].
  destruct (Transaction.fee y <=? Transaction.fee tx); [apply Permutation_refl |].
  eapply perm_trans; [apply perm_skip, IH | apply perm_swap].
Qed.

Lemma sorted_by_fee_perm (l : list Transaction.t) :
  Permutation (fold_right Node.insert_by_fee [] l) l.
Proof.
  induction l as [| tx tl IH]; simpl; [apply perm_nil |].
  eapply perm_trans; [apply insert_by_fee_perm | apply perm_skip, IH].
Qed.

Lemma insert_by_fee_sorted (tx : Transaction.t) (l : list Transaction.t) :
  StronglySorted fee_ge l -> StronglySorted fee_ge (Node.insert_by_fee tx l).
Proof.
  induction l as [| y tl IH]; simpl; intros Hs.
  - constructor; constructor.
  - apply StronglySorted_inv in Hs. destruct Hs as [Htl Hy].
    destruct (Transaction.fee y <=? Transaction.fee tx) eqn:E.
    + apply Z.leb_le in E. constructor; [constructor; assumption |].
      constructor; [exact E |].
      rewrite Forall_forall in Hy |- *. intros z Hz. specialize (Hy z Hz).
      unfold fee_ge in *. lia.
    + apply Z.leb_gt in E. constructor; [now apply IH |].
      rewrite Forall_forall in Hy |- *. intros z Hz.
      apply insert_by_fee_In in Hz. destruct Hz as [-> | Hz].
      * unfold fee_ge. lia.
      * now apply Hy.
Qed.

Lemma sorted_by_fee_sorted (l : list Transaction.t) :
  StronglySorted fee_ge (fold_right Node.insert_by_fee [] l).
Proof.
  induction l as [| tx tl IH]; simpl; [constructor | now apply insert_by_fee_sorted].
Qed.

(** Among the transactions of one fee, the sort keeps the order they had. *)
Lemma insert_by_fee_stable (f : Z) (tx : Transaction.t) (l : list Transaction.t) :
  filter (has_fee f) (Node.insert_by_fee tx l) = filter (has_fee f) (tx :: l).
Proof.
  induction l as [| y tl IH]; [reflexivity |].
  cbn [Node.insert_by_fee].
  destruct (Transaction.fee y <=? Transaction.fee tx) eqn:E; [reflexivity |].
  apply Z.leb_gt in E.
  change (filter (has_fee f) (y :: Node.insert_by_fee tx tl))
    with (if has_fee f y then y :: filter (has_fee f) (Node.insert_by_fee tx tl)
          else filter (has_fee f) (Node.insert_by_fee tx tl)).
  rewrite IH. cbn [filter].
  destruct (has_fee f y) eqn:Ey; destruct (has_fee f tx) eqn:Et; try reflexivity.
  unfold has_fee in Ey, Et. apply Z.eqb_eq in Ey, Et. lia.
Qed.

Lemma sorted_by_fee_stable (f : Z) (l : list Transaction.t) :
  filter (has_fee f) (fold_right Node.insert_by_fee [] l) = filter (has_fee f) l.
Proof.
  induction l as [| tx tl IH]; [reflexivity |].
  cbn [fold_right]. rewrite insert_by_fee_stable. cbn [filter]. now rewrite IH.
Qed.

Lemma sorted_app_inv (l1 l2 : list Transaction.t) :
  StronglySorted fee_ge (l1 ++ l2) ->
  StronglySorted fee_ge l1
  /\ forall x y, In x l1 -> In y l2 -> fee_ge x y.
Proof.
  induction l1 as [| a tl IH]; simpl; intros Hs.
  - split; [constructor | intros x y []].
  - apply StronglySorted_inv in Hs. destruct Hs as [Htl Ha].
    destruct (IH Htl) as [Hs1 Hcross]. split.
    + constructor; [exact Hs1 |].
      rewrite Forall_forall in Ha |- *. intros z Hz. apply Ha, in_or_app. now left.
    + intros x y [<- | Hx] Hy.
      * rewrite Forall_forall in Ha. apply Ha, in_or_app. now right.
      * now apply Hcross.
Qed.

(** X5.  [pick_transactions(limit)] returns the [limit] pending
    transactions of highest fee (all of them when fewer are pending), the
    highest fee first: with those it leaves out they are the mempool
    rearranged, no transaction left out carries a higher fee than one that
    is picked, and among transactions of the same fee the order of the
    mempool decides. *)
Theorem pick_transactions_takes_highest_fees (st : Node.t) (limit : nat) :
  exists rest,
    Permutation (Node.pick_transactions st limit ++ rest) (Node.mempool st)
    /\ List.length (Node.pick_transactions st limit)
       = Nat.min limit (List.length (Node.mempool st))
    /\ StronglySorted fee_ge (Node.pick_transactions st limit)
    /\ (forall x y, In x (Node.pick_transactions st limit) -> In y rest -> fee_ge x y)
    /\ (forall f, filter (has_fee f) (Node.pick_transactions st limit ++ rest)
                  = filter (has_fee f) (Node.mempool st)).
Proof.
  unfold Node.pick_transactions.
  set (sorted := fold_right Node.insert_by_fee [] (Node.mempool st)).
  exists (skipn limit sorted). rewrite firstn_skipn.
  assert (Permutation sorted (Node.mempool st)) as Hperm by apply sorted_by_fee_perm.
  assert (StronglySorted fee_ge (firstn limit sorted ++ skipn limit sorted)) as Hs
    by (rewrite firstn_skipn; apply sorted_by_fee_sorted).
  apply sorted_app_inv in Hs. destruct Hs as [Hs Hcross].
  split; [exact Hperm |].
  split; [rewrite length_firstn, (Permutation_length Hperm); reflexivity |].
  split; [exact Hs |].
  split; [exact Hcross |].
  intros f. apply sorted_by_fee_stable.
Qed.

End Picking.

(* ================================================================== *)
(** * A turn of the miner                                               *)
(* ================================================================== *)

Section Mining.

Lemma fold_fee_sum (txs : list Transaction.t) :
  forall acc,
    fold_left (fun acc tx => (acc + Transaction.fee tx)%Z) txs acc
    = (acc + Zsum (map Transaction.fee txs))%Z.
Proof.
  induction txs as [| tx tl IH]; intros acc; simpl; [lia |].
  rewrite IH. lia.
Qed.

Lemma reward_fields (pk : string) (amount fees : Z) (w : world) :
  let tx := fst (Transaction.create_reward_transaction pk amount fees w) in
  let w1 := snd (Transaction.create_reward_transaction pk amount fees w) in
  Transaction.sender_pubkey tx = Transaction.COINBASE
  /\ Transaction.receiver_pubkey tx = pk
  /\ Transaction.amount tx = (amount + fees)%Z
  /\ Transaction.fee tx = 0%Z
  /\ Transaction.signature tx = Some Transaction.COINBASE
  /\ Transaction.timestamp tx = PFloat (time_src w 0)
  /\ Transaction.tx_id tx = reward_id w
  /\ time_src w1 0 = time_src w 1.
Proof.
  unfold reward_id, Transaction.create_reward_transaction, Transaction.init, uuid4, time_time.
  cbv zeta. destruct (str_truthy (uuid_src w 0)); simpl; repeat split.
Qed.

Lemma pick_transactions_nonempty (st : Node.t) (limit : nat) :
  (0 < limit)%nat -> Node.mempool st <> [] -> Node.pick_transactions st limit <> [].
Proof.
  intros Hl Hmp Hnil. apply (f_equal (@List.length _)) in Hnil.
  unfold Node.pick_transactions in Hnil.
  rewrite length_firstn, (Permutation_length (sorted_by_fee_perm (Node.mempool st))) in Hnil.
  destruct (Node.mempool st); [contradiction | simpl in Hnil; lia].
Qed.

Lemma nonce_ok_sealed (b : Block.t) (n : Z) (h : string) (j : nat) :
  nonce_ok (Block.with_hash (Block.with_nonce b n) h) j = nonce_ok b j.
Proof. reflexivity. Qed.

(** A block that follows the tip and is sealed with a hash that has the
    zeros is appended. *)
Lemma add_block_sealed (chain : list Block.t) (tip b : Block.t) :
  Blockchain.last_block chain = Ok tip ->
  Block.prev_hash b = Block.hash tip ->
  Blockchain.startswith (Block.generate_hash b)
    (Blockchain.zeros Blockchain.difficulty) = true ->
  Blockchain.add_block chain (Block.with_hash b (Block.generate_hash b))
    (JStr (Block.generate_hash b))
  = Ok (true, chain ++ [Block.with_hash b (Block.generate_hash b)]).
Proof.
  intros Htip Hlink Hz. rewrite add_block_str, Htip. cbn [bind].
  change (Block.prev_hash (Block.with_hash b (Block.generate_hash b)))
    with (Block.prev_hash b).
  rewrite Hlink, String.eqb_refl. cbn [negb].
  rewrite generate_hash_with_hash, Hz, String.eqb_refl. cbn [andb].
  destruct b; reflexivity.
Qed.

(** What a turn of [mine] does, in full. *)
Lemma mine_block_shape (fuel : nat) (st : Node.t) (w : world) :
  (Node.is_miner st = false \/ Node.mempool st = [] ->
   Node.mine fuel st w = Some (Ok (st, w)))
  /\ (Node.is_miner st = true ->
      Node.mempool st <> [] ->
      forall st' w',
        Node.mine fuel st w = Some (Ok (st', w')) ->
        let picked := Node.pick_transactions st (Blockchain.BLOCK_SIZE_LIMIT - 1) in
        exists tip reward b,
          Blockchain.last_block (Node.blockchain st) = Ok tip
          /\ Node.blockchain st' = Node.blockchain st ++ [b]
          /\ Node.mempool st' = remove_all picked (Node.mempool st)
          /\ Block.transactions b = map Block.Tx (reward :: picked)
          /\ picked <> []
          /\ (List.length picked <= Blockchain.BLOCK_SIZE_LIMIT - 1)%nat
          /\ Block.index b = (Block.index tip + 1)%Z
          /\ Block.prev_hash b = Block.hash tip
          /\ Block.timestamp b = PFloat (time_src w 1)
          /\ Blockchain.is_valid_block b (JStr (Block.hash b)) = Ok true
          /\ (exists n, (n <= fuel)%nat
                        /\ Block.nonce b = Z.of_nat n
                        /\ forall j, (j < n)%nat -> nonce_ok b j = false)
          /\ Transaction.sender_pubkey reward = Transaction.COINBASE
          /\ Transaction.receiver_pubkey reward = Node.public_key_str st
          /\ Transaction.amount reward
             = (Blockchain.MINING_REWARD + Zsum (map Transaction.fee picked))%Z
          /\ Transaction.fee reward = 0%Z
          /\ Transaction.signature reward = Some Transaction.COINBASE
          /\ Transaction.timestamp reward = PFloat (time_src w 0)
          /\ Transaction.tx_id reward = reward_id w).
Proof.
  split.
  - unfold Node.mine. intros [Hm | Hmp].
    + rewrite Hm. reflexivity.
    + rewrite Hmp. destruct (negb (Node.is_miner st)); reflexivity.
  - intros Hminer Hpending st' w' H. cbv zeta.
    pose proof (pick_transactions_nonempty st (Blockchain.BLOCK_SIZE_LIMIT - 1)
                  ltac:(unfold Blockchain.BLOCK_SIZE_LIMIT; lia) Hpending) as Hne.
    unfold Node.mine in H. rewrite Hminer in H. cbn [negb] in H.
    destruct (Node.mempool st) as [| tx0 mp0] eqn:Hmp; [contradiction |].
    rewrite <- Hmp in *.
    remember (Node.pick_transactions st (Blockchain.BLOCK_SIZE_LIMIT - 1)) as picked
      eqn:Hpick.
    destruct picked as [| p0 ps]; [contradiction |].
    rewrite fold_fee_sum in H.
    pose proof (reward_fields (Node.public_key_str st) Blockchain.MINING_REWARD
                  (0 + Zsum (map Transaction.fee (p0 :: ps))) w) as Hrew.
    destruct (Transaction.create_reward_transaction
                (Node.public_key_str st) Blockchain.MINING_REWARD
                (0 + Zsum (map Transaction.fee (p0 :: ps))) w) as [reward w1].
    cbv zeta in Hrew. cbn [fst snd] in Hrew.
    destruct Hrew as (Hsender & Hreceiver & Hamount & Hfee & Hsig & Hts & Hid & Hclock).
    destruct (Blockchain.last_block (Node.blockchain st)) as [tip |] eqn:Htip;
      [| discriminate].
    unfold Block.init, time_time in H.
    set (new_block :=
           Block.with_hash
             (Block.Make (Block.index tip + 1) (PFloat (time_src w1 0))
                (map Block.Tx (reward :: p0 :: ps)) (Block.hash tip) 0 EmptyString)
             (Block.generate_hash
                (Block.Make (Block.index tip + 1) (PFloat (time_src w1 0))
                   (map Block.Tx (reward :: p0 :: ps)) (Block.hash tip) 0 EmptyString)))
      in H.
    destruct (Blockchain.proof_of_work fuel new_block) as [[h mined] |] eqn:Hpow;
      [| discriminate].
    unfold Blockchain.proof_of_work in Hpow. cbv zeta in Hpow.
    change 0%Z with (Z.of_nat 0) in Hpow at 1 2.
    apply pow_loop_from in Hpow.
    destruct Hpow as (n & Hn & Hok & Hleast & -> & ->).
    set (mined := Block.with_nonce new_block (Z.of_nat n)) in *.
    assert (Blockchain.add_block (Node.blockchain st)
              (Block.with_hash mined (Block.generate_hash mined))
              (JStr (Block.generate_hash mined))
            = Ok (true, Node.blockchain st
                        ++ [Block.with_hash mined (Block.generate_hash mined)])) as Hadd.
    { apply add_block_sealed with (tip := tip); [exact Htip | reflexivity | exact Hok]. }
    rewrite Hadd in H. inversion H; subst st' w'; clear H.
    exists tip, reward, (Block.with_hash mined (Block.generate_hash mined)).
    split; [reflexivity |].
    split; [reflexivity |].
    split; [reflexivity |].
    split; [reflexivity |].
    split; [exact Hne |].
    split; [rewrite Hpick; unfold Node.pick_transactions; rewrite length_firstn; lia |].
    split; [reflexivity |].
    split; [reflexivity |].
    split; [simpl; now rewrite Hclock |].
    split.
    { rewrite is_valid_block_str.
      change (Block.hash (Block.with_hash mined (Block.generate_hash mined)))
        with (Block.generate_hash mined).
      rewrite generate_hash_with_hash.
      unfold nonce_ok in Hok. fold mined in Hok. rewrite Hok, String.eqb_refl.
      reflexivity. }
    split.
    { exists n. split; [lia |]. split; [reflexivity |].
      intros j Hj. unfold mined. rewrite nonce_ok_sealed. apply Hleast. lia. }
    split; [exact Hsender |].
    split; [exact Hreceiver |].
    split; [rewrite Hamount; lia |].
    split; [exact Hfee |].
    split; [exact Hsig |].
    split; [exact Hts | exact Hid].
Qed.


End Mining.

(* ================================================================== *)
(** * The mempool                                                       *)
(* ================================================================== *)

Section Pool.

Variable ecdsa_verify : string -> string -> string -> bool.
Variable set_rank : string -> N.

Local Open Scope Z_scope.






Lemma filter_all {A : Type} (p : A -> bool) (l : list A) :
  (forall x, In x l -> p x = true) -> filter p l = l.
Proof.
  induction l as [| a tl IH]; intros H; simpl; [reflexivity |].
  rewrite (H a (or_introl eq_refl)), IH; [reflexivity |].
  intros x Hx. apply H. now right.
Qed.

Lemma filter_twice {A : Type} (p q : A -> bool) (l : list A) :
  filter q (filter p l) = filter (fun x => p x && q x) l.
Proof.
  induction l as [| a tl IH]; simpl; [reflexivity |].
  destruct (p a); simpl; [destruct (q a); now rewrite IH | exact IH].
Qed.

Lemma NoDup_ids_filter (p : Transaction.t -> bool) (mp : list Transaction.t) :
  NoDup (map Transaction.tx_id mp) -> NoDup (map Transaction.tx_id (filter p mp)).
Proof.
  induction mp as [| y tl IH]; simpl; intros Hnd; [constructor |].
  inversion Hnd as [| ? ? Hnotin Hnd']; subst.
  destruct (p y); simpl; [| now apply IH].
  constructor; [| now apply IH].
  intros H. apply Hnotin. apply in_map_iff in H. destruct H as (x & E & Hx).
  apply filter_In in Hx. apply in_map_iff. exists x. tauto.
Qed.

(** One turn of the removal loops, on a mempool of distinct identifiers:
    the transactions with the identifier of [tx] go. *)
Lemma remove_one_filter (tx : Transaction.t) (mp : list Transaction.t) :
  NoDup (map Transaction.tx_id mp) ->
  (if Node.mem tx mp then Node.remove tx mp else mp)
  = filter (fun y => negb (Transaction.eqb y tx)) mp.
Proof.
  induction mp as [| y tl IH]; intros Hnd; [reflexivity |].
  inversion Hnd as [| ? ? Hnotin Hnd']; subst.
  cbn [Node.mem existsb Node.remove filter]. fold (Node.mem tx tl).
  destruct (Transaction.eqb y tx) eqn:E; cbn [orb negb].
  - symmetry. apply filter_all. intros x Hx. apply negb_true_iff.
    unfold Transaction.eqb in *. apply String.eqb_eq in E. apply String.eqb_neq.
    intros Hid. apply Hnotin. rewrite E, <- Hid. now apply in_map.
  - specialize (IH Hnd'). destruct (Node.mem tx tl); now rewrite <- IH.
Qed.

Lemma remove_all_filter (txs : list Transaction.t) :
  forall mp,
    NoDup (map Transaction.tx_id mp) ->
    remove_all txs mp
    = filter (fun y => negb (Node.id_in (Transaction.tx_id y) (map Transaction.tx_id txs)))
             mp.
Proof.
  unfold remove_all.
  induction txs as [| tx tl IH]; intros mp Hnd.
  - simpl. symmetry. now apply filter_all.
  - cbn [fold_left]. rewrite remove_one_filter by exact Hnd.
    rewrite IH by (now apply NoDup_ids_filter). rewrite filter_twice.
    apply filter_ext. intros y. cbn [map Node.id_in existsb].
    unfold Transaction.eqb. rewrite (String.eqb_sym (Transaction.tx_id y)).
    rewrite negb_orb. reflexivity.
Qed.

(** X9.  When [receive_block] returns true it has appended the block, read
    nothing from the world and asked no peer; if the pending transactions
    had distinct identifiers, the mempool is then the old one without the
    transactions whose identifier is that of a transaction of the block,
    the others in the order they had. *)
Theorem accepted_block_clears_pending (st st' : Node.t) (b : Block.t)
    (resps : list json) (w w' : world) :
  NoDup (map Transaction.tx_id (Node.mempool st)) ->
  Node.receive_block ecdsa_verify set_rank st b resps w = Ok (true, st', w') ->
  Node.blockchain st' = Node.blockchain st ++ [b]
  /\ w' = w
  /\ Node.mempool st'
     = filter (fun tx => negb (Node.id_in (Transaction.tx_id tx) (block_tx_ids b)))
              (Node.mempool st).
Proof.
  intros Hnd H. unfold Node.receive_block in H.
  destruct (Blockchain.add_block (Node.blockchain st) b (JStr (Block.hash b)))
    as [[[|] chain'] |] eqn:Hadd; simpl in H; [| | discriminate].
  - inversion H; subst st' w'; clear H. simpl.
    apply add_block_true in Hadd. destruct Hadd as (_ & -> & _).
    rewrite with_hash_same. split; [reflexivity |]. split; [reflexivity |].
    rewrite remove_included_item_txs. now apply remove_all_filter.
  - destruct (Node.request_chain_from_peers ecdsa_verify set_rank st resps w).
    discriminate.
Qed.

Lemma reinject_incl (chain : list Block.t) (d : list (string * Transaction.t))
    (tx : Transaction.t) (ids : list string) :
  forall mp, In tx mp -> In tx (Node.reinject ecdsa_verify chain d ids mp).
Proof.
  unfold Node.reinject.
  induction ids as [| id tl IH]; intros mp Hin; simpl; [exact Hin |].
  apply IH. destruct (Node.dict_get id d) as [tx' |]; [| exact Hin].
  destruct (negb (Node.verify_transaction ecdsa_verify chain mp tx')); [exact Hin |].
  destruct (negb (Node.mem tx' mp)); [| exact Hin].
  apply in_or_app. now left.
Qed.

Lemma reinject_from (chain : list Block.t) (d : list (string * Transaction.t))
    (tx : Transaction.t) (ids : list string) :
  forall mp,
    In tx (Node.reinject ecdsa_verify chain d ids mp) ->
    In tx mp \/ exists id, Node.dict_get id d = Some tx.
Proof.
  unfold Node.reinject.
  induction ids as [| id tl IH]; intros mp Hin; simpl in Hin; [now left |].
  apply IH in Hin. destruct Hin as [Hin | Hin]; [| now right].
  destruct (Node.dict_get id d) as [tx' |] eqn:Hget; [| now left].
  destruct (negb (Node.verify_transaction ecdsa_verify chain mp tx')); [now left |].
  destruct (negb (Node.mem tx' mp)); [| now left].
  apply in_app_or in Hin. destruct Hin as [Hin | [<- | []]]; [now left |].
  right. now exists id.
Qed.

Lemma dict_set_values (k : string) (v tx : Transaction.t)
    (d : list (string * Transaction.t)) :
  In tx (map snd (Node.dict_set k v d)) -> tx = v \/ In tx (map snd d).
Proof.
  induction d as [| [k' v'] tl IH]; simpl.
  - intros [<- | []]. now left.
  - destruct (k' =? k)%string; simpl.
    + intros [<- | Hin]; [now left | right; now right].
    + intros [<- | Hin]; [right; now left |].
      destruct (IH Hin) as [-> | Hin']; [now left | right; now right].
Qed.

Lemma dict_get_value (k : string) (tx : Transaction.t) (d : list (string * Transaction.t)) :
  Node.dict_get k d = Some tx -> In tx (map snd d).
Proof.
  induction d as [| [k' v'] tl IH]; simpl; [discriminate |].
  destruct (k' =? k)%string; [intros H; inversion H; now left | intros H; right; auto].
Qed.

Lemma build_tx_map_values (chain : list Block.t) (tx : Transaction.t) :
  In tx (map snd (Node.build_tx_map chain)) -> In tx (Node.chain_txs chain).
Proof.
  unfold Node.build_tx_map.
  assert (forall txs d,
             In tx (map snd (fold_left
                               (fun d tx => Node.dict_set (Transaction.tx_id tx) tx d) txs d)) ->
             In tx (map snd d) \/ In tx txs) as H.
  { induction txs as [| x tl IH]; intros d Hin; simpl in Hin; [now left |].
    apply IH in Hin. destruct Hin as [Hin | Hin]; [| right; now right].
    apply dict_set_values in Hin. destruct Hin as [-> | Hin]; [right; now left | now left]. }
  intros Hin. apply H in Hin. destruct Hin as [[] | Hin]. exact Hin.
Qed.

(** X10.  Fork resolution loses no pending transaction and invents none:
    after [handle_chain_response] has decoded a chain, every transaction
    that was pending and whose identifier is not in a block of that chain
    after the first is still pending, and every transaction that is pending
    afterwards was pending before or was in a block of the old chain after
    the first. *)
Theorem adopt_chain_keeps_pending (st : Node.t) (c : list Block.t) (tx : Transaction.t) :
  (In tx (Node.mempool st) ->
   Node.id_in (Transaction.tx_id tx) (Node.build_tx_ids c) = false ->
   In tx (Node.mempool (Node.adopt_chain ecdsa_verify set_rank st c)))
  /\ (In tx (Node.mempool (Node.adopt_chain ecdsa_verify set_rank st c)) ->
      In tx (Node.mempool st) \/ In tx (Node.chain_txs (Node.blockchain st))).
Proof.
  unfold Node.adopt_chain, Blockchain.get_chain_copy.
  destruct (Blockchain.replace_chain (Node.blockchain st) c) as [[|] chain']; simpl.
  - split.
    + intros Hin Hid. apply reinject_incl. apply filter_In. split; [exact Hin |].
      now rewrite Hid.
    + intros Hin. apply reinject_from in Hin. destruct Hin as [Hin | [id Hget]].
      * left. apply filter_In in Hin. tauto.
      * right. apply build_tx_map_values. eapply dict_get_value. exact Hget.
  - split; auto.
Qed.

(** X11.  What a block does to the balances: once [add_block] has
    appended [b], [get_balance] of every key has grown by the amounts the
    transactions of [b] send to the key and shrunk by the amounts and fees
    of those the key sends. *)
Theorem appended_block_moves_balances (chain chain' : list Block.t) (b : Block.t)
    (h pk : string) :
  Blockchain.add_block chain b (JStr h) = Ok (true, chain') ->
  Blockchain.get_balance chain' pk
  = Blockchain.get_balance chain pk
    + credited pk (Node.item_txs (Block.transactions b))
    - debited pk (Node.item_txs (Block.transactions b)).
Proof.
  intros Hadd. apply add_block_true in Hadd. destruct Hadd as (Hne & -> & _).
  unfold Blockchain.get_balance. rewrite !apply_blocks_sum.
  destruct chain as [| first rest]; [contradiction |].
  change (tl ((first :: rest) ++ [Block.with_hash b h])) with (rest ++ [Block.with_hash b h]).
  cbn [tl]. rewrite all_chain_txs_snoc, credited_app, debited_app.
  change (Block.transactions (Block.with_hash b h)) with (Block.transactions b). lia.
Qed.

End Pool.

(* ================================================================== *)
(** * Messages between nodes                                            *)
(* ================================================================== *)

Section Messages.

Variable ecdsa_verify : string -> string -> string -> bool.
Variable set_rank : string -> N.

Local Open Scope string_scope.


(** X13.  [handle_connection] acts on three types of message only.  A
    message that is no dict, has no [type], or has a type other than
    [transaction], [block] and [create_transaction] leaves the node and the
    world as they are: so do the [get_chain] request of a peer (which
    [send_chain] answers) and the [get_pubkey] request of
    [simulate_transactions.py] (which nothing answers). *)
Theorem handle_connection_ignores_other_types (st : Node.t) (msg : json)
    (resps : list json) (w : world) :
  (forall fields ty,
      msg = JObj fields ->
      get "type" fields = Some (JStr ty) ->
      ty <> "transaction" /\ ty <> "block" /\ ty <> "create_transaction") ->
  Node.handle_connection ecdsa_verify set_rank st msg resps w = (st, w).
Proof.
  intros Hty. unfold Node.handle_connection.
  destruct msg as [| | | | | fields]; try reflexivity.
  destruct (get "type" fields) as [[| | | ty | |] |] eqn:Hget; try reflexivity.
  destruct (Hty fields ty eq_refl Hget) as (H1 & H2 & H3).
  apply String.eqb_neq in H1, H2, H3. rewrite H1, H2, H3. reflexivity.
Qed.

(** X14.  A gossiped transaction arrives as it left: a node that handles
    the message [gossip_transaction] builds for a transaction with a
    non-empty [tx_id] and a timestamp that is not zero hands that very
    transaction to [add_transaction], and reads nothing from the world. *)
Theorem gossiped_transaction_is_added (st : Node.t) (tx : Transaction.t)
    (resps : list json) (w : world) :
  str_truthy (Transaction.tx_id tx) = true ->
  pynum_truthy (Transaction.timestamp tx) = true ->
  Node.handle_connection ecdsa_verify set_rank st (Node.gossip_transaction tx) resps w
  = (snd (Node.add_transaction ecdsa_verify st tx), w).
Proof.
  intros Hid Hts. unfold Node.handle_connection, Node.gossip_transaction.
  cbn [get String.eqb Ascii.eqb Bool.eqb getitem].
  rewrite (from_dict_to_dict tx w Hid Hts). reflexivity.
Qed.

(** X15.  A block one node has appended is appended by every peer that has
    the same tip: when the peer handles the message [gossip_block] builds
    for it, its chain grows by that block, the transactions of the block
    leave its mempool, and it asks no peer for a chain.  The entries of the
    block are taken to be stable under the round trip of the message. *)
Theorem accepted_block_propagates (st peer : Node.t) (b : Block.t)
    (chain' : list Block.t) (resps : list json) (w : world) :
  forallb item_stable (Block.transactions b) = true ->
  Blockchain.add_block (Node.blockchain st) b (JStr (Block.hash b)) = Ok (true, chain') ->
  Blockchain.last_block (Node.blockchain peer) = Blockchain.last_block (Node.blockchain st) ->
  Node.handle_connection ecdsa_verify set_rank peer (Node.gossip_block b) resps w
  = (Node.Make (Node.name peer) (Node.is_miner peer) (Node.public_key_str peer)
       (Node.blockchain peer ++ [b])
       (Node.remove_included (Block.transactions b) (Node.mempool peer)),
     w).
Proof.
  intros Hst Hadd Htip. unfold Node.handle_connection, Node.gossip_block.
  cbn [get String.eqb Ascii.eqb Bool.eqb getitem].
  rewrite (block_from_dict_to_dict b w Hst).
  apply add_block_true in Hadd. destruct Hadd as (_ & _ & Hv & tip & Hlast & Hlink).
  unfold Node.receive_block, Blockchain.add_block.
  rewrite Htip, Hlast. cbn [bind]. rewrite Hlink, String.eqb_refl, Hv. cbn [negb].
  rewrite with_hash_same. reflexivity.
Qed.

Lemma blocks_from_dict_to_dict (chain : list Block.t) (w : world) :
  forallb (fun b => forallb item_stable (Block.transactions b)) chain = true ->
  Node.blocks_from_dict (map Block.to_dict chain) w = (Ok chain, w).
Proof.
  induction chain as [| b tl IH]; intros Hst; [reflexivity |].
  apply andb_true_iff in Hst. destruct Hst as [Hb Htl].
  cbn [map Node.blocks_from_dict].
  rewrite (block_from_dict_to_dict b w Hb), (IH Htl). reflexivity.
Qed.


End Messages.

(* ================================================================== *)
(** * The chain file                                                    *)
(* ================================================================== *)

Section ChainFile.

Local Open Scope string_scope.

Lemma genesis_chain_stable :
  forallb (fun b => forallb item_stable (Block.transactions b)) [genesis] = true.
Proof. reflexivity. Qed.

(** X17.  The chain file gives back what was saved.  [load_blockchain] on
    the file [save_blockchain] wrote for a chain of stable entries installs
    that chain when [is_valid_chain] accepts it, whatever its length
    against the chain it replaces, keeps the mempool and reads nothing from
    the world; a chain that is not valid, a missing file or one that is
    not JSON leave the node as it is.  So a node constructed on no file, or
    on a file that is not JSON, comes up on the genesis alone, and a node
    constructed on the file of a valid chain comes up on that chain with an
    empty mempool; only a missing file is written. *)
Theorem saved_chain_is_loaded_back (st0 st : Node.t) (name pk : string) (is_miner : bool)
    (w : world) :
  (forallb (fun b => forallb item_stable (Block.transactions b)) (Node.blockchain st) = true ->
   Node.load_blockchain st0 (Node.save_blockchain st) w
   = (if Blockchain.is_valid_chain (Node.blockchain st)
      then Node.Make (Node.name st0) (Node.is_miner st0) (Node.public_key_str st0)
             (Node.blockchain st) (Node.mempool st0)
      else st0,
      w))
  /\ Node.load_blockchain st0 Node.NoFile w = (st0, w)
  /\ Node.load_blockchain st0 Node.Garbled w = (st0, w)
  /\ Node.init name is_miner pk Node.NoFile w
     = (Node.fresh name is_miner pk, Node.save_blockchain (Node.fresh name is_miner pk), w)
  /\ Node.init name is_miner pk Node.Garbled w
     = (Node.fresh name is_miner pk, Node.Garbled, w)
  /\ (forallb (fun b => forallb item_stable (Block.transactions b)) (Node.blockchain st) = true ->
      Blockchain.is_valid_chain (Node.blockchain st) = true ->
      Node.init name is_miner pk (Node.save_blockchain st) w
      = (Node.Make name is_miner pk (Node.blockchain st) [], Node.save_blockchain st, w)).
Proof.
  assert (forall s0 s,
             forallb (fun b => forallb item_stable (Block.transactions b)) (Node.blockchain s)
             = true ->
             Node.load_blockchain s0 (Node.save_blockchain s) w
             = (if Blockchain.is_valid_chain (Node.blockchain s)
                then Node.Make (Node.name s0) (Node.is_miner s0) (Node.public_key_str s0)
                       (Node.blockchain s) (Node.mempool s0)
                else s0,
                w)) as Hload.
  { intros s0 s Hst.
    unfold Node.load_blockchain, Node.save_blockchain, Node.decode_chain,
      Blockchain.get_chain_copy.
    rewrite (blocks_from_dict_to_dict _ w Hst).
    destruct (Blockchain.is_valid_chain (Node.blockchain s)); reflexivity. }
  split; [apply Hload |].
  split; [reflexivity |].
  split; [reflexivity |].
  split.
  { unfold Node.init. rewrite blockchain_init_genesis.
    cbn [Node.ensure_blockchain_file].
    rewrite (Hload _ (Node.Make name is_miner pk [genesis] []) genesis_chain_stable).
    reflexivity. }
  split.
  { unfold Node.init. rewrite blockchain_init_genesis. reflexivity. }
  intros Hst Hv. unfold Node.init. rewrite blockchain_init_genesis.
  unfold Node.save_blockchain at 1. cbn [Node.ensure_blockchain_file].
  fold (Node.save_blockchain st). rewrite (Hload _ _ Hst), Hv. reflexivity.
Qed.

End ChainFile.

(* ================================================================== *)
(** * Decoding dictionaries that lack keys                              *)
(* ================================================================== *)

Section MissingKeys.

Local Open Scope string_scope.

(** X18.  [Transaction.from_dict] on a dictionary that lacks keys.  The
    keys [sender_pubkey], [receiver_pubkey], [amount] and [tx_id] are
    subscripted, in that order: the first of them that is missing raises
    [KeyError] for it, and nothing has been read from the world by then.
    The keys [fee], [signature] and [timestamp] are read with [get]: a
    dictionary without them gives a transaction of fee 0, with no
    signature, stamped with the clock.  Anything but a dictionary raises
    [TypeError]. *)
Theorem transaction_from_dict_missing_keys (fields : list (string * json)) (w : world) :
  (get "sender_pubkey" fields = None ->
   Transaction.from_dict (JObj fields) w = (Raise (KeyError "sender_pubkey"), w))
  /\ (forall s,
         get "sender_pubkey" fields = Some (JStr s) ->
         get "receiver_pubkey" fields = None ->
         Transaction.from_dict (JObj fields) w = (Raise (KeyError "receiver_pubkey"), w))
  /\ (forall s r,
         get "sender_pubkey" fields = Some (JStr s) ->
         get "receiver_pubkey" fields = Some (JStr r) ->
         get "amount" fields = None ->
         Transaction.from_dict (JObj fields) w = (Raise (KeyError "amount"), w))
  /\ (forall s r a,
         get "sender_pubkey" fields = Some (JStr s) ->
         get "receiver_pubkey" fields = Some (JStr r) ->
         get "amount" fields = Some (JNum (PInt a)) ->
         (get "fee" fields = None \/ exists f, get "fee" fields = Some (JNum (PInt f))) ->
         get "tx_id" fields = None ->
         Transaction.from_dict (JObj fields) w = (Raise (KeyError "tx_id"), w))
  /\ (forall s r a id,
         get "sender_pubkey" fields = Some (JStr s) ->
         get "receiver_pubkey" fields = Some (JStr r) ->
         get "amount" fields = Some (JNum (PInt a)) ->
         get "tx_id" fields = Some (JStr id) ->
         str_truthy id = true ->
         get "fee" fields = None ->
         get "signature" fields = None ->
         get "timestamp" fields = None ->
         Transaction.from_dict (JObj fields) w
         = (Ok (Transaction.Make id s r a 0 (PFloat (time_src w 0)) None),
            snd (time_time w)))
  /\ (forall j, (forall f, j <> JObj f) ->
                Transaction.from_dict j w = (Raise TypeError, w)).
Proof.
  unfold Transaction.from_dict, Transaction.read_args, getitem.
  split; [intros ->; reflexivity |].
  split; [intros s -> ->; reflexivity |].
  split; [intros s r -> -> ->; reflexivity |].
  split; [intros s r a -> -> -> [-> | [f ->]] ->; reflexivity |].
  split.
  - intros s r a id -> -> -> -> Hid -> -> ->. cbn [bind Transaction.as_str Transaction.as_int
      Transaction.as_int_default Transaction.as_opt_str Transaction.as_opt_num].
    unfold Transaction.init. cbn [Transaction.a_tx_id Transaction.a_timestamp].
    rewrite Hid. reflexivity.
  - intros j Hj. destruct j; try reflexivity. now destruct (Hj fields0).
Qed.

Lemma items_from_dict_clock (l : list json) :
  forall w items w',
    Block.items_from_dict l w = (Ok items, w') ->
    exists n, forall k, time_src w' k = time_src w (n + k)%nat.
Proof.
  induction l as [| j tl IH]; intros w items w' H; simpl in H.
  - inversion H; subst. now exists 0%nat.
  - destruct (Block.item_from_dict j w) as [[i |] w1] eqn:Hi; [| discriminate].
    destruct (Block.items_from_dict tl w1) as [[rest |] w2] eqn:Hrest; [| discriminate].
    inversion H; subst. destruct (IH _ _ _ Hrest) as [n Hn].
    assert (exists m, forall k, time_src w1 k = time_src w (m + k)%nat) as [m Hm].
    { unfold Block.item_from_dict in Hi.
      destruct j as [| | | | | fields]; try (inversion Hi; subst; now exists 0%nat).
      destruct (has_key "tx_id" fields); [| inversion Hi; subst; now exists 0%nat].
      unfold Transaction.from_dict in Hi.
      destruct (Transaction.read_args fields) as [a |]; [| discriminate].
      unfold Transaction.init, uuid4, time_time in Hi.
      destruct (Transaction.a_tx_id a) as [s |]; [destruct (str_truthy s) |];
        (destruct (Transaction.a_timestamp a) as [t |]; [destruct (pynum_truthy t) |]);
        inversion Hi; subst; simpl;
        solve [now exists 0%nat | exists 1%nat; intros k; reflexivity]. }
    exists (m + n)%nat. intros k. rewrite Hn, Hm. f_equal. lia.
Qed.

(** X19.  [Block.from_dict] on a dictionary that lacks keys.  Without
    [transactions] it raises [KeyError].  When it returns a block: a
    dictionary without [hash] (or with [None] there) gives a block whose
    hash is the hash of its other fields, while a hash that is given is
    taken as it is; without [nonce] the nonce is 0; a timestamp that is
    given is kept, zero included (the constructor tests it against [None],
    not for truth), and without one the block is stamped with a reading of
    the clock. *)
Theorem block_from_dict_missing_keys (fields : list (string * json)) (w : world) :
  (get "transactions" fields = None ->
   Block.from_dict (JObj fields) w = (Raise (KeyError "transactions"), w))
  /\ (forall b w',
         Block.from_dict (JObj fields) w = (Ok b, w') ->
         (get "hash" fields = None \/ get "hash" fields = Some JNull -> sealed b)
         /\ (forall h, get "hash" fields = Some (JStr h) -> Block.hash b = h)
         /\ (get "nonce" fields = None -> Block.nonce b = 0%Z)
         /\ (forall n, get "timestamp" fields = Some (JNum n) -> Block.timestamp b = n)
         /\ (get "timestamp" fields = None \/ get "timestamp" fields = Some JNull ->
             exists k, Block.timestamp b = PFloat (time_src w k))).
Proof.
  unfold Block.from_dict, getitem. split.
  - intros ->. reflexivity.
  - intros b w' H.
    destruct (get "transactions" fields) as [jl |]; [| discriminate].
    cbn [bind] in H. destruct (Block.as_list jl) as [l |]; [| discriminate].
    destruct (Block.items_from_dict l w) as [[txs |] w1] eqn:Hitems; [| discriminate].
    destruct (items_from_dict_clock _ _ _ _ Hitems) as [k Hk].
    destruct (get "index" fields) as [ji |]; [| discriminate].
    cbn [bind] in H. destruct (Transaction.as_int ji) as [idx |]; [| discriminate].
    destruct (get "prev_hash" fields) as [jp |]; [| discriminate].
    cbn [bind] in H. destruct (Transaction.as_str jp) as [ph |]; [| discriminate].
    destruct (Transaction.as_opt_num (get "timestamp" fields)) as [ts |] eqn:Hts;
      [| discriminate].
    cbn [bind] in H.
    destruct (Transaction.as_int_default (get "nonce" fields) 0) as [n |] eqn:Hn;
      [| discriminate].
    cbn [bind] in H.
    destruct (Transaction.as_opt_str (get "hash" fields)) as [h |] eqn:Hh; [| discriminate].
    cbn [bind] in H. unfold Block.init, time_time in H.
    split; [| split; [| split; [| split]]].
    + intros [E | E]; rewrite E in Hh; inversion Hh; subst h;
        destruct ts; inversion H; subst; reflexivity.
    + intros h0 E. rewrite E in Hh. inversion Hh; subst h.
      destruct ts; inversion H; subst; reflexivity.
    + intros E. rewrite E in Hn. inversion Hn; subst n.
      destruct ts; destruct h; inversion H; subst; reflexivity.
    + intros t E. rewrite E in Hts. inversion Hts; subst ts.
      destruct h; inversion H; subst; reflexivity.
    + intros [E | E]; rewrite E in Hts; inversion Hts; subst ts;
        exists k; destruct h; inversion H; subst; simpl; rewrite Hk;
        f_equal; f_equal; lia.
Qed.

End MissingKeys.

(* ================================================================== *)
(** * The peer list                                                     *)
(* ================================================================== *)

Section Peers.

Lemma peer_eqb_eq (a b : string * Z) : Node.peer_eqb a b = true <-> a = b.
Proof.
  unfold Node.peer_eqb. destruct a as [h p], b as [h' p']. simpl.
  rewrite andb_true_iff, String.eqb_eq, Z.eqb_eq. split.
  - intros [-> ->]. reflexivity.
  - intros H. inversion H. auto.
Qed.

Lemma known_peer (x : string * Z) (peers : list (string * Z)) :
  existsb (Node.peer_eqb x) peers = true <-> In x peers.
Proof.
  rewrite existsb_exists. split.
  - intros (y & Hy & E). apply peer_eqb_eq in E. now subst.
  - intros H. exists x. split; [exact H | now apply peer_eqb_eq].
Qed.

(** What one call of [add_peer] keeps and what it adds. *)
Lemma add_peer_step (port : Z) (peers : list (string * Z)) (host : string) (p : Z) :
  NoDup peers ->
  (forall x, In x peers -> snd x <> port) ->
  NoDup (Node.add_peer port peers host p)
  /\ (forall x, In x (Node.add_peer port peers host p) -> snd x <> port)
  /\ (forall x, In x (Node.add_peer port peers host p) <->
                In x peers \/ (x = (host, p) /\ p <> port)).
Proof.
  intros Hnd Hport. unfold Node.add_peer.
  destruct (existsb (Node.peer_eqb (host, p)) peers) eqn:Hk; cbn [negb andb].
  - apply known_peer in Hk. split; [exact Hnd |]. split; [exact Hport |].
    intros x. split; [now left |]. intros [H | [-> _]]; assumption.
  - assert (~ In (host, p) peers) as Hnew
        by (intros H; apply known_peer in H; congruence).
    destruct (p =? port)%Z eqn:Ep; cbn [negb].
    + apply Z.eqb_eq in Ep. split; [exact Hnd |]. split; [exact Hport |].
      intros x. split; [now left |]. intros [H | [_ H]]; [assumption | contradiction].
    + apply Z.eqb_neq in Ep. split; [| split].
      * apply NoDup_app; [exact Hnd | constructor; [intros [] | constructor] |].
        intros x Hx [<- | []]. contradiction.
      * intros x Hx. apply in_app_or in Hx. destruct Hx as [Hx | [<- | []]]; auto.
      * intros x. rewrite in_app_iff. simpl. split.
        -- intros [H | [<- | []]]; auto.
        -- intros [H | [-> _]]; auto.
Qed.

(** X20.  The peer list never holds a peer twice and never holds the port
    the node listens on, on whatever host: [add_peer] keeps both, and so
    the list [run_node.py] builds from its [--peers] holds, once each and
    on [localhost], exactly the ports given that are not the node's own. *)
Theorem peer_list_is_clean (port : Z) (peers : list (string * Z)) (host : string)
    (p : Z) (peer_ports : list Z) :
  (NoDup peers ->
   (forall x, In x peers -> snd x <> port) ->
   NoDup (Node.add_peer port peers host p)
   /\ (forall x, In x (Node.add_peer port peers host p) -> snd x <> port)
   /\ (forall x, In x (Node.add_peer port peers host p) <->
                 In x peers \/ (x = (host, p) /\ p <> port)))
  /\ NoDup (RunNode.add_peers port peer_ports)
  /\ (forall x, In x (RunNode.add_peers port peer_ports) <->
                fst x = "localhost"%string /\ In (snd x) peer_ports /\ snd x <> port).
Proof.
  split; [apply add_peer_step |].
  unfold RunNode.add_peers.
  assert (forall ports peers0,
             NoDup peers0 ->
             (forall x, In x peers0 -> snd x <> port) ->
             let r := fold_left
                        (fun peers peer_port =>
                           Node.add_peer port peers "localhost" peer_port) ports peers0 in
             NoDup r
             /\ (forall x, In x r <->
                           In x peers0
                           \/ (fst x = "localhost"%string /\ In (snd x) ports
                               /\ snd x <> port))) as H.
  { induction ports as [| q tl IH]; intros peers0 Hnd Hport; cbn [fold_left].
    - cbv zeta. split; [exact Hnd |]. intros x. split; [now left |].
      intros [H | (_ & [] & _)]. exact H.
    - destruct (add_peer_step port peers0 "localhost" q Hnd Hport) as (Hnd1 & Hport1 & Hin1).
      destruct (IH _ Hnd1 Hport1) as [Hnd2 Hin2]. cbv zeta in *.
      split; [exact Hnd2 |]. intros x. rewrite Hin2, Hin1. split.
      + intros [[H | [-> Hq]] | (Hh & Ht & Hp)].
        * now left.
        * right. simpl. auto.
        * right. simpl. auto.
      + intros [H | (Hh & [Hq | Ht] & Hp)].
        * left. now left.
        * left. right. destruct x as [h q']. simpl in *. subst. auto.
        * right. auto. }
  destruct (H peer_ports [] (NoDup_nil _) (fun x (F : In x []) => match F with end))
    as [Hnd Hin].
  cbv zeta in *. split; [exact Hnd |].
  intros x. rewrite Hin. split; [intros [[] | Hx]; exact Hx | now right].
Qed.

End Peers.

(* ================================================================== *)
(** * What mining pays                                                  *)
(* ================================================================== *)

Section Rewards.

Local Open Scope Z_scope.

Lemma get_balance_snoc (chain : list Block.t) (b : Block.t) (pk : string) :
  chain <> [] ->
  Blockchain.get_balance (chain ++ [b]) pk
  = Blockchain.get_balance chain pk
    + credited pk (Node.item_txs (Block.transactions b))
    - debited pk (Node.item_txs (Block.transactions b)).
Proof.
  intros Hne. unfold Blockchain.get_balance. rewrite !apply_blocks_sum.
  destruct chain as [| first rest]; [contradiction |].
  change (tl ((first :: rest) ++ [b])) with (rest ++ [b]). cbn [tl].
  rewrite all_chain_txs_snoc, credited_app, debited_app. lia.
Qed.

(** X21.  What a mined block pays its miner.  After a turn of [mine] that
    appends a block, the balance [Node.get_balance] reports for a miner
    whose key is not the literal [COINBASE] has grown by [MINING_REWARD]
    and by the fees of the transactions it picked, and moved as those
    transactions move it: up by the amounts they send to the miner, down by
    the amounts and fees of those the miner sent. *)
Theorem mining_pays_the_miner (fuel : nat) (st st' : Node.t) (w w' : world) :
  Node.is_miner st = true ->
  Node.mempool st <> [] ->
  Node.public_key_str st <> Transaction.COINBASE ->
  Node.mine fuel st w = Some (Ok (st', w')) ->
  let picked := Node.pick_transactions st (Blockchain.BLOCK_SIZE_LIMIT - 1) in
  Node.get_balance st'
  = Node.get_balance st
    + Blockchain.MINING_REWARD + Zsum (map Transaction.fee picked)
    + credited (Node.public_key_str st) picked
    - debited (Node.public_key_str st) picked.
Proof.
  intros Hminer Hpending Hpk Hmine. cbv zeta.
  assert (Node.public_key_str st' = Node.public_key_str st) as Hkey.
  { destruct (mine_cases _ _ _ _ _ Hmine) as [-> | (? & ? & ? & ? & _ & _ & _ & _ & _ & ->)];
      reflexivity. }
  destruct (proj2 (mine_block_shape fuel st w) Hminer Hpending st' w' Hmine)
    as (tip & reward & b & Htip & Hchain & _ & Htxs & _ & _ & _ & _ & _ & _ & _
        & Hsender & Hreceiver & Hamount & _).
  unfold Node.get_balance. rewrite Hkey, Hchain.
  rewrite get_balance_snoc
    by (intros Hnil; rewrite Hnil in Htip; discriminate).
  rewrite Htxs, item_txs_map_Tx.
  change (reward :: Node.pick_transactions st (Blockchain.BLOCK_SIZE_LIMIT - 1))
    with ([reward] ++ Node.pick_transactions st (Blockchain.BLOCK_SIZE_LIMIT - 1)).
  rewrite credited_app, debited_app.
  unfold credited at 1, debited at 1. cbn [filter map Zsum fold_right].
  rewrite Hreceiver, Hsender, String.eqb_refl.
  assert ((Transaction.COINBASE =? Node.public_key_str st)%string = false) as Hneq
    by (apply String.eqb_neq; congruence).
  rewrite Hneq. cbn [map Zsum fold_right]. rewrite Hamount. lia.
Qed.

End Rewards.

(* ================================================================== *)
(** * The further properties on concrete runs                           *)
(* ================================================================== *)

Section FurtherOnRuns.

Import Scenario.

Local Open Scope string_scope.

(** Witness of X1: the node that has changed to the longer fork. *)
Lemma reachable_chain_is_valid_witness :
  Node.reachable no_pem_key insertion_order after_fork
  /\ Blockchain.is_valid_chain (Node.blockchain after_fork) = true.
Proof.
  assert (Node.reachable no_pem_key insertion_order after_fork) as H
    by (apply reach_after_fork; reflexivity).
  split; [exact H |].
  exact (reachable_chain_is_valid no_pem_key insertion_order _ _ after_fork H).
Defined.

(** Witness of X2: a node that is sent [b1]. *)
Lemma chain_only_grows_witness :
  Node.run no_pem_key insertion_order node0 (Node.Connection (msg_block b1) []) w0
  = Some (with_b1, w0)
  /\ (Node.name with_b1 = Node.name node0
      /\ Node.is_miner with_b1 = Node.is_miner node0
      /\ Node.public_key_str with_b1 = Node.public_key_str node0)
  /\ (Node.blockchain with_b1 = Node.blockchain node0
      \/ (List.length (Node.blockchain node0) < List.length (Node.blockchain with_b1))%nat).
Proof.
  assert (Node.run no_pem_key insertion_order node0 (Node.Connection (msg_block b1) []) w0
          = Some (with_b1, w0)) as H by (vm_compute; reflexivity).
  split; [exact H |].
  exact (chain_only_grows no_pem_key insertion_order node0 with_b1 _ w0 w0 H).
Defined.

(** Witness of X3: [b1] on the genesis. *)
Lemma add_block_agrees_with_is_valid_chain_witness :
  Blockchain.is_valid_chain [genesis] = true
  /\ Blockchain.is_valid_chain ([genesis] ++ [b1])%list = true
  /\ Blockchain.add_block [genesis] b1 (JStr (Block.hash b1)) = Ok (true, ([genesis] ++ [b1])%list).
Proof.
  assert (Blockchain.is_valid_chain ([genesis] ++ [b1])%list = true) as Hv
    by (vm_compute; reflexivity).
  split; [reflexivity |]. split; [exact Hv |].
  rewrite (add_block_agrees_with_is_valid_chain [genesis] b1 eq_refl), Hv. reflexivity.
Defined.

(** Witness of X4: on [candidate] the loop stops at the third nonce. *)
Lemma proof_of_work_least_nonce_witness :
  Blockchain.proof_of_work 5 candidate
  = Some ("0000b34ffe0285073e0229bbeef986f5a77f8516572f1d6b9331b57e74eeb45b",
          Block.with_nonce candidate 2)
  /\ exists n,
       (n <= 5)%nat
       /\ nonce_ok candidate n = true
       /\ (forall j, (j < n)%nat -> nonce_ok candidate j = false)
       /\ Block.with_nonce candidate 2 = Block.with_nonce candidate (Z.of_nat n)
       /\ "0000b34ffe0285073e0229bbeef986f5a77f8516572f1d6b9331b57e74eeb45b"
          = Block.generate_hash (Block.with_nonce candidate 2).
Proof.
  assert (Blockchain.proof_of_work 5 candidate
          = Some ("0000b34ffe0285073e0229bbeef986f5a77f8516572f1d6b9331b57e74eeb45b",
                  Block.with_nonce candidate 2)) as H by (vm_compute; reflexivity).
  split; [exact H |].
  exact (proj1 (proj1 (proof_of_work_least_nonce 5 candidate) _ _) H).
Defined.




(** Witness of X9: the node that has pooled [forged] is sent [m1], which
    holds it. *)
Lemma accepted_block_clears_pending_witness :
  NoDup (map Transaction.tx_id (Node.mempool with_forged))
  /\ Node.receive_block no_pem_key insertion_order with_forged m1 [] w0
     = Ok (true, forged_mined, w0)
  /\ Node.blockchain forged_mined = (Node.blockchain with_forged ++ [m1])%list
  /\ w0 = w0
  /\ Node.mempool forged_mined
     = filter (fun tx => negb (Node.id_in (Transaction.tx_id tx) (block_tx_ids m1)))
              (Node.mempool with_forged).
Proof.
  assert (NoDup (map Transaction.tx_id (Node.mempool with_forged))) as Hnd
    by (repeat constructor; intros []).
  assert (Node.receive_block no_pem_key insertion_order with_forged m1 [] w0
          = Ok (true, forged_mined, w0)) as H by (vm_compute; reflexivity).
  split; [exact Hnd |]. split; [exact H |].
  exact (accepted_block_clears_pending no_pem_key insertion_order
           with_forged forged_mined m1 [] w0 w0 Hnd H).
Defined.

(** Witness of X10: [forged] stays pending through the change to the
    chain [f0; f1], whose blocks after the first do not hold it. *)
Lemma adopt_chain_keeps_pending_witness :
  In forged (Node.mempool with_forged)
  /\ Node.id_in (Transaction.tx_id forged) (Node.build_tx_ids [f0; f1]) = false
  /\ In forged (Node.mempool (Node.adopt_chain no_pem_key insertion_order with_forged [f0; f1])).
Proof.
  assert (In forged (Node.mempool with_forged)) as Hin by (left; reflexivity).
  split; [exact Hin |]. split; [reflexivity |].
  exact (proj1 (adopt_chain_keeps_pending no_pem_key insertion_order with_forged [f0; f1] forged)
           Hin eq_refl).
Defined.

(** Witness of X11: the block [o1] pays its miner 10. *)
Lemma appended_block_moves_balances_witness :
  Blockchain.add_block [genesis] o1 (JStr (Block.hash o1)) = Ok (true, [genesis; o1])
  /\ Blockchain.get_balance [genesis; o1] "miner-a" = 110%Z.
Proof.
  assert (Blockchain.add_block [genesis] o1 (JStr (Block.hash o1)) = Ok (true, [genesis; o1])) as H
    by (vm_compute; reflexivity).
  split; [exact H |].
  rewrite (appended_block_moves_balances [genesis] [genesis; o1] o1 (Block.hash o1)
             "miner-a" H).
  reflexivity.
Defined.


(** Witness of X13: the request for a public key. *)
Lemma handle_connection_ignores_other_types_witness :
  Node.handle_connection no_pem_key insertion_order node0 Simulate.get_node_pubkey [] w0
  = (node0, w0).
Proof.
  apply handle_connection_ignores_other_types.
  intros fields ty Hmsg Hget. inversion Hmsg; subst fields.
  inversion Hget; subst ty. repeat split; discriminate.
Defined.

(** Witness of X14: [forged], gossiped. *)
Lemma gossiped_transaction_is_added_witness :
  str_truthy (Transaction.tx_id forged) = true
  /\ pynum_truthy (Transaction.timestamp forged) = true
  /\ Node.handle_connection no_pem_key insertion_order node0
       (Node.gossip_transaction forged) [] w0
     = (with_forged, w0).
Proof.
  split; [reflexivity |]. split; [reflexivity |].
  exact (gossiped_transaction_is_added no_pem_key insertion_order node0 forged [] w0
           eq_refl eq_refl).
Defined.

(** Witness of X15: [b1], which [node0] appends, reaches [miner0]. *)
Lemma accepted_block_propagates_witness :
  forallb item_stable (Block.transactions b1) = true
  /\ Blockchain.add_block (Node.blockchain node0) b1 (JStr (Block.hash b1))
     = Ok (true, [genesis; b1])
  /\ Blockchain.last_block (Node.blockchain miner0)
     = Blockchain.last_block (Node.blockchain node0)
  /\ Node.handle_connection no_pem_key insertion_order miner0 (Node.gossip_block b1) [] w0
     = (Node.Make "miner-0" true "miner-key" [genesis; b1] [], w0).
Proof.
  assert (Blockchain.add_block (Node.blockchain node0) b1 (JStr (Block.hash b1))
          = Ok (true, [genesis; b1])) as H by (vm_compute; reflexivity).
  split; [reflexivity |]. split; [exact H |]. split; [reflexivity |].
  exact (accepted_block_propagates no_pem_key insertion_order node0 miner0 b1
           [genesis; b1] [] w0 eq_refl H eq_refl).
Defined.


(** Witness of X17: a node restarted on the file it saved with [b1] on its
    chain. *)
Lemma saved_chain_is_loaded_back_witness :
  Blockchain.is_valid_chain (Node.blockchain with_b1) = true
  /\ Node.init "node-0" false "node-0-key" (Node.save_blockchain with_b1) w0
     = (with_b1, Node.save_blockchain with_b1, w0).
Proof.
  assert (Blockchain.is_valid_chain (Node.blockchain with_b1) = true) as Hv
    by (vm_compute; reflexivity).
  split; [exact Hv |].
  exact (proj2 (proj2 (proj2 (proj2 (proj2
           (saved_chain_is_loaded_back node0 with_b1 "node-0" "node-0-key" false w0)))))
           eq_refl Hv).
Defined.

(** Witness of X18: a dictionary of the four keys that must be there. *)
Lemma transaction_from_dict_missing_keys_witness :
  Transaction.from_dict (JObj bare_transfer) w0
  = (Ok (Transaction.Make "tx-bare" "alice" "bob" 5 0 (PFloat "1700000000.5") None),
     snd (time_time w0))
  /\ Transaction.from_dict (JObj (tl bare_transfer)) w0 = (Raise (KeyError "tx_id"), w0).
Proof.
  split.
  - exact (proj1 (proj2 (proj2 (proj2 (proj2
             (transaction_from_dict_missing_keys bare_transfer w0)))))
             "alice" "bob" 5%Z "tx-bare" eq_refl eq_refl eq_refl eq_refl eq_refl
             eq_refl eq_refl eq_refl).
  - exact (proj1 (proj2 (proj2 (proj2
             (transaction_from_dict_missing_keys (tl bare_transfer) w0))))
             "alice" "bob" 5%Z eq_refl eq_refl eq_refl (or_introl eq_refl) eq_refl).
Defined.

(** Witness of X19: the dictionary of [b1] without its hash comes back as
    [b1], hash included. *)
Lemma block_from_dict_missing_keys_witness :
  Block.from_dict (JObj b1_without_hash) w0 = (Ok b1, w0)
  /\ sealed b1.
Proof.
  assert (Block.from_dict (JObj b1_without_hash) w0 = (Ok b1, w0)) as H
    by (vm_compute; reflexivity).
  split; [exact H |].
  exact (proj1 (proj2 (block_from_dict_missing_keys b1_without_hash w0) b1 w0 H)
           (or_introl eq_refl)).
Defined.

(** Witness of X20: a node on port 5000 told of the peers 5001, 5000, 5001
    and 5002. *)
Lemma peer_list_is_clean_witness :
  RunNode.add_peers 5000 [5001; 5000; 5001; 5002]%Z
  = [("localhost", 5001%Z); ("localhost", 5002%Z)]
  /\ NoDup (RunNode.add_peers 5000 [5001; 5000; 5001; 5002]%Z)
  /\ ~ In ("localhost", 5000%Z) (RunNode.add_peers 5000 [5001; 5000; 5001; 5002]%Z).
Proof.
  destruct (peer_list_is_clean 5000 [] "localhost" 5001 [5001; 5000; 5001; 5002]%Z)
    as (_ & Hnd & Hin).
  split; [reflexivity |]. split; [exact Hnd |].
  intros H. apply Hin in H. destruct H as (_ & _ & H). now apply H.
Defined.

(** Witness of X21: the miner of [m1] holds 110 afterwards. *)
Lemma mining_pays_the_miner_witness :
  Node.mine 0 miner_pending w0 = Some (Ok (miner_mined, w0))
  /\ Node.get_balance miner_pending = 100%Z
  /\ Node.get_balance miner_mined = 110%Z.
Proof.
  assert (Node.mine 0 miner_pending w0 = Some (Ok (miner_mined, w0))) as H
    by (vm_compute; reflexivity).
  split; [exact H |]. split; [reflexivity |].
  rewrite (mining_pays_the_miner 0 miner_pending miner_mined w0 w0 eq_refl
             ltac:(discriminate) ltac:(discriminate) H).
  reflexivity.
Defined.

End FurtherOnRuns.
